(** * nclonline-com-documentation: the PDF scraper of [main.go]

    A shallow embedding of the Go program and the proofs of the
    properties its specification states.

    Go strings are byte sequences: they are modelled as [string] (a list
    of 8-bit [ascii] bytes), Go slices of strings as [list string], the
    [map[string]bool] of the de-duplicator as a [gmap string bool], and
    the file system as a [gmap string node] keyed by cleaned path.

    [strings.ToLower] is modelled as the library has it: the scan for a
    byte outside ASCII, the byte-wise path for a string of ASCII, and
    otherwise [strings.Map] over the UTF-8 runes of the string, with
    every invalid byte read as U+FFFD. The case tables of the package
    [unicode] change with the version of Go; the lower-case form of a
    rune above U+007F is a parameter, [case_table], of every function
    that lowers a string.

    The package [regexp] decodes runes too; the model matches bytes.
    The classes of the three patterns of the program hold bytes of
    ASCII only. For the pattern of the extractor the matches are the
    same. For [^a-z0-9] a rune of several bytes gives several
    underscores where the library gives one; the next statement of
    [urlToFilename] collapses every run of underscores, so that the
    name is the same.

    The functions with effects run in a state monad over the world
    (file system, log, requests made) with a panic outcome; the servers
    and the failures of the operating system are an environment that
    every statement quantifies over.

    The first part holds the definitions (the fragments of the Go
    standard library the program calls, then the program itself, in the
    order of [main.go]); the second part holds the lemmas and theorems. *)

From Stdlib Require Import Ascii NArith ZArith Lia.
From stdpp Require Import gmap strings list.

(** ** Bytes *)

Definition byte_le (a b : ascii) : bool := (N_of_ascii a <=? N_of_ascii b)%N.

Definition byte_between (lo hi c : ascii) : bool := byte_le lo c && byte_le c hi.

Definition byte_eqb (a b : ascii) : bool := Ascii.eqb a b.

(** ** Package [unicode/utf8] *)

Module Utf8.
Local Open Scope Z_scope.

Definition RuneError : Z := 65533.   (* U+FFFD *)
Definition MaxRune : Z := 1114111.   (* U+10FFFF *)

Definition rune_of_byte (c : ascii) : Z := Z.of_N (N_of_ascii c).

Definition byte_of (z : Z) : ascii := ascii_of_N (Z.to_N z).

(** What the first byte of a sequence announces: the table [first]
    with the ranges [acceptRanges] of the second byte. *)
Inductive lead : Type :=
| Single                          (* a byte of ASCII *)
| Invalid                         (* no first byte *)
| Lead (size : nat) (lo hi : Z).  (* a sequence of [size] bytes, the second within lo..hi *)

Definition first (b : Z) : lead :=
  if b <? 128 then Single
  else if b <? 194 then Invalid
  else if b <? 224 then Lead 2 128 191
  else if b =? 224 then Lead 3 160 191
  else if b =? 237 then Lead 3 128 159
  else if b <? 240 then Lead 3 128 191
  else if b =? 240 then Lead 4 144 191
  else if b <? 244 then Lead 4 128 191
  else if b =? 244 then Lead 4 128 143
  else Invalid.

Definition within (lo hi : Z) (c : ascii) : bool :=
  (lo <=? rune_of_byte c) && (rune_of_byte c <=? hi).

(** A continuation byte, 0x80..0xBF. *)
Definition continuation (c : ascii) : bool := within 128 191 c.

(** [utf8.DecodeRuneInString]: the first rune of [s] and its width in
    bytes; U+FFFD with width 1 for a byte that starts no valid
    sequence, with width 0 for the empty string. *)
Definition DecodeRuneInString (s : string) : Z * nat :=
  match s with
  | EmptyString => (RuneError, 0%nat)
  | String s0 t =>
      let b0 := rune_of_byte s0 in
      match first b0 with
      | Single => (b0, 1%nat)
      | Invalid => (RuneError, 1%nat)
      | Lead size lo hi =>
          match t with
          | String s1 t1 =>
              if negb (within lo hi s1) then (RuneError, 1%nat)
              else if (size <=? 2)%nat then
                ((b0 mod 32) * 64 + rune_of_byte s1 mod 64, 2%nat)
              else
                match t1 with
                | String s2 t2 =>
                    if negb (continuation s2) then (RuneError, 1%nat)
                    else if (size <=? 3)%nat then
                      ((b0 mod 16) * 4096 + (rune_of_byte s1 mod 64) * 64
                       + rune_of_byte s2 mod 64, 3%nat)
                    else
                      match t2 with
                      | String s3 _ =>
                          if negb (continuation s3) then (RuneError, 1%nat)
                          else
                            ((b0 mod 8) * 262144 + (rune_of_byte s1 mod 64) * 4096
                             + (rune_of_byte s2 mod 64) * 64
                             + rune_of_byte s3 mod 64, 4%nat)
                      | EmptyString => (RuneError, 1%nat)
                      end
                | EmptyString => (RuneError, 1%nat)
                end
          | EmptyString => (RuneError, 1%nat)
          end
      end
  end.

(** The runes of [s], as a [for range] loop reads them; [skip] counts
    the bytes of the current rune that are still to be passed over. *)
Fixpoint runes_from (s : string) (skip : nat) : list Z :=
  match s with
  | EmptyString => []
  | String _ s' =>
      match skip with
      | S k => runes_from s' k
      | O => fst (DecodeRuneInString s)
             :: runes_from s' (pred (snd (DecodeRuneInString s)))
      end
  end.

Definition runes (s : string) : list Z := runes_from s 0.

Definition bytes3 (r : Z) : string :=
  String (byte_of (224 + r / 4096))
    (String (byte_of (128 + (r / 64) mod 64))
       (String (byte_of (128 + r mod 64)) EmptyString)).

(** [utf8.AppendRune] to the empty string: the encoding of [r], that
    of U+FFFD for a surrogate and for a value out of range. *)
Definition EncodeRune (r : Z) : string :=
  if (0 <=? r) && (r <=? 127) then String (byte_of r) EmptyString
  else if (0 <=? r) && (r <=? 2047) then
    String (byte_of (192 + r / 64)) (String (byte_of (128 + r mod 64)) EmptyString)
  else if (r <? 0) || (MaxRune <? r) || ((55296 <=? r) && (r <=? 57343)) then
    bytes3 RuneError
  else if r <=? 65535 then bytes3 r
  else
    String (byte_of (240 + r / 262144))
      (String (byte_of (128 + (r / 4096) mod 64))
         (String (byte_of (128 + (r / 64) mod 64))
            (String (byte_of (128 + r mod 64)) EmptyString))).

End Utf8.

(** ** Package [unicode] *)

Module Unicode.
Local Open Scope Z_scope.

Definition MaxASCII : Z := 127.

(** [unicode.ToLower]: the letters of ASCII are lowered by hand, every
    other rune through the case tables. [case_table r] stands for
    [To(LowerCase, r)]. *)
Definition ToLower (case_table : Z -> Z) (r : Z) : Z :=
  if r <=? MaxASCII then
    if (65 <=? r) && (r <=? 90) then r + 32 else r
  else case_table r.

(** A fragment of the tables, for the examples: the capitals of
    Latin-1, of the Greek and of the Cyrillic alphabet, the dotted
    capital I (U+0130), the Kelvin sign (U+212A) and the Angstrom
    sign (U+212B). Every other rune is left as it is, which the real
    tables do not do for the other capitals. *)
Definition example_table (r : Z) : Z :=
  if (192 <=? r) && (r <=? 222) && negb (r =? 215) then r + 32
  else if (913 <=? r) && (r <=? 939) && negb (r =? 930) then r + 32
  else if (1024 <=? r) && (r <=? 1039) then r + 80
  else if (1040 <=? r) && (r <=? 1071) then r + 32
  else if r =? 304 then 105
  else if r =? 8490 then 107
  else if r =? 8491 then 229
  else r.

(** What the tables of every version do: no rune is lowered to the
    separator of paths, and none is dropped. *)
Definition keeps_segments (case_table : Z -> Z) : Prop :=
  forall r, MaxASCII < r -> 0 <= case_table r /\ case_table r <> 47.

End Unicode.

(** ** Package [strings] *)

Module Strings.

(** A letter of ASCII in lower case; every other byte as it is. *)
Definition lower_byte (c : ascii) : ascii :=
  if byte_between "A" "Z" c then ascii_of_N (N_of_ascii c + 32) else c.

(** The scan that opens [ToLower]: no byte of [s] is outside ASCII. *)
Fixpoint is_ascii (s : string) : bool :=
  match s with
  | EmptyString => true
  | String c s' => (Utf8.rune_of_byte c <? 128)%Z && is_ascii s'
  end.

(** The path of [ToLower] for a string of ASCII. *)
Fixpoint lower_ascii (s : string) : string :=
  match s with
  | EmptyString => EmptyString
  | String c s' => String (lower_byte c) (lower_ascii s')
  end.

(** [strings.Map(mapping, s)]: the runes of [s] mapped and encoded
    again; a rune mapped to a negative value is dropped. An invalid
    byte is read as U+FFFD. *)
Definition Map (mapping : Z -> Z) (s : string) : string :=
  fold_right
    (fun c acc =>
       let r := mapping c in
       if (0 <=? r)%Z then Utf8.EncodeRune r +:+ acc else acc)
    EmptyString (Utf8.runes s).

(** [strings.ToLower(s)] *)
Definition ToLower (case_table : Z -> Z) (s : string) : string :=
  if is_ascii s then lower_ascii s
  else Map (Unicode.ToLower case_table) s.

Fixpoint mem_byte (c : ascii) (cutset : string) : bool :=
  match cutset with
  | EmptyString => false
  | String d cutset' => byte_eqb c d || mem_byte c cutset'
  end.

Fixpoint TrimLeft (s cutset : string) : string :=
  match s with
  | EmptyString => EmptyString
  | String c s' => if mem_byte c cutset then TrimLeft s' cutset else s
  end.

Fixpoint TrimRight (s cutset : string) : string :=
  match s with
  | EmptyString => EmptyString
  | String c s' =>
      match TrimRight s' cutset with
      | EmptyString => if mem_byte c cutset then EmptyString else String c EmptyString
      | t => String c t
      end
  end.

(** [strings.Trim(s, cutset)]: all leading and trailing bytes of
    [cutset] removed. *)
Definition Trim (s cutset : string) : string :=
  TrimRight (TrimLeft s cutset) cutset.

(** [strings.HasPrefix(s, prefix)] *)
Fixpoint HasPrefix (s pre : string) {struct pre} : bool :=
  match pre with
  | EmptyString => true
  | String a pre' =>
      match s with
      | EmptyString => false
      | String b s' => byte_eqb a b && HasPrefix s' pre'
      end
  end.

(** [strings.Contains(s, substr)] *)
Fixpoint Contains (s substr : string) : bool :=
  HasPrefix s substr ||
  match s with
  | EmptyString => false
  | String _ s' => Contains s' substr
  end.

(** A left-to-right scan for non-overlapping matches, shared by
    [strings.ReplaceAll] and by the [regexp] functions. [match_at t]
    is the length of the match that starts at the head of [t], if
    there is one; [skip] counts the bytes of the current match that
    are still to be passed over. *)
Fixpoint scan_replace (match_at : string -> option nat) (new : string)
    (s : string) (skip : nat) : string :=
  match s with
  | EmptyString => EmptyString
  | String c s' =>
      match skip with
      | S k => scan_replace match_at new s' k
      | O =>
          match match_at s with
          | Some (S n) => new +:+ scan_replace match_at new s' n
          | _ => String c (scan_replace match_at new s' O)
          end
      end
  end.

Definition literal_at (old : string) (t : string) : option nat :=
  if HasPrefix t old then Some (String.length old) else None.

(** An empty [old] matches before every byte and at the end. *)
Fixpoint insert_everywhere (new s : string) : string :=
  match s with
  | EmptyString => new
  | String c s' => new +:+ String c (insert_everywhere new s')
  end.

(** [strings.ReplaceAll(s, old, new)] *)
Definition ReplaceAll (s old new : string) : string :=
  match old with
  | EmptyString => insert_everywhere new s
  | _ => scan_replace (literal_at old) new s 0
  end.

End Strings.

(** ** Package [path/filepath], with '/' as the separator *)

Module Filepath.

Definition is_sep (c : ascii) : bool := byte_eqb c "/".

Fixpoint has_sep (s : string) : bool :=
  match s with
  | EmptyString => false
  | String c s' => is_sep c || has_sep s'
  end.

Fixpoint strip_trailing_sep (s : string) : string :=
  match s with
  | EmptyString => EmptyString
  | String c s' =>
      match strip_trailing_sep s' with
      | EmptyString => if is_sep c then EmptyString else String c EmptyString
      | t => String c t
      end
  end.

(** [path[i+1:]] for the last separator index [i]; the whole path when
    it has no separator. *)
Fixpoint after_last_sep (s : string) : string :=
  match s with
  | EmptyString => EmptyString
  | String c s' =>
      if has_sep s' then after_last_sep s'
      else if is_sep c then s' else s
  end.

(** [filepath.Base]: "." for the empty path, trailing separators
    stripped, the last element kept, "/" for a path of separators
    only. *)
Definition Base (path : string) : string :=
  match path with
  | EmptyString => "."
  | _ =>
      match after_last_sep (strip_trailing_sep path) with
      | EmptyString => "/"
      | p => p
      end
  end.

(** [filepath.Ext]: the suffix of the last element that starts at its
    last dot; empty when that element has no dot. *)
Fixpoint Ext (path : string) : string :=
  match path with
  | EmptyString => EmptyString
  | String c p' =>
      match Ext p' with
      | EmptyString =>
          if byte_eqb c "." && negb (has_sep p') then path else EmptyString
      | e => e
      end
  end.

(** The elements of [path] between separators. *)
Fixpoint split_sep (path : string) : list string :=
  match path with
  | EmptyString => [EmptyString]
  | String c p' =>
      if is_sep c then EmptyString :: split_sep p'
      else match split_sep p' with
           | e :: es => String c e :: es
           | [] => [String c EmptyString]
           end
  end.

(** One element of the lexical clean-up; [stack] holds the kept
    elements, the last one first. *)
Definition clean_step (rooted : bool) (stack : list string) (e : string) : list string :=
  if decide (e = "" \/ e = ".") then stack
  else if decide (e = "..") then
    match stack with
    | top :: stack' => if decide (top = "..") then e :: stack else stack'
    | [] => if rooted then [] else [e]
    end
  else e :: stack.

Fixpoint join_sep (es : list string) : string :=
  match es with
  | [] => EmptyString
  | [e] => e
  | e :: es' => e +:+ "/" +:+ join_sep es'
  end.

(** [filepath.Clean]: repeated separators, "." elements and inner ".."
    elements removed; "." for an empty result. *)
Definition Clean (path : string) : string :=
  let rooted := match path with String c _ => is_sep c | EmptyString => false end in
  let kept := rev (fold_left (clean_step rooted) (split_sep path) []) in
  match (if rooted then "/" else "") +:+ join_sep kept with
  | EmptyString => "."
  | p => p
  end.

(** [filepath.Join] of two elements: empty elements are ignored and
    the result is cleaned. *)
Definition Join (a b : string) : string :=
  match a, b with
  | EmptyString, EmptyString => EmptyString
  | EmptyString, _ => Clean b
  | _, _ => Clean (a +:+ "/" +:+ b)
  end.

(** [path[:i+1]] for the last separator index [i]; empty when the
    path has no separator. *)
Fixpoint upto_last_sep (s : string) : string :=
  match s with
  | EmptyString => EmptyString
  | String c s' => if has_sep s then String c (upto_last_sep s') else EmptyString
  end.

(** [filepath.Dir]: all but the last element of the path, cleaned. *)
Definition Dir (path : string) : string := Clean (upto_last_sep path).

End Filepath.

(** ** Package [regexp]: the fragment of the syntax the program uses *)

Module Regexp.

Inductive charset : Type :=
| CsByte (c : ascii)                                  (* a literal byte *)
| CsClass (negated : bool) (ranges : list (ascii * ascii)). (* a bracket class of ranges, as [a-z0-9], possibly negated *)

Inductive regex : Type :=
| Atom (cs : charset)
| Plus (cs : charset)          (* cs+, greedy *)
| Cat (r1 r2 : regex)
| Group (r : regex).           (* ( r ), the capture group *)

Definition cs_mem (cs : charset) (c : ascii) : bool :=
  match cs with
  | CsByte d => byte_eqb c d
  | CsClass negated ranges =>
      xorb negated (existsb (fun r => byte_between (fst r) (snd r) c) ranges)
  end.

(** The literal [s] followed by [r]. *)
Fixpoint lit (s : string) (r : regex) : regex :=
  match s with
  | EmptyString => r
  | String c s' => Cat (Atom (CsByte c)) (lit s' r)
  end.

(** The part of [s] consumed when [rest] is what is left of it. *)
Definition consumed (s rest : string) : string :=
  String.substring 0 (String.length s - String.length rest) s.

Section Backtrack.
Context {R : Type}.

(** [cs+]: the longest run first, then shorter ones. *)
Fixpoint plus_loop (p : ascii -> bool) (s : string)
    (k : string -> option R) : option R :=
  match s with
  | EmptyString => None
  | String c s' =>
      if p c then
        match plus_loop p s' k with
        | Some r => Some r
        | None => k s'
        end
      else None
  end.

(** A backtracking matcher anchored at the head of [s]; [cap] is the
    text of the capture group so far, [k] the continuation that
    receives the rest of the input. The first success in priority
    order is the leftmost-first match of the library. *)
Fixpoint backtrack (r : regex) (s : string) (cap : option string)
    (k : string -> option string -> option R) : option R :=
  match r with
  | Atom cs =>
      match s with
      | String c s' => if cs_mem cs c then k s' cap else None
      | EmptyString => None
      end
  | Plus cs => plus_loop (cs_mem cs) s (fun s' => k s' cap)
  | Cat r1 r2 => backtrack r1 s cap (fun s1 cap1 => backtrack r2 s1 cap1 k)
  | Group r1 => backtrack r1 s cap (fun s1 _ => k s1 (Some (consumed s s1)))
  end.
End Backtrack.

(** The match at the head of [s]: its length and its capture. *)
Definition exec (r : regex) (s : string) : option (nat * option string) :=
  backtrack r s None
    (fun rest cap => Some (String.length s - String.length rest, cap)).

Definition match_len (r : regex) (s : string) : option nat :=
  fst <$> exec r s.

(** [re.ReplaceAllString(src, repl)] for a [repl] without '$'. *)
Definition ReplaceAllString (re : regex) (src repl : string) : string :=
  Strings.scan_replace (match_len re) repl src 0.

(** One element per match: the whole match, then the text of the
    capture group (empty when the group took no part). *)
Fixpoint find_all (re : regex) (s : string) (skip : nat) : list (list string) :=
  match s with
  | EmptyString => []
  | String c s' =>
      match skip with
      | S k => find_all re s' k
      | O =>
          match exec re s with
          | Some (S n, cap) =>
              [String.substring 0 (S n) s; default "" cap] :: find_all re s' n
          | _ => find_all re s' O
          end
      end
  end.

(** [re.FindAllStringSubmatch(s, -1)] *)
Definition FindAllStringSubmatch (re : regex) (s : string) : list (list string) :=
  find_all re s 0.

End Regexp.

(** ** [main.go]: the pure functions *)

(** The double-quote byte, 0x22. *)
Definition dquote : ascii := "034"%char.

(** The pattern of [extractPDFUrls]: href=, a double quote, the group
    ( [^dquote]+ \.pdf ), a double quote. *)
Definition regexPattern : Regexp.regex :=
  Regexp.lit "href="
    (Regexp.Cat (Regexp.Atom (Regexp.CsByte dquote))
       (Regexp.Cat
          (Regexp.Group
             (Regexp.Cat (Regexp.Plus (Regexp.CsClass true [(dquote, dquote)]))
                (Regexp.lit ".pd" (Regexp.Atom (Regexp.CsByte "f")))))
          (Regexp.Atom (Regexp.CsByte dquote)))).

(** extractPDFUrls takes an HTML string and returns all .pdf URLs in a slice *)
Definition extractPDFUrls (htmlContent : string) : list string :=
  let matches := Regexp.FindAllStringSubmatch regexPattern htmlContent in
  fold_left
    (fun pdfURLs match_ =>
       if decide (1 < length match_)
       then pdfURLs ++ [default "" (match_ !! 1)]
       else pdfURLs)
    matches [].

(** Removes duplicate strings from a slice *)
Definition removeDuplicatesFromSlice (slice : list string) : list string :=
  snd (fold_left
         (fun '(check, newReturnSlice) content =>
            if negb (default false (check !! content))
            then (<[content := true]> check, newReturnSlice ++ [content])
            else (check, newReturnSlice))
         slice ((∅ : gmap string bool), [])).

(** Extracts filename from full path *)
Definition getFilename (path : string) : string := Filepath.Base path.

(** Removes all instances of a specific substring from input string *)
Definition removeSubstring (input toRemove : string) : string :=
  Strings.ReplaceAll input toRemove "".

(** Gets the file extension from a given file path *)
Definition getFileExtension (path : string) : string := Filepath.Ext path.

(** The pattern [^a-z0-9]. *)
Definition reNonAlnum : Regexp.regex :=
  Regexp.Atom (Regexp.CsClass true [("a", "z"); ("0", "9")]%char).

(** The pattern _+ *)
Definition reUnderscores : Regexp.regex := Regexp.Plus (Regexp.CsByte "_").

Definition invalidSubstrings : list string := ["_pdf"].

(** Converts a raw URL into a sanitized PDF filename safe for filesystem *)
Definition urlToFilename (case_table : Z -> Z) (rawURL : string) : string :=
  let lower := Strings.ToLower case_table rawURL in
  let lower := getFilename lower in
  let safe := Regexp.ReplaceAllString reNonAlnum lower "_" in
  let safe := Regexp.ReplaceAllString reUnderscores safe "_" in
  let safe := Strings.Trim safe "_" in
  let safe := fold_left removeSubstring invalidSubstrings safe in
  if decide (getFileExtension safe = ".pdf") then safe else safe +:+ ".pdf".

(** ** The world the program runs in *)

(** What a path names: a regular file with its contents, a directory,
    or anything else (a device, a named pipe, a socket). *)
Inductive node : Type :=
| File (content : string)
| Dir
| Special.

(** [info.IsDir()] *)
Definition IsDir (info : node) : bool :=
  match info with
  | Dir => true
  | _ => false
  end.

(** The lines the program logs, one constructor per call site. *)
Inductive log_entry : Type :=
| LogError (err : string)                          (* log.Println(err) *)
| LogScraping (uri : string)                       (* Scraping <uri> *)
| LogSkipExisting (filePath : string)              (* File already exists, skipping *)
| LogGetFailed (url err : string)                  (* Failed to download *)
| LogBadStatus (url status : string)               (* Download failed for *)
| LogInvalidContentType (url contentType : string) (* Invalid content type for *)
| LogReadFailed (url err : string)                 (* Failed to read PDF data from *)
| LogZeroBytes (url : string)                      (* Downloaded 0 bytes for *)
| LogCreateFailed (url err : string)               (* Failed to create file for *)
| LogWriteFailed (url err : string)                (* Failed to write PDF to file for *)
| LogSuccess (written : nat) (url filePath : string). (* Successfully downloaded *)

(** A response body: the bytes a reader gets out of it, and the error
    that ends the read, if any. *)
Record body : Type := Body {
  body_data : string;
  body_read_err : option string;
  body_close_err : option string
}.

Record response : Type := Response {
  StatusCode : nat;
  Status : string;
  ContentType : string;      (* Header.Get of Content-Type *)
  resp_Body : body
}.

(** The two results of [Get]: a response and a nil error, or an error,
    with which the response is nil unless a redirect was refused. *)
Inductive get_result : Type :=
| GetOk (resp : response)
| GetErr (resp : option response) (err : string).

Inductive sysop : Type :=
  OpStat | OpMkdir | OpRemove | OpOpen | OpReadFile | OpCreate | OpClose.

(** What the model leaves open: the case tables of the package
    [unicode], the package [net/url], the servers, and the failures of
    the operating system. [net] answers a request given the requests
    made before it; [fault] makes a system call on a path fail, for
    the whole run (no permission, a name too long, an input/output
    error, ...);
    [short_write] is the number of bytes that reach the file when a
    write fails, [short_read] the number of bytes that are read before
    a read fails. *)
Record Env : Type := {
  case_table : Z -> Z;                         (* unicode.To(LowerCase, r) *)
  url_Parse_Host : string -> option string;    (* Host of url.Parse, None on error *)
  url_ParseRequestURI_ok : string -> bool;     (* url.ParseRequestURI gave no error *)
  net : list string -> string -> get_result;
  fault : sysop -> string -> option string;
  short_write : string -> string -> option (nat * string);
  short_read : string -> option (nat * string)
}.

Record world : Type := World {
  fs : gmap string node;
  log : list log_entry;
  requests : list string     (* the URLs requested so far, oldest first *)
}.

(** A run either returns a value in a new world or panics. *)
Inductive outcome (A : Type) : Type :=
| Done (a : A) (w : world)
| Panic (w : world).
Arguments Done {A} a w.
Arguments Panic {A} w.

Definition M (A : Type) : Type := world -> outcome A.

Definition ret {A} (a : A) : M A := fun w => Done a w.

Definition bind {A B} (m : M A) (k : A -> M B) : M B :=
  fun w => match m w with
           | Done a w' => k a w'
           | Panic w' => Panic w'
           end.

Declare Scope go_scope.
Delimit Scope go_scope with go.
Notation "x <- m ;; k" := (bind m (fun x => k))
  (at level 100, m at level 99, right associativity) : go_scope.
Notation "m ;;; k" := (bind m (fun _ => k))
  (at level 100, right associativity) : go_scope.
Local Open Scope go_scope.

Definition panic {A} : M A := fun w => Panic w.

(** A [for range] loop over a slice. *)
Fixpoint for_range {A} (l : list A) (body : A -> M unit) : M unit :=
  match l with
  | [] => ret tt
  | x :: l' => body x ;;; for_range l' body
  end.

Definition log_Println (e : log_entry) : M unit :=
  fun w => Done tt (World (fs w) (log w ++ [e]) (requests w)).

Definition log_if_err (err : option string) : M unit :=
  match err with
  | Some e => log_Println (LogError e)
  | None => ret tt
  end.

(** [http.Get] and [client.Get]: the request is recorded and answered
    by the network. *)
Definition http_Get (env : Env) (url : string) : M get_result :=
  fun w => Done (net env (requests w) url)
                (World (fs w) (log w) (requests w ++ [url])).

(** *** The file system

    A path names the node under its cleaned form, so that PDFs/ and
    PDFs are one directory; the empty path names nothing. The working
    directory and the root are always there. A new entry needs its
    directory. Every other refusal of the operating system comes
    through [fault]. *)

Definition os_key (path : string) : option string :=
  if bool_decide (path = "") then None else Some (Filepath.Clean path).

Definition always_there (k : string) : bool := bool_decide (k = "." \/ k = "/").

Definition node_at (files : gmap string node) (k : string) : option node :=
  if always_there k then Some Dir else files !! k.

Definition dir_at (files : gmap string node) (k : string) : bool :=
  match node_at files k with
  | Some Dir => true
  | _ => false
  end.

Definition set_fs (files : gmap string node) (w : world) : world :=
  World files (log w) (requests w).

Definition ENOENT : string := "no such file or directory".
Definition EISDIR : string := "is a directory".
Definition EEXIST : string := "file exists".
Definition ErrInvalid : string := "invalid argument".

(** [os.Stat]: the node that the path names, or nothing with an error. *)
Definition os_Stat (env : Env) (path : string) : M (option node) :=
  fun w =>
    match fault env OpStat path, os_key path with
    | None, Some k => Done (node_at (fs w) k) w
    | _, _ => Done None w
    end.

(** [os.Mkdir]: fails when the path exists already. *)
Definition os_Mkdir (env : Env) (path : string) : M (option string) :=
  fun w =>
    match fault env OpMkdir path, os_key path with
    | Some e, _ => Done (Some e) w
    | None, None => Done (Some ENOENT) w
    | None, Some k =>
        match node_at (fs w) k with
        | Some _ => Done (Some EEXIST) w
        | None =>
            if dir_at (fs w) (Filepath.Dir k)
            then Done None (set_fs (<[k := Dir]> (fs w)) w)
            else Done (Some ENOENT) w
        end
    end.

(** [os.Remove] *)
Definition os_Remove (env : Env) (path : string) : M (option string) :=
  fun w =>
    match fault env OpRemove path, os_key path with
    | Some e, _ => Done (Some e) w
    | None, None => Done (Some ENOENT) w
    | None, Some k =>
        if always_there k then Done (Some ErrInvalid) w
        else
          match fs w !! k with
          | None => Done (Some ENOENT) w
          | Some _ => Done None (set_fs (delete k (fs w)) w)
          end
    end.

(** Opening [path] for writing, creating the file when there is none:
    the open file, or nil with an error. [truncate] empties a regular
    file that is there. *)
Definition open_for_writing (truncate : bool) (op : sysop) (env : Env) (path : string)
    : M (option string * option string) :=
  fun w =>
    match fault env op path, os_key path with
    | Some e, _ => Done (None, Some e) w
    | None, None => Done (None, Some ENOENT) w
    | None, Some k =>
        match node_at (fs w) k with
        | Some Dir => Done (None, Some EISDIR) w
        | Some Special => Done (Some k, None) w
        | Some (File c) =>
            Done (Some k, None)
                 (if truncate then set_fs (<[k := File ""]> (fs w)) w else w)
        | None =>
            if dir_at (fs w) (Filepath.Dir k)
            then Done (Some k, None) (set_fs (<[k := File ""]> (fs w)) w)
            else Done (None, Some ENOENT) w
        end
    end.

(** [os.Create(path)] *)
Definition os_Create : Env -> string -> M (option string * option string) :=
  open_for_writing true OpCreate.

(** [os.OpenFile(path, os.O_APPEND|os.O_CREATE|os.O_WRONLY, 0644)] *)
Definition os_OpenFile : Env -> string -> M (option string * option string) :=
  open_for_writing false OpOpen.

(** [f.Write], under [f.WriteString] and [buf.WriteTo(f)], at the end
    of the file: every byte, or the first bytes and an error. What is
    written to a device is not kept. A nil file is an invalid
    argument. *)
Definition File_Write (env : Env) (f : option string) (data : string)
    : M (option string) :=
  fun w =>
    match f with
    | None => Done (Some ErrInvalid) w
    | Some k =>
        let '(written, err) :=
          match short_write env k data with
          | Some (n, e) => (String.substring 0 n data, Some e)
          | None => (data, None)
          end in
        match fs w !! k with
        | Some (File c) => Done err (set_fs (<[k := File (c +:+ written)]> (fs w)) w)
        | _ => Done err w
        end
    end.

(** [f.Close()] *)
Definition File_Close (env : Env) (f : option string) : M (option string) :=
  fun w =>
    match f with
    | None => Done (Some ErrInvalid) w
    | Some k => Done (fault env OpClose k) w
    end.

(** [os.ReadFile]: the contents, or what was read of them and an error.
    A device gives nothing to read. *)
Definition os_ReadFile (env : Env) (path : string) : M (string * option string) :=
  fun w =>
    match fault env OpReadFile path, os_key path with
    | Some e, _ => Done ("", Some e) w
    | None, None => Done ("", Some ENOENT) w
    | None, Some k =>
        match node_at (fs w) k with
        | Some (File c) =>
            match short_read env k with
            | Some (n, e) => Done (String.substring 0 n c, Some e) w
            | None => Done (c, None) w
            end
        | Some Dir => Done ("", Some EISDIR) w
        | Some Special => Done ("", None) w
        | None => Done ("", Some ENOENT) w
        end
    end.

(** ** [main.go]: the functions with effects *)

(** It checks if the file exists *)
Definition fileExists (env : Env) (filename : string) : M bool :=
  info <- os_Stat env filename ;;
  match info with
  | None => ret false
  | Some info => ret (negb (IsDir info))
  end.

(** Remove a file from the file system *)
Definition removeFile (env : Env) (path : string) : M unit :=
  err <- os_Remove env path ;; log_if_err err.

(** Checks whether a given directory exists *)
Definition directoryExists (env : Env) (path : string) : M bool :=
  directory <- os_Stat env path ;;
  match directory with
  | None => ret false
  | Some directory => ret (IsDir directory)
  end.

(** Creates a directory at given path with provided permissions *)
Definition createDirectory (env : Env) (path : string) : M unit :=
  err <- os_Mkdir env path ;; log_if_err err.

(** Verifies whether a string is a valid URL format *)
Definition isUrlValid (env : Env) (uri : string) : bool :=
  url_ParseRequestURI_ok env uri.

(** hasDomain checks if the given string has a domain (host part) *)
Definition hasDomain (env : Env) (rawURL : string) : bool :=
  match url_Parse_Host env rawURL with
  | None => false
  | Some host => negb (bool_decide (host = ""))
  end.

Definition StatusOK : nat := 200.

(** Downloads a PDF from given URL and saves it in the specified
    directory. The two deferred calls of Close have no effect on the
    world and their errors are dropped. *)
Definition downloadPDF (env : Env) (finalURL outputDir : string) : M bool :=
  let filename := Strings.ToLower (case_table env) (urlToFilename (case_table env) finalURL) in
  let filePath := Filepath.Join outputDir filename in
  exists_ <- fileExists env filePath ;;
  if exists_ then
    log_Println (LogSkipExisting filePath) ;;; ret false
  else
    r <- http_Get env finalURL ;;
    match r with
    | GetErr _ err => log_Println (LogGetFailed finalURL err) ;;; ret false
    | GetOk resp =>
        if negb (bool_decide (StatusCode resp = StatusOK)) then
          log_Println (LogBadStatus finalURL (Status resp)) ;;; ret false
        else
          let contentType := ContentType resp in
          if negb (Strings.Contains contentType "binary/octet-stream")
             && negb (Strings.Contains contentType "application/pdf") then
            log_Println (LogInvalidContentType finalURL contentType) ;;; ret false
          else
            let buf := body_data (resp_Body resp) in
            let written := String.length buf in
            match body_read_err (resp_Body resp) with
            | Some err => log_Println (LogReadFailed finalURL err) ;;; ret false
            | None =>
                if bool_decide (written = 0) then
                  log_Println (LogZeroBytes finalURL) ;;; ret false
                else
                  created <- os_Create env filePath ;;
                  let '(out, err) := created in
                  match err with
                  | Some err => log_Println (LogCreateFailed finalURL err) ;;; ret false
                  | None =>
                      werr <- File_Write env out buf ;;
                      match werr with
                      | Some err => log_Println (LogWriteFailed finalURL err) ;;; ret false
                      | None =>
                          log_Println (LogSuccess written finalURL filePath) ;;; ret true
                      end
                  end
            end
    end.

(** Performs HTTP GET request and returns response body as string *)
Definition getDataFromURL (env : Env) (uri : string) : M string :=
  log_Println (LogScraping uri) ;;;
  r <- http_Get env uri ;;
  let '(response, err) :=
    match r with
    | GetOk resp => (Some resp, None)
    | GetErr resp err => (resp, Some err)
    end in
  log_if_err err ;;;
  match response with
  | None => panic                 (* response.Body on a nil response *)
  | Some resp =>
      let body := body_data (resp_Body resp) in
      log_if_err (body_read_err (resp_Body resp)) ;;;
      log_if_err (body_close_err (resp_Body resp)) ;;;
      ret body
  end.

Definition newline : string := String "010"%char "".

(** Append and write to file. After a failed open the file is nil: the
    write and the close fail in turn, and nothing panics. *)
Definition appendAndWriteToFile (env : Env) (path content : string) : M unit :=
  opened <- os_OpenFile env path ;;
  let '(filePath, err) := opened in
  log_if_err err ;;;
  err <- File_Write env filePath (content +:+ newline) ;;
  log_if_err err ;;;
  err <- File_Close env filePath ;;
  log_if_err err.

(** Read a file and return the contents *)
Definition readAFileAsString (env : Env) (path : string) : M string :=
  read <- os_ReadFile env path ;;
  let '(content, err) := read in
  log_if_err err ;;;
  ret content.

Definition baseOrigin : string := "https://www.nclonline.com".

(** The body of the download loop of [main]. *)
Definition download_step (env : Env) (outputDir urls : string) : M unit :=
  let urls := if negb (hasDomain env urls) then baseOrigin +:+ urls else urls in
  if isUrlValid env urls then
    downloadPDF env urls outputDir ;;; ret tt
  else ret tt.

(** [main], with its list of seed pages as a parameter. *)
Definition run (env : Env) (remoteURL : list string) : M unit :=
  let outputDir := "PDFs/" in
  (d <- directoryExists env outputDir ;;
   if negb d then createDirectory env outputDir else ret tt) ;;;
  let localFile := "nclonline.html" in
  (e <- fileExists env localFile ;;
   if e then removeFile env localFile else ret tt) ;;;
  for_range remoteURL
    (fun url =>
       pageContent <- getDataFromURL env url ;;
       appendAndWriteToFile env localFile pageContent) ;;;
  fileContent <- readAFileAsString env localFile ;;
  let extractedPDFURLs := extractPDFUrls fileContent in
  let extractedPDFURLs := removeDuplicatesFromSlice extractedPDFURLs in
  for_range extractedPDFURLs (download_step env outputDir).

(** The seed pages of [main]. *)
Definition remoteURL : list string :=
  [ "https://www.nclonline.com/products/sds_alpha";
    "https://www.nclonline.com/products/view/15_COCONUT_OIL";
    "https://www.nclonline.com/products/view/24_7_";
    "https://www.nclonline.com/products/view/Afia_ALCOHOL_BASED";
    "https://www.nclonline.com/products/view/Afia_Alcohol_Free";
    "https://www.nclonline.com/products/view/Afia_Anti_Bacterial";
    "https://www.nclonline.com/products/view/Afia_Earth_Sense_Certified_Green_Foaming";
    "https://www.nclonline.com/products/view/Afia_Foaming_E2";
    "https://www.nclonline.com/products/view/Afia_Foaming_Hair_and_Body_Wash";
    "https://www.nclonline.com/products/view/Afia_Harvest_Melon";
    "https://www.nclonline.com/products/view/Afia_Hypoallergenic_Certified";
    "https://www.nclonline.com/products/view/Afia_Ocean_Mist";
    "https://www.nclonline.com/products/view/Afia_Spring_Blossom";
    "https://www.nclonline.com/products/view/ALL_IN_ONE_";
    "https://www.nclonline.com/products/view/ALL_OFF_";
    "https://www.nclonline.com/products/view/ASAP";
    "https://www.nclonline.com/products/view/ASTRO_CHEM_";
    "https://www.nclonline.com/products/view/AUTO_KLEEN_";
    "https://www.nclonline.com/products/view/AVISTAT_D_";
    "https://www.nclonline.com/products/view/BALANCE_";
    "https://www.nclonline.com/products/view/BARE_BONES_";
    "https://www.nclonline.com/products/view/BARE_BONES_LOW_ODOR";
    "https://www.nclonline.com/products/view/BATHROOM_PLUS_";
    "https://www.nclonline.com/products/view/BIG_PUNCH";
    "https://www.nclonline.com/products/view/BLUE_VELVET_";
    "https://www.nclonline.com/products/view/BOLT_";
    "https://www.nclonline.com/products/view/BRITE_EYES_";
    "https://www.nclonline.com/products/view/BULLSEYE_";
    "https://www.nclonline.com/products/view/BURST_PLUS_";
    "https://www.nclonline.com/products/view/C_ALL_";
    "https://www.nclonline.com/products/view/CHEM_EEZ_";
    "https://www.nclonline.com/products/view/CITRI_SCRUB_";
    "https://www.nclonline.com/products/view/CITROL";
    "https://www.nclonline.com/products/view/CITRUS_FLOWER_QUAT";
    "https://www.nclonline.com/products/view/CITRUS_KLEEN";
    "https://www.nclonline.com/products/view/CleanSMART_Foaming_Degreaser_Cleaner_SC";
    "https://www.nclonline.com/products/view/CleanSMART_Pot_Pan_Detergent_SC";
    "https://www.nclonline.com/products/view/CleanSMART_Sanitizer_1_512";
    "https://www.nclonline.com/products/view/COMBAT_";
    "https://www.nclonline.com/products/view/COMMAND_";
    "https://www.nclonline.com/products/view/CONKLEEN_204_";
    "https://www.nclonline.com/products/view/CORRAL_";
    "https://www.nclonline.com/products/view/CREAM_COAT_";
    "https://www.nclonline.com/products/view/CYCLONE_";
    "https://www.nclonline.com/products/view/DECADE_";
    "https://www.nclonline.com/products/view/DEO_PINE_";
    "https://www.nclonline.com/products/view/DESCUM";
    "https://www.nclonline.com/products/view/DUAL_BLEND_1";
    "https://www.nclonline.com/products/view/DUAL_BLEND_10";
    "https://www.nclonline.com/products/view/DUAL_BLEND_11";
    "https://www.nclonline.com/products/view/DUAL_BLEND_17";
    "https://www.nclonline.com/products/view/DUAL_BLEND_19";
    "https://www.nclonline.com/products/view/DUAL_BLEND_2";
    "https://www.nclonline.com/products/view/DUAL_BLEND_20";
    "https://www.nclonline.com/products/view/DUAL_BLEND_21";
    "https://www.nclonline.com/products/view/DUAL_BLEND_22";
    "https://www.nclonline.com/products/view/DUAL_BLEND_23";
    "https://www.nclonline.com/products/view/DUAL_BLEND_24";
    "https://www.nclonline.com/products/view/DUAL_BLEND_25";
    "https://www.nclonline.com/products/view/DUAL_BLEND_26";
    "https://www.nclonline.com/products/view/DUAL_BLEND_3";
    "https://www.nclonline.com/products/view/DUAL_BLEND_4";
    "https://www.nclonline.com/products/view/DUAL_BLEND_5";
    "https://www.nclonline.com/products/view/DUAL_BLEND_6";
    "https://www.nclonline.com/products/view/DUAL_BLEND_7";
    "https://www.nclonline.com/products/view/DUAL_BLEND_8";
    "https://www.nclonline.com/products/view/DUAL_BLEND_9";
    "https://www.nclonline.com/products/view/DURA_GLOSS_";
    "https://www.nclonline.com/products/view/EARTH_SENSE_ASPIRE_";
    "https://www.nclonline.com/products/view/EARTH_SENSE_Certified_Foaming_Hand_Cleaner";
    "https://www.nclonline.com/products/view/EARTH_SENSE_Certified_Liquid_Hand_Cleaner";
    "https://www.nclonline.com/products/view/EARTH_SENSE_Degreaser_Cleaner";
    "https://www.nclonline.com/products/view/EARTH_SENSE_EVERGREEN_FINISH";
    "https://www.nclonline.com/products/view/EARTH_SENSE_Extra_Heavy_Duty_RTU";
    "https://www.nclonline.com/products/view/EARTH_SENSE_Foam_Safe";
    "https://www.nclonline.com/products/view/EARTH_SENSE_GREEN_IMPACT_";
    "https://www.nclonline.com/products/view/EARTH_SENSE_HD_WASHROOM_CLEANER";
    "https://www.nclonline.com/products/view/EARTH_SENSE_Multi_Purpose_Neutral_Cleaner";
    "https://www.nclonline.com/products/view/EARTH_SENSE_Multi_Surface_Concentrate_with_H2O2";
    "https://www.nclonline.com/products/view/EARTH_SENSE_NEUTRAL_FLOOR_CLEANER";
    "https://www.nclonline.com/products/view/EARTH_SENSE_RTU_GLASS_HARD_SURFACE_CLEANER";
    "https://www.nclonline.com/products/view/EASY_DAB_";
    "https://www.nclonline.com/products/view/ECO_SOLV";
    "https://www.nclonline.com/products/view/EDGE_PLUS_";
    "https://www.nclonline.com/products/view/ENDURE_";
    "https://www.nclonline.com/products/view/ENHANCE_";
    "https://www.nclonline.com/products/view/ENSEEL_";
    "https://www.nclonline.com/products/view/ES_Neutral_Disinfectant_Detergent";
    "https://www.nclonline.com/products/view/ETERNITY_";
    "https://www.nclonline.com/products/view/ETERNITY_Aerosol_";
    "https://www.nclonline.com/products/view/EXPOSE_";
    "https://www.nclonline.com/products/view/EXTREME_PLUS_";
    "https://www.nclonline.com/products/view/FLEXI_CLEAN";
    "https://www.nclonline.com/products/view/FLEXI_SHEEN_";
    "https://www.nclonline.com/products/view/FOAM_SAFE_OCEAN_MIST";
    "https://www.nclonline.com/products/view/FOAM_BREAK_";
    "https://www.nclonline.com/products/view/FORTRESS";
    "https://www.nclonline.com/products/view/FRESH_START_";
    "https://www.nclonline.com/products/view/GLIMMER_";
    "https://www.nclonline.com/products/view/GOLDEN_POT_PAN";
    "https://www.nclonline.com/products/view/GREEN_EMERALD";
    "https://www.nclonline.com/products/view/HOMBRE_";
    "https://www.nclonline.com/products/view/HURRAH_CAR_WASH";
    "https://www.nclonline.com/products/view/HURRICANE_";
    "https://www.nclonline.com/products/view/IMAGE_";
    "https://www.nclonline.com/products/view/IMPRESSIONS_";
    "https://www.nclonline.com/products/view/INCREDILOSO_";
    "https://www.nclonline.com/products/view/INCREDILOSO_Lavender";
    "https://www.nclonline.com/products/view/INVINCIBLE_";
    "https://www.nclonline.com/products/view/KITCHEN_MATE";
    "https://www.nclonline.com/products/view/KLEER_BRITE_";
    "https://www.nclonline.com/products/view/LAVENDER_QUAT";
    "https://www.nclonline.com/products/view/LEMON_QUAT";
    "https://www.nclonline.com/products/view/LUSTER";
    "https://www.nclonline.com/products/view/LVT_CLEAN";
    "https://www.nclonline.com/products/view/LVT_PROTECT";
    "https://www.nclonline.com/products/view/MAGIC_BREEZE_Herbal";
    "https://www.nclonline.com/products/view/MAGIC_BREEZE_Lavender";
    "https://www.nclonline.com/products/view/MAIN_SQUEEZE_CLEANER";
    "https://www.nclonline.com/products/view/MAIN_SQUEEZE_DEGREASER";
    "https://www.nclonline.com/products/view/MAIN_SQUEEZE_GLASS";
    "https://www.nclonline.com/products/view/MAIN_SQUEEZE_Lavender_256";
    "https://www.nclonline.com/products/view/MARVEL";
    "https://www.nclonline.com/products/view/MATTE";
    "https://www.nclonline.com/products/view/MICRO_CHEM_PLUS_";
    "https://www.nclonline.com/products/view/MINT_QUAT";
    "https://www.nclonline.com/products/view/MIRAGE";
    "https://www.nclonline.com/products/view/MOLD_AWAY_";
    "https://www.nclonline.com/products/view/MRP_";
    "https://www.nclonline.com/products/view/MULTI_STAT_";
    "https://www.nclonline.com/products/view/NATURAL_MIRACLE_";
    "https://www.nclonline.com/products/view/NATURE_S_FORCE";
    "https://www.nclonline.com/products/view/NATURE_S_POWER";
    "https://www.nclonline.com/products/view/NATURE_S_SOLUTION_";
    "https://www.nclonline.com/products/view/NCL_2_";
    "https://www.nclonline.com/products/view/NCLwipes_Lemon_Fresh";
    "https://www.nclonline.com/products/view/NCLwipes_Waterfall_Fresh";
    "https://www.nclonline.com/products/view/NEUTRA_CIDE_256";
    "https://www.nclonline.com/products/view/NEUTRAL_Q_";
    "https://www.nclonline.com/products/view/NEXT_CENTURY_";
    "https://www.nclonline.com/products/view/NEXT_STEP_";
    "https://www.nclonline.com/products/view/NO_ZAP_STATIC_DISSIPATIVE_FLOOR_COATING";
    "https://www.nclonline.com/products/view/NU_HIDE_";
    "https://www.nclonline.com/products/view/NU_LOOK";
    "https://www.nclonline.com/products/view/ONE_COAT_25_";
    "https://www.nclonline.com/products/view/ONE_STEP_";
    "https://www.nclonline.com/products/view/ONE_";
    "https://www.nclonline.com/products/view/PATINA_";
    "https://www.nclonline.com/products/view/PERFECTION_";
    "https://www.nclonline.com/products/view/pH_ENOMENAL_";
    "https://www.nclonline.com/products/view/PICTURE_PERFECT_";
    "https://www.nclonline.com/products/view/PINE_QUAT_PLUS_";
    "https://www.nclonline.com/products/view/PINK_LOTION";
    "https://www.nclonline.com/products/view/PINK_N_CREAMY";
    "https://www.nclonline.com/products/view/PINK_SUDS";
    "https://www.nclonline.com/products/view/PIZZAZZ_";
    "https://www.nclonline.com/products/view/POOFF_";
    "https://www.nclonline.com/products/view/POP_SHINE_";
    "https://www.nclonline.com/products/view/POP_SHINE_RTU";
    "https://www.nclonline.com/products/view/PRO_SEEL_";
    "https://www.nclonline.com/products/view/ProLEX_CDL_520";
    "https://www.nclonline.com/products/view/ProLEX_HTR_260";
    "https://www.nclonline.com/products/view/ProLEX_LTD_220";
    "https://www.nclonline.com/products/view/ProLEX_LTR_250";
    "https://www.nclonline.com/products/view/QWIK_SCRUB_";
    "https://www.nclonline.com/products/view/RELY";
    "https://www.nclonline.com/products/view/RINSE_AWAY_PLUS_";
    "https://www.nclonline.com/products/view/ROAD_AWAY";
    "https://www.nclonline.com/products/view/ROCK_HARD_";
    "https://www.nclonline.com/products/view/RUFF_N_READY";
    "https://www.nclonline.com/products/view/SANIQUAT";
    "https://www.nclonline.com/products/view/SEA_BRITE_";
    "https://www.nclonline.com/products/view/SHA_ZYME_";
    "https://www.nclonline.com/products/view/SHA_ZYME_DRC";
    "https://www.nclonline.com/products/view/SHA_ZYME_RTU";
    "https://www.nclonline.com/products/view/SHIELD";
    "https://www.nclonline.com/products/view/SOFT_N_CREAMY";
    "https://www.nclonline.com/products/view/SPIT_SHINE_";
    "https://www.nclonline.com/products/view/SPRAY_KLEEN_PLUS_";
    "https://www.nclonline.com/products/view/SPRITZ_";
    "https://www.nclonline.com/products/view/STAMINA_";
    "https://www.nclonline.com/products/view/STONE_BEAUTY_";
    "https://www.nclonline.com/products/view/STONE_KLEEN_";
    "https://www.nclonline.com/products/view/SUN_SPRAY";
    "https://www.nclonline.com/products/view/SUPER_CHERRY";
    "https://www.nclonline.com/products/view/SUPER_NAC_";
    "https://www.nclonline.com/products/view/SUPER_PURGE";
    "https://www.nclonline.com/products/view/SUPER_SONIC_";
    "https://www.nclonline.com/products/view/SURFACE_BARRIER_";
    "https://www.nclonline.com/products/view/SURFACE_PREP_";
    "https://www.nclonline.com/products/view/SURGE_";
    "https://www.nclonline.com/products/view/TANNIN_OUT_";
    "https://www.nclonline.com/products/view/TOTAL_";
    "https://www.nclonline.com/products/view/TRIGGER_";
    "https://www.nclonline.com/products/view/TWISTER_";
    "https://www.nclonline.com/products/view/ULTRAMAX_";
    "https://www.nclonline.com/products/view/UPPER_HAND_";
    "https://www.nclonline.com/products/view/VIGOR_";
    "https://www.nclonline.com/products/view/VISIONS_";
    "https://www.nclonline.com/products/view/VIVID_";
    "https://www.nclonline.com/products/view/WASH_BRITE_";
    "https://www.nclonline.com/products/view/WHITE_PEARL";
    "https://www.nclonline.com/products/view/WITHSTAND_";
    "https://www.nclonline.com/products/view/WORLD_CLASS_";
    "https://www.nclonline.com/products/view/WRANGLER_";
    "https://www.nclonline.com/products/view/ZooooM_";
    "https://www.nclonline.com/products/flyer_alpha.php";
    "https://www.nclonline.com/products/view/Afia_Drip_Tray";
    "https://www.nclonline.com/products/view/Afia_Floor_Dispenser_Stand_White";
    "https://www.nclonline.com/products/view/Afia_Manual_Dispenser";
    "https://www.nclonline.com/products/view/Afia_Touch_Free";
    "https://www.nclonline.com/products/view/CleanSMART_Foam_Dispensing_Unit";
    "https://www.nclonline.com/products/view/CleanSMART_Sink_Dispensing_Unit";
    "https://www.nclonline.com/products/view/DUAL_BLEND_Jr_";
    "https://www.nclonline.com/products/view/DUAL_BLEND_PORTABLE";
    "https://www.nclonline.com/products/view/DUAL_BLEND_PORTABLE_KIT";
    "https://www.nclonline.com/products/view/DUAL_BLEND_WALL";
    "https://www.nclonline.com/products/view/ECONO_DIAMONDS";
    "https://www.nclonline.com/products/view/FOAM_MAGIC";
    "https://www.nclonline.com/products/view/GRANITE_MASTER_";
    "https://www.nclonline.com/products/view/HANDI_RACK_Round_Gallon_";
    "https://www.nclonline.com/products/view/INDUSTRIAL_HAND_SOAP_DISPENSER";
    "https://www.nclonline.com/products/view/LUMINAIRE_";
    "https://www.nclonline.com/products/view/MECHANICS_SELECT_HAND_CARE_PUMP";
    "https://www.nclonline.com/products/view/NAT_SPEED_";
    "https://www.nclonline.com/products/view/NAT_SPLASH_GUARD";
    "https://www.nclonline.com/products/view/NAT_STONE_Pad_Driver";
    "https://www.nclonline.com/products/view/Pak_SMART_Cap";
    "https://www.nclonline.com/products/view/PRO_SERIES_STONE_BLAZER_";
    "https://www.nclonline.com/products/view/Refillable_Foaming_Hand_Cleaner_Dispener_Cartridge";
    "https://www.nclonline.com/products/view/RSC_Foaming_Nozzle";
    "https://www.nclonline.com/products/view/STONE_BLAZER_";
    "https://www.nclonline.com/products/view/UNI_POWER_";
    "https://www.nclonline.com/products/view/WET_CONCRETE_DIAMONDS" ].

(** [main] *)
Definition main (env : Env) : M unit := run env remoteURL.

(** ** Auxiliary definitions used in the statements and proofs *)

Fixpoint all_bytes (p : ascii -> bool) (s : string) : bool :=
  match s with
  | EmptyString => true
  | String c s' => p c && all_bytes p s'
  end.

Fixpoint count_byte (c : ascii) (s : string) : nat :=
  match s with
  | EmptyString => 0
  | String d s' => (if byte_eqb d c then 1 else 0) + count_byte c s'
  end.

Fixpoint drop_bytes (n : nat) (s : string) : string :=
  match n, s with
  | O, _ => s
  | S k, String _ s' => drop_bytes k s'
  | S _, EmptyString => EmptyString
  end.

Fixpoint drop_while (p : ascii -> bool) (s : string) : string :=
  match s with
  | EmptyString => EmptyString
  | String c s' => if p c then drop_while p s' else s
  end.

Definition is_alnum (c : ascii) : bool :=
  byte_between "a" "z" c || byte_between "0" "9" c.

Definition is_underscore (c : ascii) : bool := byte_eqb c "_".

(** The bytes of [a-z0-9_]. *)
Definition is_safe (c : ascii) : bool := is_alnum c || is_underscore c.

Definition head_is (p : ascii -> bool) (s : string) : bool :=
  match s with
  | EmptyString => false
  | String c _ => p c
  end.

Fixpoint last_is (p : ascii -> bool) (s : string) : bool :=
  match s with
  | EmptyString => false
  | String c EmptyString => p c
  | String _ s' => last_is p s'
  end.

(** Every non-alphanumeric byte turned into an underscore. *)
Fixpoint underscore_non_alnum (s : string) : string :=
  match s with
  | EmptyString => EmptyString
  | String c s' => String (if is_alnum c then c else "_"%char) (underscore_non_alnum s')
  end.

(** Every run of underscores shortened to one. *)
Fixpoint collapse (s : string) : string :=
  match s with
  | EmptyString => EmptyString
  | String c s' =>
      if is_underscore c && head_is is_underscore s' then collapse s'
      else String c (collapse s')
  end.

(** No two underscores in a row. *)
Fixpoint no_double_underscore (s : string) : bool :=
  match s with
  | EmptyString => true
  | String c s' =>
      negb (is_underscore c && head_is is_underscore s') && no_double_underscore s'
  end.

(** The value of [safe] in [urlToFilename] when the test of the
    extension is reached. *)
Definition stem (case_table : Z -> Z) (rawURL : string) : string :=
  let lower := Strings.ToLower case_table rawURL in
  let lower := getFilename lower in
  let safe := Regexp.ReplaceAllString reNonAlnum lower "_" in
  let safe := Regexp.ReplaceAllString reUnderscores safe "_" in
  let safe := Strings.Trim safe "_" in
  fold_left removeSubstring invalidSubstrings safe.

(** What [strings.Map] writes for one rune. *)
Definition mapped (mapping : Z -> Z) (r : Z) : string :=
  if (0 <=? mapping r)%Z then Utf8.EncodeRune (mapping r) else "".

(** The shape of a sanitized stem: no two underscores in a row, none at
    either end. *)
Definition tidy (s : string) : bool :=
  no_double_underscore s
  && negb (head_is is_underscore s)
  && negb (last_is is_underscore s).

Definition rm (s : string) : string := removeSubstring s "_pdf".

(** After the words of the specification: the first occurrences of
    [l], under equality of strings, in the order of [l]. The element at
    index [i] is kept when it does not occur among the first [i]
    elements. *)
Definition first_occurrences (l : list string) : list string :=
  mjoin (imap (fun i x => if decide (x ∈ take i l) then [] else [x]) l).

(** The de-duplication of [l] after the elements of [seen]. *)
Fixpoint dedup_from (seen l : list string) : list string :=
  match l with
  | [] => []
  | x :: l' =>
      if decide (x ∈ seen) then dedup_from seen l'
      else x :: dedup_from (seen ++ [x]) l'
  end.

(** The body of the loop of [removeDuplicatesFromSlice]. *)
Definition dedup_step : gmap string bool * list string -> string ->
                        gmap string bool * list string :=
  fun '(check, newReturnSlice) content =>
    if negb (default false (check !! content))
    then (<[content := true]> check, newReturnSlice ++ [content])
    else (check, newReturnSlice).

(** An element that [filepath.Clean] keeps: not empty, not the dot, no
    separator in it. *)
Definition plain_element (e : string) : Prop :=
  e <> "" /\ e <> "." /\ Filepath.has_sep e = false.

(** The elements kept so far by [filepath.Clean], the last one first:
    under a double dot there are double dots only, and none at all in
    a rooted path. *)
Fixpoint kept_stack (rooted : bool) (stack : list string) : Prop :=
  match stack with
  | [] => True
  | e :: stack' =>
      plain_element e
      /\ (e = ".." -> rooted = false /\ Forall (fun d => d = "..") stack')
      /\ kept_stack rooted stack'
  end.

(** The path that [downloadPDF] tests and writes for a URL. *)
Definition target (env : Env) (outputDir finalURL : string) : string :=
  Filepath.Join outputDir (urlToFilename (case_table env) finalURL).

(** [os.Stat] does not fail on the path. *)
Definition stat_works (env : Env) (path : string) : Prop :=
  fault env OpStat path = None.

(** The test of the content type in [downloadPDF]: true when the
    response is refused. *)
Definition refused_content_type (contentType : string) : bool :=
  negb (Strings.Contains contentType "binary/octet-stream")
  && negb (Strings.Contains contentType "application/pdf").

(** The URL that [main] hands to the validity test and to [downloadPDF]
    for an extracted candidate. *)
Definition normalized (env : Env) (urls : string) : string :=
  if hasDomain env urls then urls else baseOrigin +:+ urls.

(** ** Environments for the examples *)

Fixpoint take_until_sep (s : string) : string :=
  match s with
  | EmptyString => EmptyString
  | String c s' => if Filepath.is_sep c then EmptyString else String c (take_until_sep s')
  end.

(** A stand-in for the host that [url.Parse] finds: what follows
    http:// or https:// up to the next separator. *)
Definition example_host (s : string) : option string :=
  if Strings.HasPrefix s "https://" then Some (take_until_sep (drop_bytes 8 s))
  else if Strings.HasPrefix s "http://" then Some (take_until_sep (drop_bytes 7 s))
  else Some "".

Definition example_env (answer : list string -> string -> get_result) : Env :=
  {| case_table := Unicode.example_table;
     url_Parse_Host := example_host;
     url_ParseRequestURI_ok := fun s => Strings.HasPrefix s "/" || Strings.Contains s "://";
     net := answer;
     fault := fun _ _ => None;
     short_write := fun _ _ => None;
     short_read := fun _ => None |}.

(** No server can be reached. *)
Definition offline_env : Env :=
  example_env (fun _ _ => GetErr None "connection refused").

Definition pdf_response (data : string) : response :=
  Response 200 "200 OK" "application/pdf" (Body data None None).

(** A server with one PDF under two directories and an HTML page. *)
Definition online_env : Env :=
  example_env (fun _ url =>
    if bool_decide (url = "https://www.nclonline.com/a/doc.pdf")
       || bool_decide (url = "https://www.nclonline.com/b/doc.pdf")
    then GetOk (pdf_response "%PDF-1.4")
    else if bool_decide (url = "https://www.nclonline.com/empty.pdf")
    then GetOk (pdf_response "")
    else GetOk (Response 200 "200 OK" "text/html" (Body "<html></html>" None None))).

(** An empty working directory, nothing logged or requested yet. *)
Definition empty_world : world := World ∅ [] [].

(** The working directory with the output directory of [main] in it. *)
Definition ready_world : world := World {[ "PDFs" := Dir ]} [] [].

(** The server of [online_env] and a disk on which the calls of
    [failing] fail for every path. *)
Definition failing_env (failing : sysop -> option string) : Env :=
  {| case_table := Unicode.example_table;
     url_Parse_Host := example_host;
     url_ParseRequestURI_ok := url_ParseRequestURI_ok online_env;
     net := net online_env;
     fault := fun op _ => failing op;
     short_write := fun _ _ => None;
     short_read := fun _ => None |}.

(** The output directory cannot be searched: nothing in it can be
    examined or created. *)
Definition no_access_env : Env :=
  failing_env (fun op =>
    match op with
    | OpStat | OpCreate => Some "permission denied"
    | _ => None
    end).

(** [os.Stat] fails, every other call works. *)
Definition blind_env : Env :=
  failing_env (fun op =>
    match op with
    | OpStat => Some "input/output error"
    | _ => None
    end).

(** The output directory with one document in it. *)
Definition stocked_world (content : string) : world :=
  World {[ "PDFs" := Dir; "PDFs/doc.pdf" := File content ]} [] [].

(** ** The occurrences that [extractPDFUrls] looks for *)

(** [t] starts with href=, a double quote, [v] and a double quote, and
    [v] holds no double quote. *)
Definition href_value (t v : string) : Prop :=
  count_byte dquote v = 0
  /\ exists rest, t = "href=" +:+ String dquote (v +:+ String dquote rest).

(** The text of an href attribute with the value [v]. *)
Definition href_attr (v : string) : string :=
  "href=" +:+ String dquote (v +:+ String dquote "").

(** After the words of the specification: [v] ends in .pdf *)
Definition ends_in_pdf (v : string) : Prop := exists w, v = w +:+ ".pdf".

(** What the pattern asks for: [v] is at least one byte followed by
    .pdf *)
Definition names_pdf (v : string) : Prop := exists w, w <> "" /\ v = w +:+ ".pdf".

(** After the words of the specification: [occurrences accepted s l]
    says that [l] lists, in the order of their positions in [s], the
    values of the href attributes of [s] that are [accepted]. Every
    position of [s] is examined. *)
Inductive occurrences (accepted : string -> Prop) : string -> list string -> Prop :=
| occurrences_nil : occurrences accepted "" []
| occurrences_hit c t v l :
    href_value (String c t) v -> accepted v ->
    occurrences accepted t l -> occurrences accepted (String c t) (v :: l)
| occurrences_miss c t l :
    (forall v, href_value (String c t) v -> ~ accepted v) ->
    occurrences accepted t l -> occurrences accepted (String c t) l.

(** The text of the capture group of every match of the pattern. *)
Definition found (s : string) : list string :=
  map (fun m => default "" (m !! 1)) (Regexp.find_all regexPattern s 0).

Definition not_quote (c : ascii) : bool := negb (byte_eqb c dquote).

(** Where the pattern stands once its greedy run has ended at [s']:
    .pdf and the closing double quote are still to be matched. [t] is
    the input of the match and [u] what follows its opening quote. *)
Definition after_run (t u s' : string) : option (nat * option string) :=
  if Strings.HasPrefix s' ".pdf" then
    match drop_bytes 4 s' with
    | String c s2 =>
        if byte_eqb c dquote
        then Some (String.length t - String.length s2,
                   Some (Regexp.consumed u (drop_bytes 4 s')))
        else None
    | EmptyString => None
    end
  else None.

(** The first request is answered with a page, every later one times
    out. *)
Definition flaky_env : Env :=
  example_env (fun earlier _ =>
    match earlier with
    | [] => GetOk (Response 200 "200 OK" "text/html" (Body "<html></html>" None None))
    | _ => GetErr None "timeout"
    end).

(** ** Definitions for the further properties *)

(** The world in which a run ends, returned or panicked. *)
Definition final_world {A} (o : outcome A) : world :=
  match o with
  | Done _ w => w
  | Panic w => w
  end.

(** [m] changes the file system at the paths of [allowed] only, makes
    no difference whether it returns or panics. *)
Definition touches_only {A} (allowed : string -> Prop) (m : M A) : Prop :=
  forall w p, ~ allowed p -> fs (final_world (m w)) !! p = fs w !! p.

(** No request is answered with an error and a nil response. *)
Definition no_nil_response (env : Env) : Prop :=
  forall earlier url err, net env earlier url <> GetErr None err.

(** The candidates that pass the validity test of the download loop. *)
Definition valid_candidate (env : Env) (urls : string) : bool :=
  isUrlValid env (normalized env urls).

(** The paths that a run may create, change or remove. *)
Definition run_path (env : Env) (p : string) : Prop :=
  p = "PDFs" \/ p = "nclonline.html"
  \/ exists finalURL, p = "PDFs/" +:+ urlToFilename (case_table env) finalURL.

(** The fetch loop of [main]. *)
Definition fetch_pages (env : Env) (localFile : string) (remoteURL : list string) : M unit :=
  for_range remoteURL
    (fun url =>
       pageContent <- getDataFromURL env url ;;
       appendAndWriteToFile env localFile pageContent).

(** What the file at [path] holds; nothing when there is no file. *)
Definition old_content (w : world) (path : string) : string :=
  match fs w !! Filepath.Clean path with
  | Some (File c) => c
  | _ => ""
  end.

(** The path can be opened for appending: it names a regular file, or
    nothing yet in a directory that is there. *)
Definition appendable (files : gmap string node) (path : string) : Prop :=
  path <> ""
  /\ match node_at files (Filepath.Clean path) with
     | Some (File _) => True
     | None => dir_at files (Filepath.Dir (Filepath.Clean path)) = true
     | _ => False
     end.

(** [os.Mkdir] has what it needs: the path is free and its directory
    is there. *)
Definition creatable (files : gmap string node) (path : string) : Prop :=
  path <> ""
  /\ node_at files (Filepath.Clean path) = None
  /\ dir_at files (Filepath.Dir (Filepath.Clean path)) = true.

(** [os.Remove] has what it needs: the path names a node, other than
    the working directory and the root. *)
Definition removable (files : gmap string node) (path : string) : Prop :=
  path <> ""
  /\ always_there (Filepath.Clean path) = false
  /\ is_Some (files !! Filepath.Clean path).

(** The body that [getDataFromURL] reads out of the result of a
    request. *)
Definition body_of (r : get_result) : string :=
  match r with
  | GetOk resp | GetErr (Some resp) _ => body_data (resp_Body resp)
  | GetErr None _ => ""
  end.

(** The bodies of the pages of [remoteURL], each followed by a line
    feed, as the servers answer after the requests [earlier]. *)
Fixpoint page_bodies (env : Env) (earlier : list string) (remoteURL : list string) : string :=
  match remoteURL with
  | [] => ""
  | url :: rest =>
      body_of (net env earlier url) +:+ newline
      +:+ page_bodies env (earlier ++ [url]) rest
  end.

(** The server of [online_env], and a disk that takes four bytes of
    every write. *)
Definition full_disk_env : Env :=
  {| case_table := Unicode.example_table;
     url_Parse_Host := example_host;
     url_ParseRequestURI_ok := url_ParseRequestURI_ok online_env;
     net := net online_env;
     fault := fun _ _ => None;
     short_write := fun _ _ => Some (4, "no space left on device");
     short_read := fun _ => None |}.

(** A server that names a character set after the media type. *)
Definition charset_env : Env :=
  example_env (fun _ _ =>
    GetOk (Response 200 "200 OK" "application/pdf; charset=binary"
             (Body "%PDF-1.7" None None))).

(** The URLs that the download loop hands to [downloadPDF] for the
    candidates [l], in order. *)
Definition download_targets (env : Env) (l : list string) : list string :=
  normalized env <$> filter (fun urls => valid_candidate env urls = true) l.

(** [fileExists] finds the path: [os.Stat] does not fail on it and it
    names something other than a directory. *)
Definition present (env : Env) (files : gmap string node) (path : string) : Prop :=
  stat_works env path /\ exists n, files !! path = Some n /\ IsDir n = false.

(** No write to the file at the path stops short. *)
Definition writes_whole (env : Env) (path : string) : Prop :=
  forall data, short_write env (Filepath.Clean path) data = None.

(** [m] returns, and has made no request. *)
Definition quiet {A} (m : M A) : Prop :=
  forall w, exists a w', m w = Done a w' /\ requests w' = requests w.

(** A site with one product page that links the same document under
    two directories. *)
Definition site_env : Env :=
  example_env (fun _ url =>
    if bool_decide (url = "https://www.nclonline.com/products/sds_alpha")
    then GetOk (Response 200 "200 OK" "text/html"
                  (Body ("<a " +:+ href_attr "/a/doc.pdf" +:+ "><a "
                         +:+ href_attr "/b/doc.pdf" +:+ ">") None None))
    else GetOk (pdf_response "%PDF-1.4")).

Fixpoint any_byte (p : ascii -> bool) (s : string) : bool :=
  match s with
  | EmptyString => false
  | String c s' => p c || any_byte p s'
  end.

(** A letter or a digit of ASCII, in either case. *)
Definition is_letter_or_digit (c : ascii) : bool := is_alnum (Strings.lower_byte c).

(** * Lemmas and theorems *)

#[local] Arguments String.append !_ _ / : simpl nomatch.
#[local] Arguments byte_eqb : simpl never.
#[local] Arguments byte_between : simpl never.
#[local] Arguments is_alnum : simpl never.
#[local] Arguments is_underscore : simpl never.


(** ** Strings *)


Lemma str_app_cons c (s t : string) : String c s +:+ t = String c (s +:+ t).
Proof. reflexivity. Qed.

Lemma str_app_nil_r (s : string) : s +:+ "" = s.
Proof. induction s as [|c s IH]; [done|]. by rewrite str_app_cons, IH. Qed.

Lemma str_app_assoc (s t u : string) : (s +:+ t) +:+ u = s +:+ t +:+ u.
Proof. induction s as [|c s IH]; [done|]. by rewrite !str_app_cons, IH. Qed.

Lemma str_app_length (s t : string) :
  String.length (s +:+ t) = String.length s + String.length t.
Proof. induction s as [|c s IH]; [done|]. rewrite str_app_cons. simpl. by rewrite IH. Qed.

Lemma byte_eqb_eq (a b : ascii) : byte_eqb a b = true <-> a = b.
Proof. apply Ascii.eqb_eq. Qed.

Lemma byte_eqb_neq (a b : ascii) : byte_eqb a b = false <-> a <> b.
Proof. apply Ascii.eqb_neq. Qed.

Lemma drop_bytes_length n s :
  String.length (drop_bytes n s) = String.length s - n.
Proof.
  revert s. induction n as [|n IH]; intros [|c s]; simpl; try done; try lia.
Qed.

Lemma drop_while_length p s : String.length (drop_while p s) <= String.length s.
Proof. induction s as [|c s IH]; simpl; [lia|]. destruct (p c); simpl; lia. Qed.

Lemma drop_bytes_app (s t : string) : drop_bytes (String.length s) (s +:+ t) = t.
Proof. induction s as [|c s IH]; [by destruct t|]. by rewrite str_app_cons. Qed.

(** ** The library functions on the examples of their documentation *)

Example Base_examples :
  map Filepath.Base
    ["/foo/bar/baz.js"; "/foo/bar/baz"; "/foo/bar/baz/"; "dev.txt"; "../todo.txt";
     ".."; "."; "/"; ""]
  = ["baz.js"; "baz"; "baz"; "dev.txt"; "todo.txt"; ".."; "."; "/"; "."].
Proof. reflexivity. Qed.

Example Ext_examples :
  map Filepath.Ext ["index"; "index.js"; "main.test.js"; "a.b/c"; "some_file"]
  = [""; ".js"; ".js"; ""; ""].
Proof. reflexivity. Qed.

Example Join_examples :
  (Filepath.Join "PDFs/" "doc.pdf", Filepath.Join "a/b" "../../../xyz",
   Filepath.Join "" "doc.pdf", Filepath.Join "a//" "c")
  = ("PDFs/doc.pdf", "../xyz", "doc.pdf", "a/c").
Proof. reflexivity. Qed.

Example Trim_example : Strings.Trim "__some_pdf_file_pdf_" "_" = "some_pdf_file_pdf".
Proof. reflexivity. Qed.

Example ReplaceAll_example : Strings.ReplaceAll "oink oink oink" "oink" "moo" = "moo moo moo".
Proof. reflexivity. Qed.

Example ReplaceAllString_example :
  Regexp.ReplaceAllString reUnderscores "a__b___c_" "_" = "a_b_c_".
Proof. reflexivity. Qed.

Example urlToFilename_example :
  urlToFilename Unicode.example_table "/products/view/SOME_PDF_File.PDF" = "some_file.pdf".
Proof. reflexivity. Qed.

(** ** The scan for matches *)

Section Scan.
Variable match_at : string -> option nat.
Variable new : string.

Lemma scan_skip n s :
  Strings.scan_replace match_at new s n =
  Strings.scan_replace match_at new (drop_bytes n s) 0.
Proof.
  revert n. induction s as [|c s IH]; intros [|n]; simpl; try done.
Qed.

Lemma scan_nil : Strings.scan_replace match_at new "" 0 = "".
Proof. reflexivity. Qed.

Lemma scan_hit c s n :
  match_at (String c s) = Some (S n) ->
  Strings.scan_replace match_at new (String c s) 0 =
  new +:+ Strings.scan_replace match_at new (drop_bytes (S n) (String c s)) 0.
Proof. intros H. simpl. rewrite H. by rewrite scan_skip. Qed.

Lemma scan_miss c s :
  match_at (String c s) = None ->
  Strings.scan_replace match_at new (String c s) 0 =
  String c (Strings.scan_replace match_at new s 0).
Proof. intros H. simpl. by rewrite H. Qed.
End Scan.

(** ** The two patterns of the sanitizer *)

Lemma cs_mem_non_alnum c :
  Regexp.cs_mem (Regexp.CsClass true [("a", "z"); ("0", "9")]%char) c = negb (is_alnum c).
Proof. unfold is_alnum. simpl. by rewrite orb_false_r. Qed.

Lemma ReplaceAllString_reNonAlnum s :
  Regexp.ReplaceAllString reNonAlnum s "_" = underscore_non_alnum s.
Proof.
  unfold Regexp.ReplaceAllString.
  induction s as [|c s IH]; [done|].
  assert (Regexp.match_len reNonAlnum (String c s) =
          if is_alnum c then None else Some 1) as Hm.
  { unfold Regexp.match_len, Regexp.exec, reNonAlnum.
    cbn [Regexp.backtrack]. rewrite cs_mem_non_alnum.
    destruct (is_alnum c); simpl; [done|].
    by replace (S (String.length s) - String.length s) with 1 by lia. }
  simpl. rewrite Hm. destruct (is_alnum c); by rewrite IH.
Qed.

Lemma plus_loop_total {R} (p : ascii -> bool) (k : string -> option R) s :
  (forall t, k t <> None) ->
  Regexp.plus_loop p s k =
  match s with
  | String c s' => if p c then k (drop_while p s') else None
  | EmptyString => None
  end.
Proof.
  intros Hk. induction s as [|c s IH]; [done|].
  simpl. destruct (p c); [|done].
  rewrite IH. destruct s as [|d s]; simpl.
  - done.
  - destruct (p d); [|done].
    destruct (k (drop_while p s)) eqn:E; [done|]. by apply Hk in E.
Qed.

Lemma match_len_reUnderscores s :
  Regexp.match_len reUnderscores s =
  match s with
  | String c s' =>
      if is_underscore c
      then Some (S (String.length s' - String.length (drop_while is_underscore s')))
      else None
  | EmptyString => None
  end.
Proof.
  unfold Regexp.match_len, Regexp.exec, reUnderscores. cbn [Regexp.backtrack].
  rewrite plus_loop_total by done.
  destruct s as [|c s]; [done|]. simpl Regexp.cs_mem. fold (is_underscore c).
  destruct (is_underscore c); [|done]. simpl.
  pose proof (drop_while_length is_underscore s).
  change (Regexp.cs_mem (Regexp.CsByte "_")) with is_underscore.
  f_equal. lia.
Qed.

Lemma drop_bytes_drop_while p s :
  drop_bytes (String.length s - String.length (drop_while p s)) s = drop_while p s.
Proof.
  induction s as [|c s IH]; [done|]. simpl. destruct (p c).
  - pose proof (drop_while_length p s).
    replace (S (String.length s) - String.length (drop_while p s))
      with (S (String.length s - String.length (drop_while p s))) by lia.
    simpl. apply IH.
  - simpl. by rewrite Nat.sub_diag.
Qed.

Lemma is_underscore_eq c : is_underscore c = true <-> c = "_"%char.
Proof. apply byte_eqb_eq. Qed.

Lemma collapse_underscore s :
  collapse (String "_" s) = String "_" (collapse (drop_while is_underscore s)).
Proof.
  induction s as [|d s IH]; [done|].
  destruct (is_underscore d) eqn:Hd.
  - apply is_underscore_eq in Hd as ->.
    change (collapse (String "_" (String "_" s))) with (collapse (String "_" s)).
    by rewrite IH.
  - change (collapse (String "_" (String d s)))
      with (if is_underscore "_" && is_underscore d
            then collapse (String d s) else String "_" (collapse (String d s))).
    simpl drop_while. by rewrite Hd.
Qed.

Lemma ReplaceAllString_reUnderscores s :
  Regexp.ReplaceAllString reUnderscores s "_" = collapse s.
Proof.
  unfold Regexp.ReplaceAllString.
  remember (String.length s) as n eqn:Hn.
  revert s Hn. induction (lt_wf n) as [n _ IH]. intros s ->.
  destruct s as [|c s]; [done|].
  destruct (is_underscore c) eqn:Hc.
  - rewrite (scan_hit _ _ _ _ (String.length s - String.length (drop_while is_underscore s))).
    2:{ by rewrite match_len_reUnderscores, Hc. }
    apply is_underscore_eq in Hc as ->.
    rewrite collapse_underscore.
    change (drop_bytes (S ?n) (String ?c ?s)) with (drop_bytes n s).
    rewrite drop_bytes_drop_while.
    pose proof (drop_while_length is_underscore s).
    rewrite <- (IH (String.length (drop_while is_underscore s))); simpl; [done|lia|done].
  - rewrite scan_miss by (by rewrite match_len_reUnderscores, Hc).
    simpl. rewrite Hc. simpl. f_equal. apply (IH (String.length s)); simpl; [lia|done].
Qed.

(** ** Prefixes and [removeSubstring] *)

Lemma byte_eqb_sym a b : byte_eqb a b = byte_eqb b a.
Proof. apply Ascii.eqb_sym. Qed.

Lemma byte_eqb_refl c : byte_eqb c c = true.
Proof. by apply byte_eqb_eq. Qed.

Lemma HasPrefix_app p u : Strings.HasPrefix (p +:+ u) p = true.
Proof.
  induction p as [|c p IH]; [by destruct u|].
  rewrite str_app_cons. simpl. by rewrite byte_eqb_refl, IH.
Qed.

Lemma HasPrefix_inv p t :
  Strings.HasPrefix t p = true -> t = p +:+ drop_bytes (String.length p) t.
Proof.
  revert t. induction p as [|c p IH]; intros t H; [done|].
  destruct t as [|d t]; [done|]. simpl in H.
  apply andb_prop in H as [Hc H]. apply byte_eqb_eq in Hc as ->.
  rewrite str_app_cons. simpl. f_equal. by apply IH.
Qed.

Lemma rm_nil : rm "" = "".
Proof. reflexivity. Qed.

Lemma rm_hit t : rm ("_pdf" +:+ t) = rm t.
Proof.
  unfold rm, removeSubstring, Strings.ReplaceAll.
  change ("_pdf" +:+ t) with (String "_" ("pdf" +:+ t)).
  rewrite (scan_hit _ _ _ _ 3).
  - reflexivity.
  - unfold Strings.literal_at.
    change (String "_" ("pdf" +:+ t)) with ("_pdf" +:+ t).
    by rewrite HasPrefix_app.
Qed.

Lemma rm_miss c t :
  Strings.HasPrefix (String c t) "_pdf" = false -> rm (String c t) = String c (rm t).
Proof.
  intros H. unfold rm, removeSubstring, Strings.ReplaceAll.
  rewrite scan_miss; [done|]. unfold Strings.literal_at. by rewrite H.
Qed.

(** The induction principle of the scan that removes "_pdf". *)
Lemma rm_ind (P : string -> string -> Prop) :
  P "" "" ->
  (forall t, P t (rm t) -> P ("_pdf" +:+ t) (rm t)) ->
  (forall c t, Strings.HasPrefix (String c t) "_pdf" = false ->
               P t (rm t) -> P (String c t) (String c (rm t))) ->
  forall s, P s (rm s).
Proof.
  intros Hnil Hhit Hmiss s.
  remember (String.length s) as n eqn:Hn.
  revert s Hn. induction (lt_wf n) as [n _ IH]. intros s ->.
  destruct s as [|c s]; [done|].
  destruct (Strings.HasPrefix (String c s) "_pdf") eqn:Hp.
  - apply HasPrefix_inv in Hp. rewrite Hp, rm_hit. apply Hhit.
    apply (IH (String.length (drop_bytes 4 (String c s)))); [|done].
    rewrite drop_bytes_length. simpl. lia.
  - rewrite rm_miss by done. apply Hmiss; [done|].
    apply (IH (String.length s)); simpl; [lia|done].
Qed.

Lemma all_bytes_app p s t :
  all_bytes p (s +:+ t) = all_bytes p s && all_bytes p t.
Proof.
  induction s as [|c s IH]; [done|]. rewrite str_app_cons. simpl.
  by rewrite IH, andb_assoc.
Qed.

Lemma rm_all_bytes p s : all_bytes p s = true -> all_bytes p (rm s) = true.
Proof.
  apply (rm_ind (fun s r => all_bytes p s = true -> all_bytes p r = true)).
  - done.
  - intros t IH H. rewrite all_bytes_app in H. apply andb_prop in H as [_ H]. auto.
  - intros c t _ IH H. simpl in *. apply andb_prop in H as [-> H]. auto.
Qed.

Lemma rm_length s : String.length (rm s) <= String.length s.
Proof.
  apply (rm_ind (fun s r => String.length r <= String.length s)).
  - done.
  - intros t IH. rewrite str_app_length. simpl. lia.
  - intros c t _ IH. simpl. lia.
Qed.

Lemma Contains_cons c s sub :
  Strings.Contains (String c s) sub =
  Strings.HasPrefix (String c s) sub || Strings.Contains s sub.
Proof. reflexivity. Qed.

Lemma rm_fixed_iff s : rm s = s <-> Strings.Contains s "_pdf" = false.
Proof.
  apply (rm_ind (fun s r => r = s <-> Strings.Contains s "_pdf" = false)).
  - done.
  - intros t _. split.
    + intros E. pose proof (rm_length t) as Hl. rewrite E, str_app_length in Hl.
      simpl in Hl. lia.
    + change ("_pdf" +:+ t) with (String "_" ("pdf" +:+ t)).
      rewrite Contains_cons.
      change (String "_" ("pdf" +:+ t)) with ("_pdf" +:+ t).
      by rewrite HasPrefix_app.
  - intros c t Hp IH. rewrite Contains_cons, Hp. simpl. rewrite <- IH.
    split; [by intros [=]|by intros ->].
Qed.

(** A match of "_pdf" cannot start in [g] and end in a "_pdf" that
    follows it. *)
Lemma HasPrefix_app_pdf c g :
  Strings.HasPrefix (String c g +:+ "_pdf") "_pdf" = Strings.HasPrefix (String c g) "_pdf".
Proof.
  rewrite str_app_cons. simpl.
  destruct (byte_eqb "_" c); [|done].
  destruct g as [|c1 g]; simpl; [done|].
  destruct (byte_eqb "p" c1); [|done].
  destruct g as [|c2 g]; simpl; [done|].
  destruct (byte_eqb "d" c2); [|done].
  destruct g as [|c3 g]; simpl; [done|].
  destruct (byte_eqb "f" c3); [|done]. by destruct g.
Qed.

Lemma rm_app_pdf g : rm (g +:+ "_pdf") = rm g.
Proof.
  apply (rm_ind (fun g r => rm (g +:+ "_pdf") = r)).
  - apply (rm_hit "").
  - intros t IH. by rewrite str_app_assoc, rm_hit.
  - intros c t Hp IH. rewrite str_app_cons, rm_miss; [by rewrite IH|].
    rewrite <- str_app_cons. by rewrite HasPrefix_app_pdf.
Qed.

(** ** Shapes kept by the steps of the sanitizer *)

Lemma last_is_cons p c s :
  last_is p (String c s) = match s with EmptyString => p c | _ => last_is p s end.
Proof. by destruct s. Qed.

Lemma is_safe_fixed c : is_safe c = true -> (if is_alnum c then c else "_"%char) = c.
Proof.
  unfold is_safe. destruct (is_alnum c); [done|]. simpl.
  by intros ->%is_underscore_eq.
Qed.

Lemma underscore_non_alnum_safe s : all_bytes is_safe (underscore_non_alnum s) = true.
Proof.
  induction s as [|c s IH]; [done|]. simpl. rewrite IH, andb_true_r.
  unfold is_safe. by destruct (is_alnum c) eqn:E; [rewrite E|].
Qed.

Lemma underscore_non_alnum_app s t :
  underscore_non_alnum (s +:+ t) = underscore_non_alnum s +:+ underscore_non_alnum t.
Proof. induction s as [|c s IH]; [done|]. simpl. by rewrite IH. Qed.

Lemma underscore_non_alnum_fixed s :
  all_bytes is_safe s = true -> underscore_non_alnum s = s.
Proof.
  induction s as [|c s IH]; [done|]. simpl. intros [Hc Hs]%andb_prop.
  by rewrite is_safe_fixed, IH.
Qed.

Lemma collapse_all_bytes p s : all_bytes p s = true -> all_bytes p (collapse s) = true.
Proof.
  induction s as [|c s IH]; [done|]. simpl. intros [Hc Hs]%andb_prop.
  destruct (is_underscore c && head_is is_underscore s); simpl; [auto|].
  by rewrite Hc, IH.
Qed.

Lemma collapse_head s :
  head_is is_underscore (collapse s) = head_is is_underscore s.
Proof.
  induction s as [|c s IH]; [done|]. simpl.
  destruct (is_underscore c) eqn:Hc; simpl; [|done].
  destruct (head_is is_underscore s) eqn:Hs; simpl; [by rewrite IH|done].
Qed.

Lemma collapse_no_double s : no_double_underscore (collapse s) = true.
Proof.
  induction s as [|c s IH]; [done|]. simpl.
  destruct (is_underscore c && head_is is_underscore s) eqn:E; [done|].
  simpl. by rewrite collapse_head, E, IH.
Qed.

Lemma collapse_fixed s : no_double_underscore s = true -> collapse s = s.
Proof.
  induction s as [|c s IH]; [done|]. simpl. intros [Hc Hs]%andb_prop.
  apply negb_true_iff in Hc. by rewrite Hc, IH.
Qed.

Lemma TrimLeft_underscore s : Strings.TrimLeft s "_" = drop_while is_underscore s.
Proof.
  induction s as [|c s IH]; [done|]. simpl. rewrite orb_false_r.
  fold (is_underscore c). by rewrite IH.
Qed.

Lemma drop_while_all_bytes p q s :
  all_bytes p s = true -> all_bytes p (drop_while q s) = true.
Proof.
  induction s as [|c s IH]; [done|]. simpl. intros [Hc Hs]%andb_prop.
  destruct (q c); simpl; [auto|]. by rewrite Hc, Hs.
Qed.

Lemma drop_while_no_double q s :
  no_double_underscore s = true -> no_double_underscore (drop_while q s) = true.
Proof.
  induction s as [|c s IH]; [done|]. simpl. intros H.
  destruct (q c); simpl; [|done]. apply andb_prop in H as [_ H]. auto.
Qed.

Lemma drop_while_head p s : head_is p (drop_while p s) = false.
Proof.
  induction s as [|c s IH]; [done|]. simpl. by destruct (p c) eqn:E; simpl.
Qed.

Lemma drop_while_fixed p s : head_is p s = false -> drop_while p s = s.
Proof. destruct s as [|c s]; [done|]. simpl. by intros ->. Qed.

Lemma TrimRight_cons c s cutset :
  Strings.TrimRight (String c s) cutset =
  match Strings.TrimRight s cutset with
  | EmptyString => if Strings.mem_byte c cutset then "" else String c ""
  | t => String c t
  end.
Proof. reflexivity. Qed.

Lemma mem_byte_underscore c : Strings.mem_byte c "_" = is_underscore c.
Proof. simpl. by rewrite orb_false_r. Qed.

Lemma TrimRight_head p s cutset :
  head_is p (Strings.TrimRight s cutset) = true -> head_is p s = true.
Proof.
  destruct s as [|c s]; [done|]. rewrite TrimRight_cons.
  destruct (Strings.TrimRight s cutset); [|done].
  by destruct (Strings.mem_byte c cutset).
Qed.

Lemma TrimRight_all_bytes p s cutset :
  all_bytes p s = true -> all_bytes p (Strings.TrimRight s cutset) = true.
Proof.
  induction s as [|c s IH]; [done|]. rewrite TrimRight_cons. simpl.
  intros [Hc Hs]%andb_prop. specialize (IH Hs).
  destruct (Strings.TrimRight s cutset).
  - destruct (Strings.mem_byte c cutset); simpl; [done|]. by rewrite Hc.
  - simpl in *. by rewrite Hc, IH.
Qed.

Lemma TrimRight_no_double s cutset :
  no_double_underscore s = true ->
  no_double_underscore (Strings.TrimRight s cutset) = true.
Proof.
  induction s as [|c s IH]; [done|]. rewrite TrimRight_cons. simpl.
  intros [Hc Hs]%andb_prop. specialize (IH Hs).
  pose proof (TrimRight_head is_underscore s cutset) as Hh.
  destruct (Strings.TrimRight s cutset) as [|d t].
  - destruct (Strings.mem_byte c cutset); simpl; [done|]. by rewrite andb_false_r.
  - change (no_double_underscore (String c (String d t)))
      with (negb (is_underscore c && is_underscore d) && no_double_underscore (String d t)).
    rewrite IH, andb_true_r.
    destruct (is_underscore c) eqn:Ec; [|done]. simpl in *.
    destruct (is_underscore d); [|done]. by rewrite Hh in Hc.
Qed.

Lemma TrimRight_last s :
  last_is is_underscore (Strings.TrimRight s "_") = false.
Proof.
  induction s as [|c s IH]; [done|]. rewrite TrimRight_cons.
  destruct (Strings.TrimRight s "_") as [|d t].
  - rewrite mem_byte_underscore. by destruct (is_underscore c) eqn:E; simpl.
  - by rewrite last_is_cons.
Qed.

Lemma TrimRight_fixed s :
  last_is is_underscore s = false -> Strings.TrimRight s "_" = s.
Proof.
  induction s as [|c s IH]; [done|]. rewrite TrimRight_cons, last_is_cons.
  destruct s as [|d s].
  - simpl. rewrite orb_false_r. fold (is_underscore c). by intros ->.
  - intros H. by rewrite (IH H).
Qed.

Lemma rm_shape s :
  no_double_underscore s = true -> last_is is_underscore s = false ->
  no_double_underscore (rm s) = true
  /\ last_is is_underscore (rm s) = false
  /\ (head_is is_underscore (rm s) = true -> head_is is_underscore s = true)
  /\ (rm s = "" -> s = "" \/ head_is is_underscore s = true).
Proof.
  apply (rm_ind (fun s r =>
    no_double_underscore s = true -> last_is is_underscore s = false ->
    no_double_underscore r = true
    /\ last_is is_underscore r = false
    /\ (head_is is_underscore r = true -> head_is is_underscore s = true)
    /\ (r = "" -> s = "" \/ head_is is_underscore s = true))).
  - auto.
  - intros t IH Hd Hl.
    assert (no_double_underscore t = true) as Hd'.
    { simpl in Hd. by repeat (apply andb_prop in Hd as [_ Hd]). }
    assert (last_is is_underscore t = false) as Hl'.
    { destruct t; [done|]. exact Hl. }
    destruct (IH Hd' Hl') as (? & ? & ? & ?). auto.
  - intros c t _ IH Hd Hl. simpl in Hd. apply andb_prop in Hd as [Hc Hd].
    apply negb_true_iff in Hc. rewrite last_is_cons in Hl.
    destruct t as [|d t].
    { rewrite rm_nil. simpl. rewrite Hl. rewrite andb_false_r. auto. }
    destruct (IH Hd Hl) as (Hd' & Hl' & Hh & He).
    split; [|split; [|split]].
    + simpl. rewrite Hd', andb_true_r.
      destruct (is_underscore c) eqn:Ec; [|done]. simpl in *.
      destruct (head_is is_underscore (rm (String d t))) eqn:E; [|done].
      by rewrite Hh in Hc.
    + rewrite last_is_cons.
      destruct (rm (String d t)) eqn:E; [|done].
      destruct (He eq_refl) as [?|Hu]; [done|].
      simpl in Hu, Hc. rewrite Hu, andb_true_r in Hc. done.
    + done.
    + done.
Qed.

Section Stem.
Variable tbl : Z -> Z.

(** The stem is made of [a-z0-9_] and is tidy. *)
Lemma stem_unfold x :
stem tbl x =
rm (Strings.TrimRight
      (drop_while is_underscore
         (collapse (underscore_non_alnum (getFilename (Strings.ToLower tbl x))))) "_").
Proof.
unfold stem, Strings.Trim.
by rewrite ReplaceAllString_reNonAlnum, ReplaceAllString_reUnderscores,
  TrimLeft_underscore.
Qed.

Lemma stem_safe x : all_bytes is_safe (stem tbl x) = true.
Proof.
rewrite stem_unfold.
apply rm_all_bytes, TrimRight_all_bytes, drop_while_all_bytes, collapse_all_bytes,
  underscore_non_alnum_safe.
Qed.

Lemma stem_tidy x : tidy (stem tbl x) = true.
Proof.
rewrite stem_unfold.
set (t := Strings.TrimRight _ _).
assert (no_double_underscore t = true) as Hd
  by apply TrimRight_no_double, drop_while_no_double, collapse_no_double.
assert (last_is is_underscore t = false) as Hl by apply TrimRight_last.
assert (head_is is_underscore t = false) as Hh.
{ destruct (head_is is_underscore t) eqn:E; [|done].
  apply TrimRight_head in E. by rewrite drop_while_head in E. }
destruct (rm_shape t Hd Hl) as (Hd' & Hl' & Hh' & _).
unfold tidy. rewrite Hd', Hl'. simpl.
destruct (head_is is_underscore (rm t)); [|done]. by rewrite Hh' in Hh.
Qed.

(** ** The extension test and the result of [urlToFilename] *)

Lemma is_safe_not_dot c : is_safe c = true -> byte_eqb c "." = false.
Proof.
intros H. apply byte_eqb_neq. intros ->. by vm_compute in H.
Qed.

Lemma Ext_no_dot s : count_byte "." s = 0 -> Filepath.Ext s = "".
Proof.
induction s as [|c s IH]; [done|]. simpl.
destruct (byte_eqb c "."); [done|]. simpl. intros H. by rewrite IH.
Qed.

Lemma safe_no_dot s : all_bytes is_safe s = true -> count_byte "." s = 0.
Proof.
induction s as [|c s IH]; [done|]. simpl. intros [Hc Hs]%andb_prop.
by rewrite is_safe_not_dot, IH.
Qed.

Lemma count_byte_app c s t : count_byte c (s +:+ t) = count_byte c s + count_byte c t.
Proof. induction s as [|d s IH]; [done|]. simpl. rewrite IH. lia. Qed.

Lemma stem_ext x : getFileExtension (stem tbl x) = "".
Proof. apply Ext_no_dot, safe_no_dot, stem_safe. Qed.

Lemma urlToFilename_stem x : urlToFilename tbl x = stem tbl x +:+ ".pdf".
Proof.
unfold urlToFilename. fold (stem tbl x). rewrite stem_ext. by case_decide.
Qed.

End Stem.

(** ** Runes: a byte of ASCII is a rune of its own *)

Lemma rune_of_byte_range c : (0 <= Utf8.rune_of_byte c < 256)%Z.
Proof.
  unfold Utf8.rune_of_byte. pose proof (N_ascii_bounded c). lia.
Qed.

Lemma rune_of_byte_of z : (0 <= z < 256)%Z -> Utf8.rune_of_byte (Utf8.byte_of z) = z.
Proof.
  intros H. unfold Utf8.rune_of_byte, Utf8.byte_of.
  rewrite N_ascii_embedding by lia. lia.
Qed.

Lemma first_lead b size lo hi :
  Utf8.first b = Utf8.Lead size lo hi ->
  (128 <= lo)%Z /\ (hi <= 191)%Z /\ (194 <= b)%Z.
Proof.
  unfold Utf8.first.
  repeat (match goal with |- context [if ?c then _ else _] => destruct c eqn:? end);
    intros [= <- <- <-] || intros [=]; lia.
Qed.

Lemma first_single b : Utf8.first b = Utf8.Single <-> (b < 128)%Z.
Proof.
  unfold Utf8.first.
  repeat (match goal with |- context [if ?c then _ else _] => destruct c eqn:? end);
    split; (done || lia).
Qed.

Lemma within_ascii lo hi c :
  (128 <= lo)%Z -> (Utf8.rune_of_byte c < 128)%Z -> Utf8.within lo hi c = false.
Proof. intros Hlo Hc. unfold Utf8.within. apply andb_false_iff. left. lia. Qed.

Lemma continuation_ascii c :
  (Utf8.rune_of_byte c < 128)%Z -> Utf8.continuation c = false.
Proof. intros Hc. by apply within_ascii. Qed.

Lemma Decode_ascii c t :
  (Utf8.rune_of_byte c < 128)%Z ->
  Utf8.DecodeRuneInString (String c t) = (Utf8.rune_of_byte c, 1).
Proof.
  intros Hc. unfold Utf8.DecodeRuneInString. by apply first_single in Hc as ->.
Qed.

(** The rune at the head of a string is its first byte, when that byte
    is of ASCII, and otherwise no rune of ASCII; its width is within
    the string. *)
Lemma Decode_head c t :
  let d := Utf8.DecodeRuneInString (String c t) in
  ((Utf8.rune_of_byte c < 128)%Z /\ d = (Utf8.rune_of_byte c, 1)
   \/ (128 <= Utf8.rune_of_byte c)%Z /\ (128 <= fst d)%Z)
  /\ 1 <= snd d <= String.length (String c t).
Proof.
  pose proof (rune_of_byte_range c) as Hc.
  unfold Utf8.DecodeRuneInString, Utf8.RuneError.
  destruct (Utf8.first (Utf8.rune_of_byte c)) as [| |size lo hi] eqn:E.
  - apply first_single in E. cbn [fst snd String.length]. split; [by left|lia].
  - assert (~ (Utf8.rune_of_byte c < 128)%Z) by (rewrite <- first_single, E; done).
    cbn [fst snd String.length]. split; [right|]; lia.
  - apply first_lead in E as E'. destruct E' as (Hlo & Hhi & Hb).
    unfold Utf8.first in E.
    destruct t as [|s1 t1]; [cbn [fst snd String.length]; split; [right|]; lia|].
    pose proof (rune_of_byte_range s1) as H1.
    destruct (Utf8.within lo hi s1) eqn:Ew; cbn [negb];
      [|cbn [fst snd String.length]; split; [right|]; lia].
    unfold Utf8.within in Ew. apply andb_prop in Ew as [Ew1 Ew2].
    repeat (match type of E with
            | context [if ?b then _ else _] => destruct b eqn:?
            end); try discriminate E; injection E as <- <- <-; cbn [Nat.leb];
      repeat (match goal with
              | |- context [match ?t with EmptyString => _ | String _ _ => _ end] =>
                  destruct t
              | |- context [if negb ?b then _ else _] => destruct b; cbn [negb]
              end);
      cbn [fst snd String.length];
      (split; [right; split; [lia|]; try lia; Z.div_mod_to_equations; lia| lia]).
Qed.

(** A byte of ASCII decides nothing about the runes before it. *)
Lemma Decode_app a c b :
  a <> "" -> (Utf8.rune_of_byte c < 128)%Z ->
  Utf8.DecodeRuneInString (a +:+ String c b) = Utf8.DecodeRuneInString a.
Proof.
  intros Ha Hc. destruct a as [|a0 a]; [done|]. clear Ha.
  rewrite str_app_cons. unfold Utf8.DecodeRuneInString.
  destruct (Utf8.first (Utf8.rune_of_byte a0)) as [| |size lo hi] eqn:E; [done|done|].
  apply first_lead in E as (Hlo & _ & _).
  destruct a as [|a1 a]; cbn [String.append]; cbv beta iota.
  { by rewrite within_ascii. }
  destruct (negb (Utf8.within lo hi a1)); [done|].
  destruct (size <=? 2); [done|].
  destruct a as [|a2 a]; cbn [String.append]; cbv beta iota.
  { by rewrite continuation_ascii. }
  destruct (negb (Utf8.continuation a2)); [done|].
  destruct (size <=? 3); [done|].
  destruct a as [|a3 a]; cbn [String.append]; cbv beta iota.
  { by rewrite continuation_ascii. }
  done.
Qed.

Lemma runes_from_head c s :
  Utf8.runes_from (String c s) 0 =
  fst (Utf8.DecodeRuneInString (String c s))
  :: Utf8.runes_from s (pred (snd (Utf8.DecodeRuneInString (String c s)))).
Proof. reflexivity. Qed.

Lemma runes_from_app a c b k :
  k <= String.length a -> (Utf8.rune_of_byte c < 128)%Z ->
  Utf8.runes_from (a +:+ String c b) k =
  Utf8.runes_from a k ++ Utf8.runes_from (String c b) 0.
Proof.
  intros Hk Hc. revert k Hk. induction a as [|a0 a IH]; intros k Hk.
  - simpl in Hk. by replace k with 0 by lia.
  - destruct k as [|k].
    + rewrite str_app_cons.
      change (Utf8.runes_from (String a0 (a +:+ String c b)) 0)
        with (fst (Utf8.DecodeRuneInString (String a0 (a +:+ String c b)))
              :: Utf8.runes_from (a +:+ String c b)
                   (pred (snd (Utf8.DecodeRuneInString (String a0 (a +:+ String c b)))))).
      rewrite <- str_app_cons, Decode_app by done.
      destruct (Decode_head a0 a) as [_ Hw]. cbv zeta in Hw.
      cbn [String.length] in Hw. rewrite IH by lia. done.
    + rewrite str_app_cons. simpl. simpl in Hk. apply IH. lia.
Qed.

Lemma runes_app a c b :
  (Utf8.rune_of_byte c < 128)%Z ->
  Utf8.runes (a +:+ String c b) = Utf8.runes a ++ Utf8.rune_of_byte c :: Utf8.runes b.
Proof.
  intros Hc. unfold Utf8.runes. rewrite runes_from_app by (done || lia).
  f_equal. by rewrite runes_from_head, Decode_ascii.
Qed.

Lemma runes_cons c b :
  (Utf8.rune_of_byte c < 128)%Z ->
  Utf8.runes (String c b) = Utf8.rune_of_byte c :: Utf8.runes b.
Proof. intros Hc. apply (runes_app "" c b Hc). Qed.

(** ** [strings.Map] and [strings.ToLower] *)

Lemma Map_mapped mapping s :
  Strings.Map mapping s =
  fold_right (fun c acc => mapped mapping c +:+ acc) "" (Utf8.runes s).
Proof.
  unfold Strings.Map. induction (Utf8.runes s) as [|r l IH]; [done|].
  simpl. rewrite IH. unfold mapped. by destruct (0 <=? mapping r)%Z.
Qed.

Lemma concat_mapped_app (mapping : Z -> Z) l1 l2 :
  fold_right (fun c acc => mapped mapping c +:+ acc) "" (l1 ++ l2)
  = fold_right (fun c acc => mapped mapping c +:+ acc) "" l1
    +:+ fold_right (fun c acc => mapped mapping c +:+ acc) "" l2.
Proof.
  induction l1 as [|r l1 IH]; [done|]. simpl. by rewrite IH, str_app_assoc.
Qed.

Lemma Map_cons mapping c b :
  (Utf8.rune_of_byte c < 128)%Z ->
  Strings.Map mapping (String c b) =
  mapped mapping (Utf8.rune_of_byte c) +:+ Strings.Map mapping b.
Proof.
  intros Hc. rewrite !Map_mapped, runes_cons by done. done.
Qed.

Lemma Map_app mapping a c b :
  (Utf8.rune_of_byte c < 128)%Z ->
  Strings.Map mapping (a +:+ String c b) =
  Strings.Map mapping a +:+ mapped mapping (Utf8.rune_of_byte c) +:+ Strings.Map mapping b.
Proof.
  intros Hc. rewrite !Map_mapped, runes_app, concat_mapped_app by done. done.
Qed.

Lemma mapped_ToLower_ascii tbl c :
  (Utf8.rune_of_byte c < 128)%Z ->
  mapped (Unicode.ToLower tbl) (Utf8.rune_of_byte c) = String (Strings.lower_byte c) "".
Proof.
  destruct c as [[] [] [] [] [] [] [] []]; intros H; try (by vm_compute in H);
    reflexivity.
Qed.

Lemma lower_byte_ascii c :
  (Utf8.rune_of_byte c < 128)%Z -> (Utf8.rune_of_byte (Strings.lower_byte c) < 128)%Z.
Proof.
  destruct c as [[] [] [] [] [] [] [] []]; intros H; try (by vm_compute in H);
    by vm_compute.
Qed.

Lemma is_ascii_cons c s :
  Strings.is_ascii (String c s) = true <->
  (Utf8.rune_of_byte c < 128)%Z /\ Strings.is_ascii s = true.
Proof. simpl. rewrite andb_true_iff, Z.ltb_lt. done. Qed.

Lemma Map_ToLower_ascii tbl s :
  Strings.is_ascii s = true ->
  Strings.Map (Unicode.ToLower tbl) s = Strings.lower_ascii s.
Proof.
  induction s as [|c s IH]; [done|]. intros [Hc Hs]%is_ascii_cons.
  rewrite Map_cons, mapped_ToLower_ascii, IH by done. done.
Qed.

(** The byte-wise path of [ToLower] is a short cut: the result is that
    of [Map] on every string. *)
Lemma ToLower_Map tbl s :
  Strings.ToLower tbl s = Strings.Map (Unicode.ToLower tbl) s.
Proof.
  unfold Strings.ToLower. destruct (Strings.is_ascii s) eqn:E; [|done].
  by rewrite Map_ToLower_ascii.
Qed.

Lemma ToLower_ascii tbl s :
  Strings.is_ascii s = true -> Strings.ToLower tbl s = Strings.lower_ascii s.
Proof. intros H. unfold Strings.ToLower. by rewrite H. Qed.

Lemma ToLower_nil tbl : Strings.ToLower tbl "" = "".
Proof. reflexivity. Qed.

Lemma ToLower_cons tbl c b :
  (Utf8.rune_of_byte c < 128)%Z ->
  Strings.ToLower tbl (String c b) = String (Strings.lower_byte c) (Strings.ToLower tbl b).
Proof.
  intros Hc. rewrite !ToLower_Map, Map_cons, mapped_ToLower_ascii by done. done.
Qed.

(** Lowering goes through a byte of ASCII: the text before it and the
    text after it are lowered on their own. *)
Lemma ToLower_app tbl a c b :
  (Utf8.rune_of_byte c < 128)%Z ->
  Strings.ToLower tbl (a +:+ String c b) =
  Strings.ToLower tbl a +:+ String (Strings.lower_byte c) (Strings.ToLower tbl b).
Proof.
  intros Hc. rewrite !ToLower_Map, Map_app, mapped_ToLower_ascii by done. done.
Qed.

Lemma is_ascii_app s t :
  Strings.is_ascii (s +:+ t) = Strings.is_ascii s && Strings.is_ascii t.
Proof.
  induction s as [|c s IH]; [done|]. rewrite str_app_cons. simpl.
  by rewrite IH, andb_assoc.
Qed.

Lemma lower_ascii_app s t :
  Strings.lower_ascii (s +:+ t) = Strings.lower_ascii s +:+ Strings.lower_ascii t.
Proof. induction s as [|c s IH]; [done|]. rewrite str_app_cons. simpl. by rewrite IH. Qed.

Lemma is_ascii_lower_ascii s :
  Strings.is_ascii s = true -> Strings.is_ascii (Strings.lower_ascii s) = true.
Proof.
  induction s as [|c s IH]; [done|]. intros [Hc Hs]%is_ascii_cons.
  simpl Strings.lower_ascii. apply is_ascii_cons. split; [by apply lower_byte_ascii|auto].
Qed.

(** Lowering a string of ASCII goes through every concatenation. *)
Lemma ToLower_app_r tbl a b :
  Strings.is_ascii b = true ->
  Strings.ToLower tbl (a +:+ b) = Strings.ToLower tbl a +:+ Strings.lower_ascii b.
Proof.
  destruct b as [|c b].
  - intros _. by rewrite !str_app_nil_r.
  - intros [Hc Hb]%is_ascii_cons.
    by rewrite ToLower_app, (ToLower_ascii tbl b) by done.
Qed.

(** ** What lowering keeps of a path *)

Lemma is_sep_byte_of z :
  (0 <= z < 256)%Z -> Filepath.is_sep (Utf8.byte_of z) = true -> z = 47%Z.
Proof.
  intros Hz H. apply byte_eqb_eq in H.
  apply (f_equal Utf8.rune_of_byte) in H. by rewrite rune_of_byte_of in H.
Qed.

Lemma is_sep_byte_of_high z :
  (128 <= z < 256)%Z -> Filepath.is_sep (Utf8.byte_of z) = false.
Proof.
  intros Hz. destruct (Filepath.is_sep (Utf8.byte_of z)) eqn:E; [|done].
  apply is_sep_byte_of in E; lia.
Qed.

Lemma EncodeRune_nonempty r : Utf8.EncodeRune r <> "".
Proof.
  unfold Utf8.EncodeRune, Utf8.bytes3.
  repeat (match goal with |- context [if ?c then _ else _] => destruct c end); done.
Qed.

Lemma EncodeRune_no_sep r : r <> 47%Z -> Filepath.has_sep (Utf8.EncodeRune r) = false.
Proof.
  intros Hr. unfold Utf8.EncodeRune, Utf8.bytes3, Utf8.RuneError, Utf8.MaxRune.
  repeat (match goal with
          | |- context [if ?c then _ else _] => destruct c eqn:?
          end); simpl Filepath.has_sep;
    repeat (rewrite is_sep_byte_of_high by (Z.div_mod_to_equations; lia));
    try done.
  rewrite orb_false_r.
  destruct (Filepath.is_sep (Utf8.byte_of r)) eqn:E; [|done].
  apply is_sep_byte_of in E; lia.
Qed.

Lemma Unicode_ToLower_kept tbl r :
  Unicode.keeps_segments tbl -> (0 <= r)%Z -> r <> 47%Z ->
  (0 <= Unicode.ToLower tbl r)%Z /\ Unicode.ToLower tbl r <> 47%Z.
Proof.
  intros Hk H0 Hr. unfold Unicode.ToLower.
  destruct (r <=? Unicode.MaxASCII)%Z eqn:Em; [|apply Hk; lia].
  destruct ((65 <=? r)%Z && (r <=? 90)%Z) eqn:E; [|done].
  apply andb_prop in E as [? ?]. lia.
Qed.

Lemma runes_from_no_sep s k :
  Filepath.has_sep s = false ->
  Forall (fun r => (0 <= r)%Z /\ r <> 47%Z) (Utf8.runes_from s k).
Proof.
  revert k. induction s as [|c s IH]; intros k; [by constructor|].
  simpl Filepath.has_sep. intros [Hc Hs]%orb_false_elim.
  destruct k as [|k]; [|by apply IH].
  change (Utf8.runes_from (String c s) 0)
    with (fst (Utf8.DecodeRuneInString (String c s))
          :: Utf8.runes_from s (pred (snd (Utf8.DecodeRuneInString (String c s))))).
  constructor; [|by apply IH].
  destruct (Decode_head c s) as [[[Hlt ->]|[Hge Hr]] _].
  - simpl. pose proof (rune_of_byte_range c). split; [lia|].
    intros E. apply byte_eqb_neq in Hc. apply Hc.
    destruct c as [[] [] [] [] [] [] [] []]; by vm_compute in E.
  - lia.
Qed.

Lemma has_sep_app s t : Filepath.has_sep (s +:+ t) = Filepath.has_sep s || Filepath.has_sep t.
Proof.
  induction s as [|c s IH]; [done|]. rewrite str_app_cons. simpl.
  by rewrite IH, orb_assoc.
Qed.

(** With tables that keep the segments of a path, a lowered segment is
    a segment. *)
Lemma ToLower_no_sep tbl s :
  Unicode.keeps_segments tbl -> Filepath.has_sep s = false ->
  Filepath.has_sep (Strings.ToLower tbl s) = false.
Proof.
  intros Hk Hs. rewrite ToLower_Map, Map_mapped. unfold Utf8.runes.
  induction (runes_from_no_sep s 0 Hs) as [|r l [H0 Hr] _ IH]; [done|].
  cbn [fold_right]. destruct (Unicode_ToLower_kept tbl r Hk H0 Hr) as [H0' Hr'].
  rewrite has_sep_app, IH, orb_false_r. unfold mapped.
  destruct (0 <=? _)%Z; [|done]. by apply EncodeRune_no_sep.
Qed.

Lemma ToLower_nonempty tbl s :
  Unicode.keeps_segments tbl -> s <> "" -> Strings.ToLower tbl s <> "".
Proof.
  intros Hk Hs. rewrite ToLower_Map, Map_mapped. destruct s as [|c s]; [done|].
  unfold Utf8.runes. rewrite runes_from_head. cbn [fold_right].
  destruct (Decode_head c s) as [Hd _]. cbv zeta in Hd.
  set (r := fst (Utf8.DecodeRuneInString (String c s))) in *.
  assert (0 <= Unicode.ToLower tbl r)%Z as H.
  { unfold Unicode.ToLower.
    destruct (r <=? Unicode.MaxASCII)%Z eqn:E; [|apply Hk; lia].
    pose proof (rune_of_byte_range c).
    assert (0 <= r)%Z.
    { destruct Hd as [[Hlt Hd]|[Hge Hr]]; [|lia]. subst r. rewrite Hd. cbn [fst]. lia. }
    destruct (_ && _); lia. }
  unfold mapped. apply Z.leb_le in H. rewrite H.
  pose proof (EncodeRune_nonempty (Unicode.ToLower tbl r)).
  by destruct (Utf8.EncodeRune _).
Qed.

Example ToLower_examples :
  let high n := String (ascii_of_N n) "" in
  (* the dotted capital I, the Kelvin sign, a capital of Latin-1, an invalid byte *)
  map (Strings.ToLower Unicode.example_table)
    ["Hello"; high 196%N +:+ high 176%N +:+ "x";
     high 226%N +:+ high 132%N +:+ high 170%N +:+ "1";
     high 195%N +:+ high 137%N; high 255%N +:+ "A"]
  = ["hello"; "ix"; "k1"; high 195%N +:+ high 169%N;
     high 239%N +:+ high 191%N +:+ high 189%N +:+ "a"].
Proof. reflexivity. Qed.

Lemma example_table_keeps_segments : Unicode.keeps_segments Unicode.example_table.
Proof.
  intros r Hr. unfold Unicode.MaxASCII in Hr. unfold Unicode.example_table.
  repeat (match goal with |- context [if ?c then _ else _] => destruct c eqn:? end);
    lia.
Qed.

(** ** The sanitizer applied to its own result *)

Lemma lower_byte_safe c :
  is_safe c = true \/ c = "."%char -> Strings.lower_byte c = c.
Proof.
  destruct c as [[] [] [] [] [] [] [] []]; vm_compute; intros [?|?]; done.
Qed.

Lemma is_safe_ascii c :
  is_safe c = true \/ c = "."%char -> (Utf8.rune_of_byte c < 128)%Z.
Proof.
  destruct c as [[] [] [] [] [] [] [] []]; intros [H|H]; try (by vm_compute in H);
    by vm_compute.
Qed.

Lemma safe_is_ascii s : all_bytes is_safe s = true -> Strings.is_ascii s = true.
Proof.
  induction s as [|c s IH]; [done|]. simpl. intros [Hc Hs]%andb_prop.
  rewrite IH by done. rewrite andb_true_r. apply Z.ltb_lt, is_safe_ascii. auto.
Qed.

Lemma lower_ascii_safe s : all_bytes is_safe s = true -> Strings.lower_ascii s = s.
Proof.
  induction s as [|c s IH]; [done|]. simpl. intros [Hc Hs]%andb_prop.
  by rewrite lower_byte_safe, IH by auto.
Qed.

Lemma ToLower_safe tbl s : all_bytes is_safe s = true -> Strings.ToLower tbl s = s.
Proof.
  intros H. by rewrite ToLower_ascii, lower_ascii_safe by by (done || apply safe_is_ascii).
Qed.

Lemma safe_no_sep s : all_bytes is_safe s = true -> Filepath.has_sep s = false.
Proof.
  induction s as [|c s IH]; [done|]. simpl. intros [Hc Hs]%andb_prop.
  rewrite IH, orb_false_r by done. apply byte_eqb_neq. intros ->. by vm_compute in Hc.
Qed.

Lemma strip_trailing_sep_fixed s :
  last_is Filepath.is_sep s = false -> Filepath.strip_trailing_sep s = s.
Proof.
  induction s as [|c s IH]; [done|]. rewrite last_is_cons. simpl.
  destruct s as [|d s].
  - by intros ->.
  - intros H. by rewrite (IH H).
Qed.

Lemma after_last_sep_no_sep s : Filepath.has_sep s = false -> Filepath.after_last_sep s = s.
Proof.
  destruct s as [|c s]; [done|]. simpl. intros [Hc Hs]%orb_false_elim.
  by rewrite Hs, Hc.
Qed.

Lemma last_is_no_sep s : Filepath.has_sep s = false -> last_is Filepath.is_sep s = false.
Proof.
  induction s as [|c s IH]; [done|]. rewrite last_is_cons. simpl.
  intros [Hc Hs]%orb_false_elim. destruct s; auto.
Qed.

Lemma Base_no_sep s : s <> "" -> Filepath.has_sep s = false -> Filepath.Base s = s.
Proof.
  intros Hne Hs. unfold Filepath.Base. destruct s as [|c s]; [done|].
  rewrite strip_trailing_sep_fixed by by apply last_is_no_sep.
  by rewrite after_last_sep_no_sep.
Qed.

Lemma no_double_app s t :
  no_double_underscore s = true -> no_double_underscore t = true ->
  last_is is_underscore s = false ->
  no_double_underscore (s +:+ t) = true.
Proof.
  intros Hs Ht. induction s as [|c s IH]; [done|].
  rewrite last_is_cons. simpl in *. apply andb_prop in Hs as [Hc Hs].
  destruct s as [|d s].
  - intros ->. simpl. by rewrite Ht.
  - intros Hl. simpl in *. by rewrite Hc, IH.
Qed.

Lemma last_is_app p s c t : last_is p (s +:+ String c t) = last_is p (String c t).
Proof.
  induction s as [|d s IH]; [done|]. simpl String.append. rewrite last_is_cons, IH.
  by destruct s.
Qed.

Lemma tidy_inv s :
  tidy s = true ->
  no_double_underscore s = true /\ head_is is_underscore s = false
  /\ last_is is_underscore s = false.
Proof.
  unfold tidy. intros [[? ?%negb_true_iff]%andb_prop ?%negb_true_iff]%andb_prop. auto.
Qed.

Section Sanitizer.
Variable tbl : Z -> Z.

(** What the steps before the extension test make of [g.pdf] for a tidy
  stem [g]. *)
Lemma stem_of_result g :
all_bytes is_safe g = true -> tidy g = true ->
stem tbl (g +:+ ".pdf") = if decide (g = "") then "pdf" else rm g.
Proof.
intros Hsafe (Hd & Hh & Hl)%tidy_inv.
case_decide as Hg; [by subst|].
rewrite stem_unfold.
assert (Strings.ToLower tbl (g +:+ ".pdf") = g +:+ ".pdf") as ->.
{ by rewrite ToLower_app_r, (ToLower_safe tbl g) by done. }
unfold getFilename. rewrite Base_no_sep.
2:{ by destruct g. }
2:{ by rewrite has_sep_app, safe_no_sep. }
rewrite underscore_non_alnum_app, underscore_non_alnum_fixed by done.
change (underscore_non_alnum ".pdf") with "_pdf".
rewrite collapse_fixed by by apply no_double_app.
rewrite drop_while_fixed by by destruct g.
rewrite TrimRight_fixed by by rewrite last_is_app.
apply rm_app_pdf.
Qed.

Lemma urlToFilename_twice x :
urlToFilename tbl (urlToFilename tbl x) =
(if decide (stem tbl x = "") then "pdf" else rm (stem tbl x)) +:+ ".pdf".
Proof.
rewrite (urlToFilename_stem tbl x), urlToFilename_stem.
by rewrite stem_of_result by (apply stem_safe || apply stem_tidy).
Qed.

Lemma str_app_inj_r (s t u : string) : s +:+ u = t +:+ u -> s = t.
Proof.
revert t. induction s as [|c s IH]; intros [|d t] H; try done.
- apply (f_equal String.length) in H. rewrite !str_app_length in H. simpl in H. lia.
- apply (f_equal String.length) in H. rewrite !str_app_length in H. simpl in H. lia.
- simpl in H. injection H as -> H. by rewrite (IH _ H).
Qed.

(** ** Two URLs with the same last path segment *)

Lemma is_sep_lower_byte c : Filepath.is_sep (Strings.lower_byte c) = Filepath.is_sep c.
Proof. by destruct c as [[] [] [] [] [] [] [] []]. Qed.

Lemma after_last_sep_segment d seg :
Filepath.has_sep seg = false -> Filepath.after_last_sep (d +:+ "/" +:+ seg) = seg.
Proof.
intros Hs. induction d as [|c d IH].
- simpl. by rewrite Hs.
- simpl. rewrite has_sep_app. simpl. by rewrite orb_true_r.
Qed.

Lemma Base_last_segment d seg :
seg <> "" -> Filepath.has_sep seg = false -> Filepath.Base (d +:+ "/" +:+ seg) = seg.
Proof.
intros Hne Hs. unfold Filepath.Base.
destruct (d +:+ "/" +:+ seg) eqn:E; [by destruct d|]. rewrite <- E. clear E.
destruct seg as [|c seg]; [done|].
rewrite strip_trailing_sep_fixed.
- by rewrite after_last_sep_segment.
- change (d +:+ "/" +:+ String c seg) with (d +:+ String "/" (String c seg)).
  rewrite last_is_app. rewrite last_is_cons. by apply (last_is_no_sep (String c seg)).
Qed.

Lemma getFilename_last_segment d seg :
Unicode.keeps_segments tbl ->
seg <> "" -> Filepath.has_sep seg = false ->
getFilename (Strings.ToLower tbl (d +:+ "/" +:+ seg)) = Strings.ToLower tbl seg.
Proof.
intros Hk Hne Hs. change (d +:+ "/" +:+ seg) with (d +:+ String "/" seg).
rewrite (ToLower_app tbl d "/" seg) by by vm_compute.
change (String (Strings.lower_byte "/") (Strings.ToLower tbl seg))
  with ("/" +:+ Strings.ToLower tbl seg).
apply Base_last_segment.
- by apply ToLower_nonempty.
- by apply ToLower_no_sep.
Qed.

Lemma urlToFilename_same_segment d1 d2 seg :
Unicode.keeps_segments tbl ->
seg <> "" -> Filepath.has_sep seg = false ->
urlToFilename tbl (d1 +:+ "/" +:+ seg) = urlToFilename tbl (d2 +:+ "/" +:+ seg).
Proof.
intros Hk Hne Hs. unfold urlToFilename.
by rewrite !getFilename_last_segment.
Qed.

Lemma ToLower_urlToFilename tbl' x :
Strings.ToLower tbl' (urlToFilename tbl x) = urlToFilename tbl x.
Proof.
rewrite urlToFilename_stem. rewrite ToLower_app_r by done.
by rewrite ToLower_safe by apply stem_safe.
Qed.

(** C9. For every input, and whatever the case tables, [urlToFilename]
  returns the stem followed by the literal suffix .pdf; every byte of
  the stem lies in [a-z0-9_]; the result holds exactly one dot; and
  the extension test always finds an extension other than .pdf, so
  that the suffix is appended on every input and never kept from
  it. *)
Theorem urlToFilename_shape (rawURL : string) :
urlToFilename tbl rawURL = stem tbl rawURL +:+ ".pdf"
/\ all_bytes is_safe (stem tbl rawURL) = true
/\ count_byte "." (urlToFilename tbl rawURL) = 1
/\ getFileExtension (stem tbl rawURL) <> ".pdf".
Proof.
split; [apply urlToFilename_stem|]. split; [apply stem_safe|]. split.
- rewrite urlToFilename_stem, count_byte_app, safe_no_dot by apply stem_safe. done.
- by rewrite stem_ext.
Qed.

(** C1, amended. [urlToFilename] is a function of its argument, and
  applying it to its own result gives that result again exactly when
  the stem of the result, the text before the final .pdf, is not
  empty and does not contain _pdf. *)
Theorem urlToFilename_idempotent_iff (x : string) :
urlToFilename tbl x = stem tbl x +:+ ".pdf"
/\ (urlToFilename tbl (urlToFilename tbl x) = urlToFilename tbl x
    <-> stem tbl x <> "" /\ Strings.Contains (stem tbl x) "_pdf" = false).
Proof.
split; [apply urlToFilename_stem|].
rewrite urlToFilename_twice, (urlToFilename_stem tbl x), <- rm_fixed_iff.
case_decide as Hs.
- rewrite Hs. split; [done|]. by intros [? _].
- split.
  + intros H%str_app_inj_r. done.
  + by intros [_ ->].
Qed.

End Sanitizer.

(** C1, as stated, fails on the empty string, whatever the case
    tables: it is mapped to .pdf, which is mapped to pdf.pdf. With no
    tables is [urlToFilename] idempotent. *)
Lemma urlToFilename_not_idempotent :
  (forall tbl, urlToFilename tbl "" = ".pdf" /\ urlToFilename tbl ".pdf" = "pdf.pdf")
  /\ ~ (exists tbl, forall x, urlToFilename tbl (urlToFilename tbl x) = urlToFilename tbl x).
Proof.
  split; [done|]. intros [tbl H]. specialize (H ""). done.
Qed.

(** ** The de-duplicator *)

Example first_occurrences_example :
  first_occurrences ["b"; "a"; "b"; "c"; "a"] = ["b"; "a"; "c"].
Proof. reflexivity. Qed.

Lemma dedup_fold (l seen acc : list string) (check : gmap string bool) :
  (forall y, default false (check !! y) = true <-> y ∈ seen) ->
  snd (fold_left dedup_step l (check, acc)) = acc ++ dedup_from seen l.
Proof.
  revert seen acc check. induction l as [|x l IH]; intros seen acc check Hinv.
  - simpl. by rewrite app_nil_r.
  - cbn [fold_left]. unfold dedup_step at 2.
    destruct (default false (check !! x)) eqn:E; simpl negb; cbv iota.
    + apply Hinv in E. cbn [dedup_from]. rewrite decide_True by done. by apply IH.
    + cbn [dedup_from]. rewrite decide_False by (intros ?%Hinv; congruence).
      rewrite (IH (seen ++ [x])), <- app_assoc; [done|].
      intros y. rewrite elem_of_app, list_elem_of_singleton, <- Hinv.
      destruct (decide (x = y)) as [->|Hne].
      * rewrite lookup_insert_eq. simpl. tauto.
      * rewrite lookup_insert_ne by done. split; [tauto|]. by intros [?|?].
Qed.

Lemma removeDuplicatesFromSlice_dedup_from l :
  removeDuplicatesFromSlice l = dedup_from [] l.
Proof.
  unfold removeDuplicatesFromSlice.
  change (snd (fold_left dedup_step l (∅, [])) = dedup_from [] l).
  rewrite (dedup_fold l [] []); [done|].
  intros y. rewrite lookup_empty. simpl. split; [done|]. by intros ?%elem_of_nil.
Qed.

Lemma dedup_from_index seen l :
  dedup_from seen l =
  mjoin (imap (fun i x => if decide (x ∈ seen ++ take i l) then [] else [x]) l).
Proof.
  revert seen. induction l as [|x l IH]; intros seen; [done|].
  simpl. rewrite app_nil_r.
  assert (imap ((fun i y => if decide (y ∈ seen ++ take i (x :: l)) then [] else [y]) ∘ S) l
          = imap (fun i y => if decide (y ∈ (seen ++ [x]) ++ take i l) then [] else [y]) l) as ->.
  { apply imap_ext. intros i y _. simpl. by rewrite <- app_assoc. }
  destruct (decide (x ∈ seen)) as [Hx|Hx].
  - rewrite IH. simpl. f_equal. apply imap_ext. intros i y _.
    assert (y ∈ seen ++ take i l <-> y ∈ (seen ++ [x]) ++ take i l) as Hiff.
    { rewrite !elem_of_app, list_elem_of_singleton.
      split; [tauto|]. intros [[?| ->]|?]; tauto. }
    repeat case_decide; tauto.
  - simpl. by rewrite IH.
Qed.

Lemma dedup_from_elem seen l x :
  x ∈ dedup_from seen l <-> x ∈ l /\ x ∉ seen.
Proof.
  revert seen. induction l as [|y l IH]; intros seen; simpl.
  - rewrite elem_of_nil. tauto.
  - case_decide as Hy.
    + rewrite IH, elem_of_cons. split; [tauto|]. intros [[->|?] ?]; tauto.
    + rewrite !elem_of_cons, IH, elem_of_app, list_elem_of_singleton.
      destruct (decide (x = y)) as [->|]; tauto.
Qed.

Lemma dedup_from_NoDup seen l : NoDup (dedup_from seen l).
Proof.
  revert seen. induction l as [|y l IH]; intros seen; simpl.
  - constructor.
  - case_decide; [done|]. constructor; [|done].
    rewrite dedup_from_elem, elem_of_app, list_elem_of_singleton. tauto.
Qed.

Lemma dedup_from_sublist seen l : sublist (dedup_from seen l) l.
Proof.
  revert seen. induction l as [|y l IH]; intros seen; simpl; [done|].
  case_decide; [by apply sublist_cons|by apply sublist_skip].
Qed.

Lemma dedup_from_fixed seen l :
  NoDup l -> (forall x, x ∈ l -> x ∉ seen) -> dedup_from seen l = l.
Proof.
  revert seen. induction l as [|y l IH]; intros seen Hnd Hdis; [done|].
  simpl. apply NoDup_cons in Hnd as [Hy Hnd].
  rewrite decide_False by (apply Hdis; left).
  f_equal. apply IH; [done|]. intros x Hx.
  rewrite elem_of_app, list_elem_of_singleton. intros [?| ->]; [|done].
  by apply (Hdis x); [right|].
Qed.

(** C5. [removeDuplicatesFromSlice] returns the first occurrences of
    its input, compared by equality of strings, in the order of the
    input: the element at an index is kept exactly when it does not
    occur before that index. The result is a subsequence of the input
    without duplicates and with the same members, and de-duplicating it
    again changes nothing. *)
Theorem removeDuplicatesFromSlice_first_occurrences (slice : list string) :
  removeDuplicatesFromSlice slice = first_occurrences slice
  /\ sublist (removeDuplicatesFromSlice slice) slice
  /\ NoDup (removeDuplicatesFromSlice slice)
  /\ (forall x, x ∈ removeDuplicatesFromSlice slice <-> x ∈ slice)
  /\ removeDuplicatesFromSlice (removeDuplicatesFromSlice slice)
     = removeDuplicatesFromSlice slice.
Proof.
  rewrite !removeDuplicatesFromSlice_dedup_from.
  split; [apply (dedup_from_index [])|].
  split; [apply dedup_from_sublist|].
  split; [apply dedup_from_NoDup|].
  split.
  - intros x. rewrite dedup_from_elem, elem_of_nil. tauto.
  - apply dedup_from_fixed; [apply dedup_from_NoDup|]. intros x _. apply not_elem_of_nil.
Qed.

Example removeDuplicatesFromSlice_exact_equality :
  removeDuplicatesFromSlice ["/a.pdf"; "/A.pdf"; "/%61.pdf"; "/a.pdf"; "/A.pdf"]
  = ["/a.pdf"; "/A.pdf"; "/%61.pdf"].
Proof. by vm_compute. Qed.

(** ** The link extractor *)

Lemma backtrack_byte {R} c s cap (k : string -> option string -> option R) :
  Regexp.backtrack (Regexp.Atom (Regexp.CsByte c)) s cap k =
  match s with
  | String d s' => if byte_eqb d c then k s' cap else None
  | EmptyString => None
  end.
Proof. reflexivity. Qed.

Lemma backtrack_lit {R} p r s cap (k : string -> option string -> option R) :
  Regexp.backtrack (Regexp.lit p r) s cap k =
  if Strings.HasPrefix s p
  then Regexp.backtrack r (drop_bytes (String.length p) s) cap k
  else None.
Proof.
  revert s. induction p as [|c p IH]; intros s; [done|].
  cbn [Regexp.lit Regexp.backtrack]. destruct s as [|d s]; [done|].
  simpl Regexp.cs_mem. simpl Strings.HasPrefix. simpl drop_bytes.
  rewrite (byte_eqb_sym c d).
  destruct (byte_eqb d c); [apply IH|done].
Qed.

Lemma not_quote_mem c :
  Regexp.cs_mem (Regexp.CsClass true [(dquote, dquote)]) c = negb (byte_eqb c dquote).
Proof. by destruct c as [[] [] [] [] [] [] [] []]. Qed.

Lemma plus_loop_ext {R} p q s (k k' : string -> option R) :
  (forall c, p c = q c) -> (forall s', k s' = k' s') ->
  Regexp.plus_loop p s k = Regexp.plus_loop q s k'.
Proof.
  intros H Hk. induction s as [|d s IH]; [done|]. cbn [Regexp.plus_loop].
  by rewrite H, IH, Hk.
Qed.

Lemma exec_regexPattern t :
  Regexp.exec regexPattern t =
  if Strings.HasPrefix t "href=" then
    match drop_bytes 5 t with
    | String c u =>
        if byte_eqb c dquote
        then Regexp.plus_loop not_quote u (after_run t u)
        else None
    | EmptyString => None
    end
  else None.
Proof.
  unfold Regexp.exec, regexPattern. rewrite backtrack_lit.
  destruct (Strings.HasPrefix t "href="); [|done].
  cbn [Regexp.backtrack]. simpl String.length.
  destruct (drop_bytes 5 t) as [|c u]; [done|].
  simpl Regexp.cs_mem. destruct (byte_eqb c dquote); [|done].
  rewrite (plus_loop_ext _ not_quote _ _ (after_run t u)); [done|apply not_quote_mem|].
  intros s'. unfold after_run.
  destruct s' as [|c1 [|c2 [|c3 [|c4 s']]]]; cbn [Regexp.lit Regexp.backtrack];
    simpl; rewrite ?(byte_eqb_sym "."), ?(byte_eqb_sym "p"), ?(byte_eqb_sym "d"),
      ?(byte_eqb_sym "f"); try done.
  - by destruct (byte_eqb c1 ".").
  - by destruct (byte_eqb c1 "."), (byte_eqb c2 "p").
  - by destruct (byte_eqb c1 "."), (byte_eqb c2 "p"), (byte_eqb c3 "d").
  - by destruct (byte_eqb c1 "."), (byte_eqb c2 "p"), (byte_eqb c3 "d"), (byte_eqb c4 "f").
Qed.

Lemma plus_loop_sound {R} p s (k : string -> option R) r :
  Regexp.plus_loop p s k = Some r ->
  exists a b, s = a +:+ b /\ a <> "" /\ all_bytes p a = true /\ k b = Some r.
Proof.
  induction s as [|c s IH]; [done|]. cbn [Regexp.plus_loop].
  destruct (p c) eqn:Hc; [|done].
  destruct (Regexp.plus_loop p s k) as [r'|] eqn:E.
  - intros [= ->]. destruct (IH eq_refl) as (a & b & -> & _ & Ha & Hk).
    exists (String c a), b. simpl. by rewrite Hc, Ha.
  - intros Hk. exists (String c ""), s. simpl. by rewrite Hc.
Qed.

Lemma plus_loop_complete {R} p a b (k : string -> option R) :
  a <> "" -> all_bytes p a = true -> is_Some (k b) ->
  is_Some (Regexp.plus_loop p (a +:+ b) k).
Proof.
  intros Hne Ha Hk. induction a as [|c a IH]; [done|].
  simpl in Ha. apply andb_prop in Ha as [Hc Ha].
  simpl String.append. cbn [Regexp.plus_loop]. rewrite Hc.
  destruct a as [|d a].
  - simpl String.append. by destruct (Regexp.plus_loop p b k).
  - destruct (IH ltac:(done) Ha) as [r ->]. eauto.
Qed.

Lemma not_quote_count a : all_bytes not_quote a = true <-> count_byte dquote a = 0.
Proof.
  induction a as [|c a IH]; [done|]. simpl. unfold not_quote at 1.
  destruct (byte_eqb c dquote); simpl; [split; [done|lia]|]. apply IH.
Qed.

Lemma quote_split_unique v v' r r' :
  v +:+ String dquote r = v' +:+ String dquote r' ->
  count_byte dquote v = 0 -> count_byte dquote v' = 0 -> v = v' /\ r = r'.
Proof.
  revert v'. induction v as [|c v IH]; intros [|c' v'] H Hv Hv'; simpl in *.
  - by injection H as ->.
  - injection H as <- _. by rewrite byte_eqb_refl in Hv'.
  - injection H as -> _. by rewrite byte_eqb_refl in Hv.
  - injection H as -> H.
    destruct (byte_eqb c' dquote); [done|].
    destruct (IH v' H) as [-> ->]; auto.
Qed.

Lemma href_value_unique t v v' : href_value t v -> href_value t v' -> v = v'.
Proof.
  intros [Hv [r ->]] [Hv' [r' H]]. simpl in H. injection H as H.
  by destruct (quote_split_unique _ _ _ _ H).
Qed.

Lemma substring_app v x : String.substring 0 (String.length v) (v +:+ x) = v.
Proof.
  induction v as [|c v IH]; [by destruct x|]. simpl. by rewrite IH.
Qed.

Lemma consumed_app v x : Regexp.consumed (v +:+ x) x = v.
Proof.
  unfold Regexp.consumed. rewrite str_app_length.
  replace (String.length v + String.length x - String.length x)
    with (String.length v) by lia.
  apply substring_app.
Qed.

Lemma after_run_Some t u s' n cap :
  after_run t u s' = Some (n, cap) ->
  exists s2, s' = ".pdf" +:+ String dquote s2
             /\ n = String.length t - String.length s2
             /\ cap = Some (Regexp.consumed u (String dquote s2)).
Proof.
  unfold after_run. destruct (Strings.HasPrefix s' ".pdf") eqn:Hp; [|done].
  apply HasPrefix_inv in Hp. simpl String.length in Hp.
  destruct (drop_bytes 4 s') as [|c s2]; [done|].
  destruct (byte_eqb c dquote) eqn:Hc; [|done].
  apply byte_eqb_eq in Hc as ->. intros [= <- <-]. eauto.
Qed.

Lemma after_run_pdf t u s2 :
  after_run t u (".pdf" +:+ String dquote s2) =
  Some (String.length t - String.length s2, Some (Regexp.consumed u (String dquote s2))).
Proof. reflexivity. Qed.

Lemma count_byte_pdf : count_byte dquote ".pdf" = 0.
Proof. reflexivity. Qed.

Lemma exec_sound t n cap :
  Regexp.exec regexPattern t = Some (n, cap) ->
  exists v, cap = Some v /\ href_value t v /\ names_pdf v /\ n = String.length v + 7.
Proof.
  rewrite exec_regexPattern.
  destruct (Strings.HasPrefix t "href=") eqn:Hp; [|done].
  apply HasPrefix_inv in Hp. simpl String.length in Hp.
  destruct (drop_bytes 5 t) as [|c u]; [done|].
  destruct (byte_eqb c dquote) eqn:Hc; [|done]. apply byte_eqb_eq in Hc as ->.
  intros (a & b & -> & Hne & Ha & Hk)%plus_loop_sound.
  apply after_run_Some in Hk as (s2 & -> & -> & ->).
  exists (a +:+ ".pdf").
  assert (a +:+ ".pdf" +:+ String dquote s2 = (a +:+ ".pdf") +:+ String dquote s2) as Eu
    by by rewrite str_app_assoc.
  rewrite Eu in *. split; [by rewrite consumed_app|]. split; [|split].
  - split; [|eauto].
    rewrite count_byte_app, count_byte_pdf. apply not_quote_count in Ha. lia.
  - by exists a.
  - rewrite Hp. rewrite !str_app_length. simpl. rewrite !str_app_length. simpl. lia.
Qed.

Lemma exec_complete t v :
  href_value t v -> names_pdf v ->
  Regexp.exec regexPattern t = Some (String.length v + 7, Some v).
Proof.
  intros Hv (w & Hw & ->).
  assert (is_Some (Regexp.exec regexPattern t)) as [[n cap] E].
  { destruct Hv as [Hc [rest ->]]. rewrite exec_regexPattern.
    simpl. rewrite ?byte_eqb_refl. rewrite !str_app_assoc.
    apply plus_loop_complete; [done| |].
    - rewrite count_byte_app in Hc. apply not_quote_count. lia.
    - rewrite after_run_pdf. eauto. }
  rewrite E. destruct (exec_sound _ _ _ E) as (v' & -> & Hv' & _ & ->).
  by rewrite (href_value_unique _ _ _ Hv' Hv).
Qed.

(** The scan of [FindAllStringSubmatch]. *)

Lemma find_all_skip re n s :
  Regexp.find_all re s n = Regexp.find_all re (drop_bytes n s) 0.
Proof. revert n. induction s as [|c s IH]; intros [|n]; simpl; done. Qed.

Lemma found_hit c t v :
  href_value (String c t) v -> names_pdf v ->
  found (String c t) = v :: found (drop_bytes (String.length v + 6) t).
Proof.
  intros Hv Hn. unfold found. cbn [Regexp.find_all].
  rewrite (exec_complete _ _ Hv Hn).
  replace (String.length v + 7) with (S (String.length v + 6)) by lia.
  by rewrite find_all_skip.
Qed.

Lemma found_miss c t :
  Regexp.exec regexPattern (String c t) = None -> found (String c t) = found t.
Proof. intros H. unfold found. cbn [Regexp.find_all]. by rewrite H. Qed.

Lemma find_all_length re s n :
  Forall (fun m => length m = 2) (Regexp.find_all re s n).
Proof.
  revert n. induction s as [|c s IH]; intros n; [constructor|].
  cbn [Regexp.find_all]. destruct n as [|n]; [|apply IH].
  destruct (Regexp.exec re (String c s)) as [[[|k] cap]|]; try apply IH.
  constructor; [done|apply IH].
Qed.

Lemma extract_fold (ms : list (list string)) (acc : list string) :
  Forall (fun m => length m = 2) ms ->
  fold_left
    (fun pdfURLs match_ =>
       if decide (1 < length match_)
       then pdfURLs ++ [default "" (match_ !! 1)]
       else pdfURLs) ms acc
  = acc ++ map (fun m => default "" (m !! 1)) ms.
Proof.
  intros H. revert acc. induction H as [|m ms Hm _ IH]; intros acc; simpl.
  - by rewrite app_nil_r.
  - rewrite decide_True by lia. by rewrite IH, <- app_assoc.
Qed.

Lemma extractPDFUrls_found s : extractPDFUrls s = found s.
Proof.
  unfold extractPDFUrls, found, Regexp.FindAllStringSubmatch.
  by rewrite extract_fold by apply find_all_length.
Qed.

(** No other occurrence starts inside a match. *)

Lemma drop_bytes_split n s : exists a, s = a +:+ drop_bytes n s.
Proof.
  revert s. induction n as [|n IH]; intros s; [by exists ""|].
  destruct s as [|c s]; [by exists ""|].
  destruct (IH s) as [a Ha]. exists (String c a). simpl. by rewrite <- Ha.
Qed.

Lemma drop_bytes_app_le n s x :
  n <= String.length s -> drop_bytes n (s +:+ x) = drop_bytes n s +:+ x.
Proof.
  revert s. induction n as [|n IH]; intros s Hn; [done|].
  destruct s as [|c s]; simpl in *; [lia|]. apply IH. lia.
Qed.

Lemma no_href_after v2 rest v' :
  count_byte dquote v2 = 0 -> last_is (byte_eqb "=") v2 = false ->
  ~ href_value (v2 +:+ String dquote rest) v'.
Proof.
  intros Hq Hl [_ [r H]].
  apply quote_split_unique in H as [-> _]; done.
Qed.

Lemma last_is_suffix p a b : b <> "" -> last_is p (a +:+ b) = last_is p b.
Proof. destruct b as [|c b]; [done|]. intros _. apply last_is_app. Qed.

Lemma no_href_inside c t v j v' :
  href_value (String c t) v -> names_pdf v -> j < String.length v + 6 ->
  ~ href_value (drop_bytes j t) v'.
Proof.
  intros [Hq [rest E]] (w & Hw & ->) Hj. simpl in E. injection E as -> ->.
  do 5 (destruct j as [|j]; [by intros [_ [? ?]]|]).
  simpl drop_bytes.
  rewrite drop_bytes_app_le by lia.
  destruct (drop_bytes_split j (w +:+ ".pdf")) as [a Ha].
  apply no_href_after.
  - rewrite Ha, count_byte_app in Hq. lia.
  - destruct (drop_bytes j (w +:+ ".pdf")) as [|d s] eqn:Ed; [done|].
    rewrite <- (last_is_suffix _ a) by done. rewrite <- Ha.
    by rewrite last_is_suffix.
Qed.

Lemma occurrences_skip accepted k t l :
  (forall j v, j < k -> ~ href_value (drop_bytes j t) v) ->
  occurrences accepted (drop_bytes k t) l -> occurrences accepted t l.
Proof.
  revert t. induction k as [|k IH]; intros t Hno H; [done|].
  destruct t as [|c t]; [done|].
  apply occurrences_miss.
  - intros v Hv _. apply (Hno 0 v); [lia|done].
  - apply IH; [|done]. intros j v Hj. apply (Hno (S j)). lia.
Qed.

Lemma found_occurrences s : occurrences names_pdf s (found s).
Proof.
  remember (String.length s) as n eqn:Hn.
  revert s Hn. induction (lt_wf n) as [n _ IH]. intros s ->.
  destruct s as [|c t]; [constructor|].
  destruct (Regexp.exec regexPattern (String c t)) as [[k cap]|] eqn:E.
  - destruct (exec_sound _ _ _ E) as (v & -> & Hv & Hp & ->).
    rewrite (found_hit _ _ _ Hv Hp).
    apply occurrences_hit; [done..|].
    apply (occurrences_skip _ (String.length v + 6)).
    + intros j v' Hj. by apply (no_href_inside c t v).
    + apply (IH (String.length (drop_bytes (String.length v + 6) t))); [|done].
      rewrite drop_bytes_length. simpl. lia.
  - rewrite found_miss by done. apply occurrences_miss.
    + intros v Hv Hp. by rewrite (exec_complete _ _ Hv Hp) in E.
    + apply (IH (String.length t)); simpl; [lia|done].
Qed.

Lemma occurrences_unique accepted s l l' :
  occurrences accepted s l -> occurrences accepted s l' -> l = l'.
Proof.
  intros H. revert l'. induction H as [|c t v l Hv Ha _ IH|c t l Hno _ IH];
    intros l' H'; inversion H' as [|? ? v' l1 Hv' Ha' H1|? ? ? Hno' H1]; subst.
  - done.
  - rewrite (href_value_unique _ _ _ Hv Hv'). f_equal. by apply IH.
  - by destruct (Hno' v).
  - by destruct (Hno v').
  - by apply IH.
Qed.

(** C3, amended. [extractPDFUrls] returns exactly the values, in the
    order of their positions, of the occurrences of href=, a double
    quote, a value without double quote made of at least one byte
    followed by .pdf, and a double quote; no other list qualifies. On
    the empty input, and on any input without such an occurrence, the
    result is empty. *)
Theorem extractPDFUrls_occurrences (htmlContent : string) :
  occurrences names_pdf htmlContent (extractPDFUrls htmlContent)
  /\ (forall l, occurrences names_pdf htmlContent l -> l = extractPDFUrls htmlContent)
  /\ extractPDFUrls "" = [].
Proof.
  rewrite extractPDFUrls_found. split; [apply found_occurrences|]. split; [|done].
  intros l Hl. apply (occurrences_unique _ _ _ _ Hl), found_occurrences.
Qed.

(** C3, as stated, fails on an attribute whose value is .pdf alone:
    the value holds no double quote and ends in .pdf, and
    [extractPDFUrls] does not return it. *)
Lemma extractPDFUrls_misses_bare_extension :
  href_value (href_attr ".pdf") ".pdf" /\ ends_in_pdf ".pdf"
  /\ extractPDFUrls (href_attr ".pdf") = []
  /\ ~ occurrences ends_in_pdf (href_attr ".pdf") (extractPDFUrls (href_attr ".pdf")).
Proof.
  assert (href_value (href_attr ".pdf") ".pdf") as Hv by (split; [done|by exists ""]).
  assert (ends_in_pdf ".pdf") as Hp by by exists "".
  split; [done|]. split; [done|]. split; [by vm_compute|].
  replace (extractPDFUrls (href_attr ".pdf")) with (@nil string) by by vm_compute.
  intros H. inversion H as [| |? ? ? Hno _]; subst. by apply (Hno ".pdf").
Qed.

Example extractPDFUrls_examples :
  extractPDFUrls ("<a " +:+ href_attr "/docs/a.pdf" +:+ ">") = ["/docs/a.pdf"]
  /\ extractPDFUrls ("<a " +:+ href_attr "/docs/a.html" +:+ ">") = []
  /\ extractPDFUrls (href_attr "a.pdf" +:+ href_attr "b.pdfx" +:+ " "
                     +:+ href_attr "c.pdf.pdf" +:+ "href=" +:+ href_attr "d.pdf")
     = ["a.pdf"; "c.pdf.pdf"; "d.pdf"]
  /\ extractPDFUrls ("href=" +:+ String dquote "e.pdf") = [].
Proof. by vm_compute. Qed.

(** * Further properties of the functions of [main.go] *)

(** ** [getFilename] and [getFileExtension] *)

Lemma after_last_sep_has_no_sep s : Filepath.has_sep (Filepath.after_last_sep s) = false.
Proof.
  induction s as [|c s IH]; [done|]. simpl.
  destruct (Filepath.has_sep s) eqn:Hs; [done|].
  destruct (Filepath.is_sep c) eqn:Hc; [done|]. simpl. by rewrite Hc, Hs.
Qed.

Lemma Base_cases path :
  Filepath.Base path = "." \/ Filepath.Base path = "/"
  \/ (Filepath.Base path = Filepath.after_last_sep (Filepath.strip_trailing_sep path)
      /\ Filepath.Base path <> "").
Proof.
  unfold Filepath.Base. destruct path as [|c p]; [by left|].
  destruct (Filepath.after_last_sep _) eqn:E; [by right; left|].
  by right; right.
Qed.

(** X1. [getFilename] never returns the empty string; its result holds a
    separator only when it is the root "/"; and applying it again
    changes nothing. *)
Theorem getFilename_is_one_element (path : string) :
  getFilename path <> ""
  /\ (Filepath.has_sep (getFilename path) = true -> getFilename path = "/")
  /\ getFilename (getFilename path) = getFilename path.
Proof.
  unfold getFilename.
  destruct (Base_cases path) as [->|[->|[E Hne]]]; [done..|].
  assert (Filepath.has_sep (Filepath.Base path) = false) as Hs
    by (rewrite E; apply after_last_sep_has_no_sep).
  split; [done|]. split; [by rewrite Hs|]. by apply Base_no_sep.
Qed.

Lemma Ext_suffix path : exists pre, path = pre +:+ Filepath.Ext path.
Proof.
  induction path as [|c p [pre IH]]; [by exists ""|]. simpl.
  destruct (Filepath.Ext p) as [|d e] eqn:E.
  - destruct (byte_eqb c "." && negb (Filepath.has_sep p)).
    + by exists "".
    + exists (String c p). by rewrite str_app_nil_r.
  - exists (String c pre). simpl. by rewrite <- IH.
Qed.

Lemma Ext_shape path :
  Filepath.Ext path = ""
  \/ (head_is (fun c => byte_eqb c ".") (Filepath.Ext path) = true
      /\ count_byte "." (Filepath.Ext path) = 1
      /\ Filepath.has_sep (Filepath.Ext path) = false).
Proof.
  induction path as [|c p IH]; [by left|]. simpl.
  destruct (Filepath.Ext p) as [|d e] eqn:E; [|done].
  destruct (byte_eqb c ".") eqn:Hc; simpl; [|by left].
  destruct (Filepath.has_sep p) eqn:Hs; simpl; [by left|].
  right. split; [exact Hc|]. split.
  - simpl. rewrite Hc. f_equal.
    clear IH Hc. induction p as [|a p IH]; [done|]. simpl in *.
    apply orb_false_elim in Hs as [Ha Hs].
    destruct (Filepath.Ext p) eqn:Ep; [|done].
    destruct (byte_eqb a "."); simpl in *; [by rewrite Hs in E|]. auto.
  - simpl. rewrite Hs. apply byte_eqb_eq in Hc as ->. done.
Qed.

Lemma Ext_after_last_sep path :
  Filepath.Ext path = Filepath.Ext (Filepath.after_last_sep path).
Proof.
  induction path as [|c p IH]; [done|].
  change (Filepath.after_last_sep (String c p))
    with (if Filepath.has_sep p then Filepath.after_last_sep p
          else if Filepath.is_sep c then p else String c p).
  destruct (Filepath.has_sep p) eqn:Hs.
  - rewrite <- IH. simpl. rewrite Hs, andb_false_r. by destruct (Filepath.Ext p).
  - destruct (Filepath.is_sep c) eqn:Hc; [|done].
    simpl. unfold Filepath.is_sep in Hc. apply byte_eqb_eq in Hc as ->.
    by destruct (Filepath.Ext p).
Qed.

Lemma Ext_empty_no_sep s :
  Filepath.has_sep s = false -> Filepath.Ext s = "" -> count_byte "." s = 0.
Proof.
  induction s as [|c s IH]; [done|]. simpl. intros [Hc Hs]%orb_false_elim.
  destruct (Filepath.Ext s) eqn:E; [|done]. rewrite Hs. simpl.
  destruct (byte_eqb c "."); [done|]. intros _. simpl. auto.
Qed.

(** X2. [getFileExtension] returns a suffix of the path; the suffix
    is empty exactly when the text after the last separator holds no
    dot; when it is not empty it starts with a dot, holds no other dot
    and no separator. *)
Theorem getFileExtension_is_last_dot_suffix (path : string) :
  (exists pre, path = pre +:+ getFileExtension path)
  /\ (getFileExtension path = ""
      <-> count_byte "." (Filepath.after_last_sep path) = 0)
  /\ (getFileExtension path <> "" ->
      head_is (fun c => byte_eqb c ".") (getFileExtension path) = true
      /\ count_byte "." (getFileExtension path) = 1
      /\ Filepath.has_sep (getFileExtension path) = false).
Proof.
  unfold getFileExtension. split; [apply Ext_suffix|]. split.
  - rewrite Ext_after_last_sep. split.
    + apply Ext_empty_no_sep, after_last_sep_has_no_sep.
    + apply Ext_no_dot.
  - intros Hne. by destruct (Ext_shape path).
Qed.

(** ** [removeSubstring] with any substring *)

Lemma removeSubstring_hit r t :
  r <> "" -> removeSubstring (r +:+ t) r = removeSubstring t r.
Proof.
  intros Hr. destruct r as [|a r]; [done|].
  unfold removeSubstring, Strings.ReplaceAll.
  change (String a r +:+ t) with (String a (r +:+ t)).
  rewrite (scan_hit _ _ _ _ (String.length r)).
  - simpl drop_bytes. by rewrite drop_bytes_app.
  - unfold Strings.literal_at.
    change (String a (r +:+ t)) with (String a r +:+ t).
    by rewrite HasPrefix_app.
Qed.

Lemma removeSubstring_miss c t r :
  r <> "" -> Strings.HasPrefix (String c t) r = false ->
  removeSubstring (String c t) r = String c (removeSubstring t r).
Proof.
  intros Hr H. destruct r as [|a r]; [done|].
  unfold removeSubstring, Strings.ReplaceAll.
  rewrite scan_miss; [done|]. unfold Strings.literal_at. by rewrite H.
Qed.

Lemma removeSubstring_ind (r : string) (P : string -> string -> Prop) :
  r <> "" ->
  P "" "" ->
  (forall t, P t (removeSubstring t r) -> P (r +:+ t) (removeSubstring t r)) ->
  (forall c t, Strings.HasPrefix (String c t) r = false ->
               P t (removeSubstring t r) -> P (String c t) (String c (removeSubstring t r))) ->
  forall s, P s (removeSubstring s r).
Proof.
  intros Hr Hnil Hhit Hmiss s.
  remember (String.length s) as n eqn:Hn.
  revert s Hn. induction (lt_wf n) as [n _ IH]. intros s ->.
  destruct s as [|c s]; [by destruct r|].
  destruct (Strings.HasPrefix (String c s) r) eqn:Hp.
  - apply HasPrefix_inv in Hp. rewrite Hp, removeSubstring_hit by done. apply Hhit.
    apply (IH (String.length (drop_bytes (String.length r) (String c s)))); [|done].
    rewrite drop_bytes_length. destruct r; [done|]. simpl. lia.
  - rewrite removeSubstring_miss by done. apply Hmiss; [done|].
    apply (IH (String.length s)); simpl; [lia|done].
Qed.

Lemma removeSubstring_empty s : removeSubstring s "" = s.
Proof.
  unfold removeSubstring, Strings.ReplaceAll.
  induction s as [|c s IH]; [done|]. simpl. by rewrite IH.
Qed.

Lemma removeSubstring_length s r :
  String.length (removeSubstring s r) <= String.length s.
Proof.
  destruct (decide (r = "")) as [->|Hr]; [by rewrite removeSubstring_empty|].
  apply (removeSubstring_ind r (fun s q => String.length q <= String.length s)); [done..| |].
  - intros t IH. rewrite str_app_length. lia.
  - intros c t _ IH. simpl. lia.
Qed.

(** X3. [removeSubstring] never lengthens its input; it returns the
    input unchanged exactly when the substring is empty or does not
    occur in it; and every byte of the result satisfies what every byte
    of the input satisfies. *)
Theorem removeSubstring_fixed_iff (input toRemove : string) :
  String.length (removeSubstring input toRemove) <= String.length input
  /\ (removeSubstring input toRemove = input
      <-> toRemove = "" \/ Strings.Contains input toRemove = false)
  /\ (forall p, all_bytes p input = true ->
                all_bytes p (removeSubstring input toRemove) = true).
Proof.
  split; [apply removeSubstring_length|].
  destruct (decide (toRemove = "")) as [->|Hr].
  { rewrite removeSubstring_empty. split; [split; auto|done]. }
  split.
  - assert (removeSubstring input toRemove = input
            <-> Strings.Contains input toRemove = false) as ->.
    2:{ split; [auto|]. by intros [?|?]. }
    apply (removeSubstring_ind toRemove
             (fun s q => q = s <-> Strings.Contains s toRemove = false)); [done| | |].
    + destruct toRemove; [done|]. done.
    + intros t _. split.
      * intros E. pose proof (removeSubstring_length t toRemove) as Hl.
        rewrite E, str_app_length in Hl. destruct toRemove; [done|]. simpl in Hl. lia.
      * destruct toRemove as [|a r]; [done|].
        change (String a r +:+ t) with (String a (r +:+ t)).
        rewrite Contains_cons.
        change (String a (r +:+ t)) with (String a r +:+ t).
        by rewrite HasPrefix_app.
    + intros c t Hp IH. rewrite Contains_cons, Hp. simpl. rewrite <- IH.
      split; [by intros [=]|by intros ->].
  - intros p.
    apply (removeSubstring_ind toRemove
             (fun s q => all_bytes p s = true -> all_bytes p q = true)); [done..| |].
    + intros t IH H. rewrite all_bytes_app in H. apply andb_prop in H as [_ H]. auto.
    + intros c t _ IH H. simpl in *. apply andb_prop in H as [-> H]. auto.
Qed.

(** ** More on [urlToFilename] *)

Lemma strip_trailing_sep_slash x :
  Filepath.strip_trailing_sep (x +:+ "/") = Filepath.strip_trailing_sep x.
Proof.
  induction x as [|c x IH]; [done|]. simpl. by rewrite IH.
Qed.

Lemma lower_byte_idem c : Strings.lower_byte (Strings.lower_byte c) = Strings.lower_byte c.
Proof. by destruct c as [[] [] [] [] [] [] [] []]. Qed.

Lemma lower_byte_high c :
  ~ (Utf8.rune_of_byte c < 128)%Z -> Strings.lower_byte c = c.
Proof.
  destruct c as [[] [] [] [] [] [] [] []]; intros H; try done;
    exfalso; apply H; by vm_compute.
Qed.

(** A string opens with bytes outside ASCII, up to its end or to its
    first byte of ASCII. *)
Lemma first_ascii_byte x :
  Strings.lower_ascii x = x
  \/ exists a c b,
       x = a +:+ String c b /\ Strings.lower_ascii a = a
       /\ (Utf8.rune_of_byte c < 128)%Z.
Proof.
  induction x as [|c x IH]; [by left|].
  destruct (decide (Utf8.rune_of_byte c < 128)%Z) as [Hc|Hc].
  - right. by exists "", c, x.
  - destruct IH as [IH|(a & d & b & -> & Ha & Hd)].
    + left. simpl. by rewrite lower_byte_high, IH.
    + right. exists (String c a), d, b. split; [done|]. split; [|done].
      simpl. by rewrite lower_byte_high, Ha.
Qed.

(** Lowering does not see the case of the letters of ASCII. *)
Lemma ToLower_lower_ascii tbl x :
  Strings.ToLower tbl (Strings.lower_ascii x) = Strings.ToLower tbl x.
Proof.
  remember (String.length x) as n eqn:Hn. revert x Hn.
  induction (lt_wf n) as [n _ IH]. intros x ->.
  destruct (first_ascii_byte x) as [->|(a & c & b & -> & Ha & Hc)]; [done|].
  rewrite lower_ascii_app. simpl Strings.lower_ascii. rewrite Ha.
  rewrite !ToLower_app by (done || by apply lower_byte_ascii).
  rewrite lower_byte_idem. rewrite (IH (String.length b)); [done| |done].
  rewrite str_app_length. simpl. lia.
Qed.

Lemma Base_slash y : y <> "" -> Filepath.Base (y +:+ "/") = Filepath.Base y.
Proof.
  intros Hy. unfold Filepath.Base. rewrite strip_trailing_sep_slash. by destruct y.
Qed.

(** X4. Whatever the case tables, [urlToFilename] gives the same name
    with and without a trailing slash, and the same name when the
    capital letters of ASCII in the URL are replaced by their small
    letters, every other byte left as it is. *)
Theorem urlToFilename_ignores_case_and_trailing_slash (tbl : Z -> Z) (rawURL : string) :
  urlToFilename tbl (rawURL +:+ "/") = urlToFilename tbl rawURL
  /\ urlToFilename tbl (Strings.lower_ascii rawURL) = urlToFilename tbl rawURL.
Proof.
  split.
  - unfold urlToFilename, getFilename.
    rewrite (ToLower_app tbl rawURL "/" "") by by vm_compute.
    change (String (Strings.lower_byte "/") (Strings.ToLower tbl "")) with "/".
    destruct (Strings.ToLower tbl rawURL) as [|c y]; [reflexivity|].
    by rewrite Base_slash.
  - unfold urlToFilename. by rewrite ToLower_lower_ascii.
Qed.

Lemma lower_ascii_length s : String.length (Strings.lower_ascii s) = String.length s.
Proof. induction s as [|c s IH]; [done|]. simpl. by rewrite IH. Qed.

Lemma underscore_non_alnum_length s :
  String.length (underscore_non_alnum s) = String.length s.
Proof. induction s as [|c s IH]; [done|]. simpl. by rewrite IH. Qed.

Lemma collapse_length s : String.length (collapse s) <= String.length s.
Proof.
  induction s as [|c s IH]; [done|]. simpl.
  destruct (is_underscore c && head_is is_underscore s); simpl; lia.
Qed.

Lemma TrimRight_length s cutset :
  String.length (Strings.TrimRight s cutset) <= String.length s.
Proof.
  induction s as [|c s IH]; [done|]. rewrite TrimRight_cons.
  destruct (Strings.TrimRight s cutset).
  - destruct (Strings.mem_byte c cutset); simpl; lia.
  - simpl in *. lia.
Qed.

Lemma strip_trailing_sep_length s :
  String.length (Filepath.strip_trailing_sep s) <= String.length s.
Proof.
  induction s as [|c s IH]; [done|]. simpl.
  destruct (Filepath.strip_trailing_sep s).
  - destruct (Filepath.is_sep c); simpl; lia.
  - simpl in *. lia.
Qed.

Lemma after_last_sep_length s :
  String.length (Filepath.after_last_sep s) <= String.length s.
Proof.
  induction s as [|c s IH]; [done|]. simpl.
  destruct (Filepath.has_sep s); [lia|]. destruct (Filepath.is_sep c); simpl; lia.
Qed.

Lemma stem_length tbl x :
  Strings.is_ascii x = true -> String.length (stem tbl x) <= String.length x.
Proof.
  intros Hx. rewrite stem_unfold. unfold getFilename. rewrite ToLower_ascii by done.
  destruct (Base_cases (Strings.lower_ascii x)) as [->|[->|[E _]]]; [simpl; lia..|].
  rewrite E.
  etransitivity; [apply rm_length|].
  etransitivity; [apply TrimRight_length|].
  etransitivity; [apply drop_while_length|].
  etransitivity; [apply collapse_length|].
  rewrite underscore_non_alnum_length.
  etransitivity; [apply after_last_sep_length|].
  etransitivity; [apply strip_trailing_sep_length|].
  by rewrite lower_ascii_length.
Qed.

(** X5. The stem that [urlToFilename] builds, also after the removal
    of _pdf, holds no two underscores in a row and none at either end;
    and for a URL of ASCII the name is at most four bytes longer than
    the URL. *)
Theorem urlToFilename_stem_is_tidy (tbl : Z -> Z) (rawURL : string) :
  urlToFilename tbl rawURL = stem tbl rawURL +:+ ".pdf"
  /\ no_double_underscore (stem tbl rawURL) = true
  /\ head_is is_underscore (stem tbl rawURL) = false
  /\ last_is is_underscore (stem tbl rawURL) = false
  /\ (Strings.is_ascii rawURL = true ->
      String.length (urlToFilename tbl rawURL) <= String.length rawURL + 4).
Proof.
  split; [apply urlToFilename_stem|].
  destruct (tidy_inv _ (stem_tidy tbl rawURL)) as (? & ? & ?).
  repeat (split; [done|]).
  intros Ha. rewrite urlToFilename_stem, str_app_length.
  pose proof (stem_length tbl rawURL Ha). simpl. lia.
Qed.

Lemma urlToFilename_stem_is_tidy_witness :
  let name := urlToFilename Unicode.example_table "/Docs/SDS__Sheet_.PDF" in
  name = "sds_sheet.pdf" /\ String.length name <= 21 + 4.
Proof.
  pose proof (urlToFilename_stem_is_tidy Unicode.example_table "/Docs/SDS__Sheet_.PDF")
    as (_ & _ & _ & _ & H).
  split; [reflexivity|]. exact (H eq_refl).
Defined.

(** ** The target path *)

Lemma split_sep_not_nil s : Filepath.split_sep s <> [].
Proof.
  destruct s as [|c s]; [done|]. simpl.
  destruct (Filepath.is_sep c); [done|]. by destruct (Filepath.split_sep s).
Qed.

Lemma split_sep_no_sep f : Filepath.has_sep f = false -> Filepath.split_sep f = [f].
Proof.
  induction f as [|c f IH]; [done|]. simpl. intros [Hc Hf]%orb_false_elim.
  by rewrite Hc, IH.
Qed.

Lemma split_sep_app a t :
  Filepath.split_sep (a +:+ "/" +:+ t) = Filepath.split_sep a ++ Filepath.split_sep t.
Proof.
  induction a as [|c a IH]; [done|]. simpl in *. rewrite IH.
  destruct (Filepath.is_sep c); [done|].
  pose proof (split_sep_not_nil a). by destruct (Filepath.split_sep a).
Qed.

Lemma join_sep_snoc l f :
  Filepath.join_sep (l ++ [f]) =
  match l with
  | [] => f
  | _ => Filepath.join_sep l +:+ "/" +:+ f
  end.
Proof.
  induction l as [|e l IH]; [done|]. simpl.
  destruct l as [|e' l]; [done|]. simpl in *. by rewrite IH, !str_app_assoc.
Qed.

(** The directory part of the paths that [Join] builds under
    [outputDir]. *)
Lemma Join_prefix outputDir :
  exists prefix,
    (prefix = "" \/ last_is Filepath.is_sep prefix = true)
    /\ forall f, f <> "" -> f <> "." -> f <> ".." -> Filepath.has_sep f = false ->
                 Filepath.Join outputDir f = prefix +:+ f.
Proof.
  destruct outputDir as [|c a].
  - exists "". split; [by left|]. intros f H0 H1 H2 Hs.
    unfold Filepath.Join. destruct f as [|d f]; [done|].
    unfold Filepath.Clean. rewrite split_sep_no_sep by done. simpl in Hs.
    apply orb_false_elim in Hs as [Hd Hs]. rewrite Hd. simpl.
    unfold Filepath.clean_step. rewrite decide_False by (intros [?|?]; done).
    by rewrite decide_False by done.
  - set (rooted := Filepath.is_sep c).
    set (st := fold_left (Filepath.clean_step rooted) (Filepath.split_sep (String c a)) []).
    exists ((if rooted then "/" else "") +:+
            match rev st with [] => "" | l => Filepath.join_sep l +:+ "/" end).
    split.
    + destruct (rev st) as [|e l].
      * destruct rooted; [by right|by left].
      * right. rewrite <- str_app_assoc.
        by rewrite (last_is_app _ _ "/" "").
    + intros f H0 H1 H2 Hs. unfold Filepath.Join, Filepath.Clean.
      change (match String c a +:+ "/" +:+ f with
              | String c0 _ => Filepath.is_sep c0 | EmptyString => false end) with rooted.
      rewrite split_sep_app, fold_left_app, (split_sep_no_sep f) by done.
      fold st. simpl fold_left. unfold Filepath.clean_step at 1.
      rewrite decide_False by (intros [?|?]; done).
      rewrite decide_False by done.
      simpl rev. rewrite join_sep_snoc.
      destruct (rev st) as [|e l].
      * destruct rooted; destruct f; done.
      * rewrite <- !str_app_assoc.
        destruct ((((if rooted then "/" else "") +:+ Filepath.join_sep (e :: l)) +:+ "/") +:+ f) eqn:E; [|done].
        apply (f_equal String.length) in E. rewrite !str_app_length in E.
        simpl in E. lia.
Qed.

Lemma urlToFilename_plain_name tbl u :
  urlToFilename tbl u <> "" /\ urlToFilename tbl u <> "." /\ urlToFilename tbl u <> ".."
  /\ Filepath.has_sep (urlToFilename tbl u) = false.
Proof.
  rewrite urlToFilename_stem.
  assert (forall s, String.length (s +:+ ".pdf") >= 4) as Hl
    by (intros s; rewrite str_app_length; simpl; lia).
  repeat split; try (intros E; specialize (Hl (stem tbl u)); rewrite E in Hl; simpl in Hl; lia).
  by rewrite has_sep_app, safe_no_sep by apply stem_safe.
Qed.

Lemma str_app_inj_l (p s t : string) : p +:+ s = p +:+ t -> s = t.
Proof. induction p as [|c p IH]; [done|]. simpl. intros [= H]. auto. Qed.

(** X6. Under one output directory every target path is one fixed
    directory prefix (empty, or ending in a separator) followed by the
    sanitized name: the base name of the path is that name, and two
    URLs have the same path only when they have the same name. *)
Theorem target_path_stays_in_outputDir (tbl : Z -> Z) (outputDir : string) :
  exists prefix,
    (prefix = "" \/ last_is Filepath.is_sep prefix = true)
    /\ forall finalURL,
         Filepath.Join outputDir (urlToFilename tbl finalURL) = prefix +:+ urlToFilename tbl finalURL
         /\ getFilename (Filepath.Join outputDir (urlToFilename tbl finalURL))
            = urlToFilename tbl finalURL
         /\ forall otherURL,
              Filepath.Join outputDir (urlToFilename tbl finalURL)
              = Filepath.Join outputDir (urlToFilename tbl otherURL) ->
              urlToFilename tbl finalURL = urlToFilename tbl otherURL.
Proof.
  destruct (Join_prefix outputDir) as (prefix & Hp & HJ).
  exists prefix. split; [done|]. intros u.
  destruct (urlToFilename_plain_name tbl u) as (H0 & H1 & H2 & Hs).
  rewrite HJ by done. split; [done|]. split.
  2:{ intros u'. destruct (urlToFilename_plain_name tbl u') as (? & ? & ? & ?).
      rewrite HJ by done. apply str_app_inj_l. }
  unfold getFilename.
  destruct Hp as [->|Hl]; [by apply Base_no_sep|].
  assert (exists d, prefix = d +:+ "/") as [d ->].
  { clear HJ. induction prefix as [|c p IH]; [done|]. rewrite last_is_cons in Hl.
    destruct p as [|c' p].
    - apply byte_eqb_eq in Hl as ->. by exists "".
    - destruct (IH Hl) as [d Hd]. exists (String c d). simpl. by rewrite <- Hd. }
  rewrite str_app_assoc. by apply Base_last_segment.
Qed.

(** ** A cleaned path is clean *)

Lemma split_sep_elements p :
  Forall (fun e => Filepath.has_sep e = false) (Filepath.split_sep p).
Proof.
  induction p as [|c p IH]; [by repeat constructor|]. simpl.
  destruct (Filepath.is_sep c) eqn:Hc; [by constructor|].
  destruct (Filepath.split_sep p) as [|e es].
  - repeat constructor. simpl. by rewrite Hc.
  - inversion IH as [|? ? He Hes]; subst. constructor; [|done].
    simpl. by rewrite Hc, He.
Qed.

Lemma clean_step_kept rooted stack e :
  kept_stack rooted stack -> Filepath.has_sep e = false ->
  kept_stack rooted (Filepath.clean_step rooted stack e).
Proof.
  intros Hs He. unfold Filepath.clean_step.
  case_decide as E1; [done|]. case_decide as E2.
  - subst e. destruct stack as [|top stack].
    + destruct rooted; [done|]. simpl. by repeat split.
    + destruct Hs as (Hp & Hd & Hs). case_decide as Et; [|done].
      subst top. destruct (Hd eq_refl) as [Hr Hf].
      simpl. repeat split; auto.
  - simpl. repeat split; (tauto || done).
Qed.

Lemma fold_clean_step_kept rooted l stack :
  kept_stack rooted stack -> Forall (fun e => Filepath.has_sep e = false) l ->
  kept_stack rooted (fold_left (Filepath.clean_step rooted) l stack).
Proof.
  revert stack. induction l as [|e l IH]; intros stack Hs Hl; [done|].
  inversion Hl; subst. simpl. apply IH; [|done]. by apply clean_step_kept.
Qed.

Lemma kept_stack_app rooted l stack :
  kept_stack rooted (l ++ stack) -> kept_stack rooted stack.
Proof. induction l as [|e l IH]; [done|]. simpl. intros (_ & _ & H). auto. Qed.

(** Cleaning the kept elements again keeps them all. *)
Lemma fold_clean_step_fixed rooted es stack :
  kept_stack rooted (rev es ++ stack) ->
  fold_left (Filepath.clean_step rooted) es stack = rev es ++ stack.
Proof.
  revert stack. induction es as [|e es IH]; intros stack H; [done|].
  simpl in *. rewrite <- app_assoc in H. simpl in H.
  apply kept_stack_app in H as He. destruct He as ((H0 & H1 & _) & Hd & _).
  assert (Filepath.clean_step rooted stack e = e :: stack) as ->.
  { unfold Filepath.clean_step.
    rewrite decide_False by (intros [?|?]; done).
    case_decide as E; [|done]. destruct (Hd E) as [-> Hf].
    destruct stack as [|top stack]; [done|].
    inversion Hf; subst. by rewrite decide_True. }
  rewrite IH by done. by rewrite <- app_assoc.
Qed.

Lemma join_sep_cons e es :
  es <> [] -> Filepath.join_sep (e :: es) = e +:+ "/" +:+ Filepath.join_sep es.
Proof. by destruct es. Qed.

Lemma split_join_sep es :
  es <> [] -> Forall (fun e => Filepath.has_sep e = false) es ->
  Filepath.split_sep (Filepath.join_sep es) = es.
Proof.
  induction es as [|e es IH]; [done|]. intros _ H. inversion H; subst.
  destruct es as [|e' es]; [by apply split_sep_no_sep|].
  rewrite join_sep_cons by done. rewrite split_sep_app, split_sep_no_sep by done.
  by rewrite IH.
Qed.

Lemma kept_stack_elements rooted stack :
  kept_stack rooted stack -> Forall plain_element stack.
Proof.
  induction stack as [|e stack IH]; [done|]. intros (? & _ & ?). constructor; auto.
Qed.

Lemma join_sep_head e es :
  e <> "" ->
  match Filepath.join_sep (e :: es) with
  | String c _ => Filepath.is_sep c
  | EmptyString => false
  end = match e with String c _ => Filepath.is_sep c | EmptyString => false end.
Proof.
  intros He. destruct es as [|e' es]; [done|]. rewrite join_sep_cons by done.
  by destruct e.
Qed.

Lemma Clean_idem path : Filepath.Clean (Filepath.Clean path) = Filepath.Clean path.
Proof.
  unfold Filepath.Clean at 2 3.
  set (rooted := match path with String c _ => Filepath.is_sep c | EmptyString => false end).
  set (stack := fold_left (Filepath.clean_step rooted) (Filepath.split_sep path) []).
  assert (kept_stack rooted stack) as Hk
    by (apply fold_clean_step_kept; [done|apply split_sep_elements]).
  assert (Forall (fun e => Filepath.has_sep e = false) (rev stack)) as Hsep.
  { apply Forall_rev. eapply Forall_impl; [by apply (kept_stack_elements rooted)|].
    by intros e (_ & _ & ?). }
  assert (fold_left (Filepath.clean_step rooted) (rev stack) [] = stack) as Hfix.
  { rewrite fold_clean_step_fixed; rewrite rev_involutive, ?app_nil_r; done. }
  destruct (rev stack) as [|e es] eqn:Er.
  - destruct rooted; reflexivity.
  - assert (plain_element e) as (He0 & _ & Hes).
    { pose proof (Forall_rev (kept_stack_elements _ _ Hk)) as Hall.
      rewrite Er in Hall. by inversion Hall. }
    destruct rooted.
    + change ("/" +:+ Filepath.join_sep (e :: es))
        with (String "/" (Filepath.join_sep (e :: es))).
      cbv iota. unfold Filepath.Clean.
      change (Filepath.split_sep (String "/" (Filepath.join_sep (e :: es))))
        with ("" :: Filepath.split_sep (Filepath.join_sep (e :: es))).
      change (Filepath.is_sep "/") with true.
      rewrite split_join_sep by done.
      change (fold_left (Filepath.clean_step true) ("" :: e :: es) [])
        with (fold_left (Filepath.clean_step true) (e :: es) []).
      by rewrite Hfix, Er.
    + change ("" +:+ Filepath.join_sep (e :: es)) with (Filepath.join_sep (e :: es)).
      destruct (Filepath.join_sep (e :: es)) as [|c s] eqn:Ej.
      { destruct es; simpl in Ej; [done|]. by destruct e. }
      rewrite <- Ej. unfold Filepath.Clean.
      pose proof (join_sep_head e es He0) as Hh. rewrite Ej in Hh.
      assert (match Filepath.join_sep (e :: es) with
              | String c0 _ => Filepath.is_sep c0 | EmptyString => false end = false) as ->.
      { rewrite Ej, Hh. destruct e as [|c0 e]; [done|]. simpl in Hes.
        by apply orb_false_elim in Hes as [? _]. }
      rewrite split_join_sep by done. rewrite Hfix, Er.
      change ("" +:+ Filepath.join_sep (e :: es)) with (Filepath.join_sep (e :: es)).
      by rewrite Ej.
Qed.

Lemma Clean_nonempty path : Filepath.Clean path <> "".
Proof.
  unfold Filepath.Clean. by destruct (_ +:+ _).
Qed.

Lemma Clean_Join a b : b <> "" -> Filepath.Clean (Filepath.Join a b) = Filepath.Join a b.
Proof.
  intros Hb. unfold Filepath.Join. destruct a, b; try done; apply Clean_idem.
Qed.

Example Clean_examples :
  map Filepath.Clean ["PDFs/"; "./PDFs//x.pdf"; "a/b/../c"; "/../a"; ""; "../../x"; "a/.."]
  = ["PDFs"; "PDFs/x.pdf"; "a/c"; "/a"; "."; "../../x"; "."]
  /\ map Filepath.Dir ["PDFs/doc.pdf"; "nclonline.html"; "/x"; "a/b/c"; "PDFs"]
     = ["PDFs"; "."; "/"; "a/b"; "."].
Proof. split; reflexivity. Qed.

(** ** The target path of a download *)

Lemma target_prefix (env : Env) (outputDir : string) :
  exists prefix,
    forall finalURL,
      target env outputDir finalURL = prefix +:+ urlToFilename (case_table env) finalURL.
Proof.
  destruct (Join_prefix outputDir) as (prefix & _ & HJ).
  exists prefix. intros u. unfold target.
  destruct (urlToFilename_plain_name (case_table env) u) as (H0 & H1 & H2 & Hs).
  by apply HJ.
Qed.

Lemma target_length (env : Env) (outputDir finalURL : string) :
  4 <= String.length (target env outputDir finalURL).
Proof.
  destruct (target_prefix env outputDir) as [prefix ->].
  rewrite urlToFilename_stem, !str_app_length. simpl. lia.
Qed.

(** The target is the key of its node: it is clean, and neither the
    working directory nor the root. *)
Lemma target_key (env : Env) (outputDir finalURL : string) :
  os_key (target env outputDir finalURL) = Some (target env outputDir finalURL)
  /\ always_there (target env outputDir finalURL) = false.
Proof.
  pose proof (target_length env outputDir finalURL) as Hl.
  split.
  - unfold os_key. rewrite bool_decide_eq_false_2.
    + f_equal. apply Clean_Join.
      by destruct (urlToFilename_plain_name (case_table env) finalURL).
    + intros E. rewrite E in Hl. simpl in Hl. lia.
  - apply bool_decide_eq_false_2. intros [E|E]; rewrite E in Hl; simpl in Hl; lia.
Qed.

(** ** The download engine *)

(** One step of the evaluation of a run: the next test is decided. *)
Ltac next_case :=
  match goal with
  | |- context [match ?x with _ => _ end] =>
      lazymatch x with
      | context [match _ with _ => _ end] => fail
      | _ => destruct x eqn:?
      end
  end.

Ltac run_cases :=
  repeat (cbn [fs log requests]; rewrite ?lookup_insert_eq; next_case);
  cbn [fs log requests]; rewrite ?lookup_insert_eq.

(** [downloadPDF] with its target path named [t] and the operations of
    the file system unfolded. *)
Ltac download_at env outputDir finalURL t :=
  unfold downloadPDF; rewrite ToLower_urlToFilename;
  fold (target env outputDir finalURL);
  let Hkey := fresh "Hkey" in
  let Hat := fresh "Hat" in
  destruct (target_key env outputDir finalURL) as [Hkey Hat];
  set (t := target env outputDir finalURL) in *; clearbody t;
  unfold fileExists, os_Stat, os_Create, open_for_writing, File_Write, node_at,
    dir_at, node_at, bind, ret, log_Println, http_Get, set_fs;
  cbn beta iota; rewrite ?Hkey, ?Hat; cbn [fs log requests].

(** A call to [downloadPDF] returns; it changes the file system at most
    at its target path, logs one line and makes at most one request,
    for its URL. *)
Lemma downloadPDF_frame (env : Env) (finalURL outputDir : string) (w : world) :
  exists b w',
    downloadPDF env finalURL outputDir w = Done b w'
    /\ (forall p, p <> target env outputDir finalURL -> fs w' !! p = fs w !! p)
    /\ (exists e, log w' = log w ++ [e])
    /\ (requests w' = requests w \/ requests w' = requests w ++ [finalURL]).
Proof.
  download_at env outputDir finalURL t.
  run_cases.
  all: eexists _, _; (split; [reflexivity|]); cbn [fs log requests].
  all: split; [intros ? ?; by rewrite ?lookup_insert_ne by done|].
  all: split; [eauto|auto].
Qed.

Lemma downloadPDF_existing (env : Env) (finalURL outputDir : string)
    (w : world) (n : node) :
  stat_works env (target env outputDir finalURL) ->
  fs w !! target env outputDir finalURL = Some n -> IsDir n = false ->
  downloadPDF env finalURL outputDir w =
  Done false
    (World (fs w) (log w ++ [LogSkipExisting (target env outputDir finalURL)])
       (requests w)).
Proof.
  unfold stat_works. download_at env outputDir finalURL t.
  intros -> -> ->. reflexivity.
Qed.

(** What a successful call has done. *)
Lemma downloadPDF_success (env : Env) (finalURL outputDir : string) (w w' : world) :
  downloadPDF env finalURL outputDir w = Done true w' ->
  let t := target env outputDir finalURL in
  exists resp,
    net env (requests w) finalURL = GetOk resp
    /\ body_data (resp_Body resp) <> ""
    /\ requests w' = requests w ++ [finalURL]
    /\ log w' =
       log w ++ [LogSuccess (String.length (body_data (resp_Body resp))) finalURL t]
    /\ (fs w' = <[t := File (body_data (resp_Body resp))]> (fs w)
        \/ fs w !! t = Some Special /\ fs w' = fs w)
    /\ (stat_works env t ->
        fs w !! t = None /\ dir_at (fs w) (Filepath.Dir t) = true
        /\ fs w' = <[t := File (body_data (resp_Body resp))]> (fs w)).
Proof.
  unfold stat_works. download_at env outputDir finalURL t.
  run_cases; intros [= <-]; cbn [fs log requests].
  all: simplify_eq/=.
  all: eexists; split; [reflexivity|].
  all: split;
    [ match goal with
      | H : bool_decide (String.length _ = 0) = false |- _ =>
          apply bool_decide_eq_false in H; intros Hd; by rewrite Hd in H
      end | ].
  all: split; [done|]. all: split; [done|].
  all: rewrite ?insert_insert_eq.
  all: split; [auto | try done].
  all: intros ?; simplify_eq/=; try done.
  all: unfold dir_at, node_at.
  all: repeat match goal with H : _ = _ |- _ => rewrite H end; try done.
Qed.

(** C6, as stated, fails when [os.Stat] fails. In an output directory
    that cannot be searched the document is there, [fileExists] answers
    false because of the error, and [downloadPDF] requests the URL
    before it fails to create the file. *)
Lemma downloadPDF_requests_when_stat_fails :
  let u := "https://www.nclonline.com/a/doc.pdf" in
  let w := stocked_world "%PDF-1.4" in
  fs w !! target no_access_env "PDFs/" u = Some (File "%PDF-1.4")
  /\ downloadPDF no_access_env u "PDFs/" w =
     Done false (World (fs w) [LogCreateFailed u "permission denied"] [u]).
Proof. by vm_compute. Qed.

(** C6, amended. When [os.Stat] does not fail on the joined path of the
    output directory and the target filename, and that path names
    anything but a directory, [downloadPDF] returns false after logging
    the skip: no request has been made and the file system is as it
    was. *)
Theorem downloadPDF_skips_existing_file (env : Env) (finalURL outputDir : string)
    (w : world) (n : node) :
  stat_works env (target env outputDir finalURL) ->
  fs w !! target env outputDir finalURL = Some n -> IsDir n = false ->
  downloadPDF env finalURL outputDir w =
  Done false
    (World (fs w) (log w ++ [LogSkipExisting (target env outputDir finalURL)])
       (requests w)).
Proof. apply downloadPDF_existing. Qed.

Lemma downloadPDF_skips_existing_file_witness :
  let w := stocked_world "%PDF-1.4" in
  downloadPDF online_env "https://www.nclonline.com/a/doc.pdf" "PDFs/" w =
  Done false (World (fs w) [LogSkipExisting "PDFs/doc.pdf"] []).
Proof.
  intros w.
  exact (downloadPDF_skips_existing_file online_env
           "https://www.nclonline.com/a/doc.pdf" "PDFs/" w (File "%PDF-1.4")
           eq_refl eq_refl eq_refl).
Defined.

(** C10, as stated, fails when [os.Stat] fails and [os.Create] does
    not: [fileExists] answers false, and the document that is at the
    target path is replaced by the body of the response. *)
Lemma downloadPDF_overwrites_when_stat_fails :
  let u := "https://www.nclonline.com/a/doc.pdf" in
  let w := stocked_world "an older document" in
  fs w !! target blind_env "PDFs/" u = Some (File "an older document")
  /\ downloadPDF blind_env u "PDFs/" w =
     Done true
       (World {[ "PDFs" := Dir; "PDFs/doc.pdf" := File "%PDF-1.4" ]}
          [LogSuccess 8 u "PDFs/doc.pdf"] [u]).
Proof. by vm_compute. Qed.

(** C10, amended. A call to [downloadPDF] returns. When [os.Stat] does
    not fail on the target path
    [filepath.Join(outputDir, urlToFilename(finalURL))]: if the path
    names a file the call fails and leaves the file system as it was;
    and a call that succeeds found nothing at the path and has created
    one file there, not empty. No call, whatever [os.Stat] does,
    changes any other path. *)
Theorem downloadPDF_never_overwrites (env : Env) (finalURL outputDir : string)
    (w : world) :
  let filePath := target env outputDir finalURL in
  (exists b w', downloadPDF env finalURL outputDir w = Done b w')
  /\ (forall n b w',
        stat_works env filePath ->
        fs w !! filePath = Some n -> IsDir n = false ->
        downloadPDF env finalURL outputDir w = Done b w' ->
        b = false /\ fs w' = fs w)
  /\ (forall w',
        stat_works env filePath ->
        downloadPDF env finalURL outputDir w = Done true w' ->
        fs w !! filePath = None
        /\ exists data, data <> "" /\ fs w' = <[filePath := File data]> (fs w))
  /\ (forall b w' p,
        downloadPDF env finalURL outputDir w = Done b w' ->
        p <> filePath -> fs w' !! p = fs w !! p).
Proof.
  intros filePath. split; [|split; [|split]].
  - destruct (downloadPDF_frame env finalURL outputDir w) as (b & w' & H & _). eauto.
  - intros n b w' Hs Hf Hn. rewrite (downloadPDF_existing _ _ _ _ _ Hs Hf Hn).
    by intros [= <- <-].
  - intros w' Hs H.
    destruct (downloadPDF_success _ _ _ _ _ H) as (resp & _ & Hd & _ & _ & _ & Hfs).
    destruct (Hfs Hs) as (? & _ & ?). eauto.
  - intros b w' p H Hp.
    destruct (downloadPDF_frame env finalURL outputDir w) as (b0 & w0 & H0 & Hframe & _).
    rewrite H in H0. injection H0 as <- <-. by apply Hframe.
Qed.

Lemma downloadPDF_never_overwrites_witness :
  let u := "https://www.nclonline.com/a/doc.pdf" in
  (forall b w',
     downloadPDF online_env u "PDFs/" (stocked_world "an older document") = Done b w' ->
     b = false /\ fs w' = fs (stocked_world "an older document"))
  /\ (forall w',
        downloadPDF online_env u "PDFs/" ready_world = Done true w' ->
        fs ready_world !! "PDFs/doc.pdf" = None
        /\ exists data, data <> "" /\ fs w' = <["PDFs/doc.pdf" := File data]> (fs ready_world)).
Proof.
  intros u. split.
  - intros b w'.
    exact (proj1 (proj2 (downloadPDF_never_overwrites online_env u "PDFs/"
                           (stocked_world "an older document")))
             (File "an older document") b w' eq_refl eq_refl eq_refl).
  - intros w'.
    exact (proj1 (proj2 (proj2 (downloadPDF_never_overwrites online_env u "PDFs/"
                                  ready_world))) w' eq_refl).
Defined.

(** C7. When the server answers with a content type that holds
    neither application/pdf nor binary/octet-stream, whatever the
    status, or with a body of zero bytes read without error,
    [downloadPDF] returns false, writes nothing and logs one line; when
    [fileExists] has answered false for the target and the status is
    200, that line is the rejection of the content type, respectively
    of the empty body. The call returns: the caller goes on with the
    next URL. *)
Theorem downloadPDF_rejects_invalid_content (env : Env) (finalURL outputDir : string)
    (w : world) (resp : response) :
  net env (requests w) finalURL = GetOk resp ->
  refused_content_type (ContentType resp) = true
  \/ (body_data (resp_Body resp) = "" /\ body_read_err (resp_Body resp) = None) ->
  let filePath := target env outputDir finalURL in
  (exists e rq,
     downloadPDF env finalURL outputDir w = Done false (World (fs w) (log w ++ [e]) rq))
  /\ (fileExists env filePath w = Done false w -> StatusCode resp = StatusOK ->
      refused_content_type (ContentType resp) = true ->
      downloadPDF env finalURL outputDir w =
      Done false
        (World (fs w)
           (log w ++ [LogInvalidContentType finalURL (ContentType resp)])
           (requests w ++ [finalURL])))
  /\ (fileExists env filePath w = Done false w -> StatusCode resp = StatusOK ->
      refused_content_type (ContentType resp) = false ->
      body_data (resp_Body resp) = "" -> body_read_err (resp_Body resp) = None ->
      downloadPDF env finalURL outputDir w =
      Done false
        (World (fs w) (log w ++ [LogZeroBytes finalURL]) (requests w ++ [finalURL]))).
Proof.
  intros Hnet Hbad filePath. unfold refused_content_type in *. subst filePath.
  split; [|split].
  - download_at env outputDir finalURL t. run_cases.
    all: try (eexists _, _; reflexivity).
    all: exfalso; simplify_eq/=.
    all: destruct Hbad as [Hct|[Hd He]]; rewrite ?Hd, ?He in *; simpl in *; congruence.
  - revert Hnet. download_at env outputDir finalURL t.
    intros Hnet Hf Hs Hct. revert Hf. run_cases; intros Hf; simplify_eq/=.
    all: try reflexivity.
    all: try congruence.
    all: exfalso; rewrite (bool_decide_eq_true_2 _ Hs) in *; simpl in *; congruence.
  - revert Hnet. download_at env outputDir finalURL t.
    intros Hnet Hf Hs Hct Hd He. revert Hf. run_cases; intros Hf; simplify_eq/=.
    all: try reflexivity.
    all: try congruence.
    all: exfalso; rewrite ?(bool_decide_eq_true_2 _ Hs), ?Hd in *; simpl in *; congruence.
Qed.

Lemma downloadPDF_rejects_invalid_content_witness :
  downloadPDF online_env "https://www.nclonline.com/index.pdf" "PDFs/" ready_world =
  Done false
    (World (fs ready_world)
       [LogInvalidContentType "https://www.nclonline.com/index.pdf" "text/html"]
       ["https://www.nclonline.com/index.pdf"])
  /\ downloadPDF online_env "https://www.nclonline.com/empty.pdf" "PDFs/" ready_world =
     Done false
       (World (fs ready_world) [LogZeroBytes "https://www.nclonline.com/empty.pdf"]
          ["https://www.nclonline.com/empty.pdf"]).
Proof.
  split.
  - exact (proj1 (proj2 (downloadPDF_rejects_invalid_content online_env
      "https://www.nclonline.com/index.pdf" "PDFs/" ready_world
      (Response 200 "200 OK" "text/html" (Body "<html></html>" None None))
      eq_refl (or_introl eq_refl))) eq_refl eq_refl eq_refl).
  - exact (proj2 (proj2 (downloadPDF_rejects_invalid_content online_env
      "https://www.nclonline.com/empty.pdf" "PDFs/" ready_world
      (pdf_response "") eq_refl (or_intror (conj eq_refl eq_refl))))
      eq_refl eq_refl eq_refl eq_refl eq_refl).
Defined.

(** ** Two URLs with one target *)

(** C4, as stated, fails when the downloads fail, and when [os.Stat]
    fails. With no server in reach, processing /a/doc.pdf and then
    /b/doc.pdf writes no file, and the second is not skipped but
    requested in its turn. With a server in reach and an [os.Stat]
    that fails, the second is requested and written over the first. *)
Lemma same_segment_no_file_when_offline :
  let u1 := "https://www.nclonline.com/a/doc.pdf" in
  let u2 := "https://www.nclonline.com/b/doc.pdf" in
  urlToFilename Unicode.example_table u1 = urlToFilename Unicode.example_table u2
  /\ (downloadPDF offline_env u1 "PDFs/" ;;; downloadPDF offline_env u2 "PDFs/") ready_world
     = Done false
         (World (fs ready_world)
            [LogGetFailed u1 "connection refused"; LogGetFailed u2 "connection refused"]
            [u1; u2])
  /\ (downloadPDF blind_env u1 "PDFs/" ;;; downloadPDF blind_env u2 "PDFs/") ready_world
     = Done true
         (World {[ "PDFs" := Dir; "PDFs/doc.pdf" := File "%PDF-1.4" ]}
            [LogSuccess 8 u1 "PDFs/doc.pdf"; LogSuccess 8 u2 "PDFs/doc.pdf"]
            [u1; u2]).
Proof. by vm_compute. Qed.

(** C4, amended. Two URLs that differ only in what precedes their last
    path segment have the same target filename (the case tables, as
    those of Go do, lower no rune to a separator and drop none). When
    [os.Stat] does not fail on the target and the download of the URL
    processed first succeeds, it has created the file at the target,
    absent before, and the download of the other is skipped with no
    request and no write, because the file exists. Whatever the two
    calls return, they change no other path. *)
Theorem same_segment_one_file (env : Env) (d1 d2 seg outputDir : string) (w : world) :
  Unicode.keeps_segments (case_table env) ->
  seg <> "" -> Filepath.has_sep seg = false ->
  let u1 := d1 +:+ "/" +:+ seg in
  let u2 := d2 +:+ "/" +:+ seg in
  let filePath := target env outputDir u1 in
  urlToFilename (case_table env) u1 = urlToFilename (case_table env) u2
  /\ (forall w1,
        stat_works env filePath ->
        downloadPDF env u1 outputDir w = Done true w1 ->
        fs w !! filePath = None
        /\ (exists data, fs w1 = <[filePath := File data]> (fs w))
        /\ downloadPDF env u2 outputDir w1 =
           Done false
             (World (fs w1) (log w1 ++ [LogSkipExisting filePath]) (requests w1)))
  /\ (forall b1 w1 b2 w2 p,
        downloadPDF env u1 outputDir w = Done b1 w1 ->
        downloadPDF env u2 outputDir w1 = Done b2 w2 ->
        p <> filePath -> fs w2 !! p = fs w !! p).
Proof.
  intros Hk Hne Hsep u1 u2 filePath.
  assert (urlToFilename (case_table env) u1 = urlToFilename (case_table env) u2) as Heq
    by by apply urlToFilename_same_segment.
  assert (target env outputDir u2 = filePath) as Ht
    by (unfold filePath, target; by rewrite Heq).
  split; [done|]. split.
  - intros w1 Hs H1.
    destruct (downloadPDF_success _ _ _ _ _ H1) as (resp & _ & _ & _ & _ & _ & Hfs).
    destruct (Hfs Hs) as (Hn & _ & Hw1). fold filePath in Hn, Hw1.
    split; [done|]. split; [eauto|].
    rewrite <- Ht.
    apply (downloadPDF_existing env u2 outputDir w1 (File (body_data (resp_Body resp)))).
    + by rewrite Ht.
    + rewrite Ht, Hw1. apply lookup_insert_eq.
    + done.
  - intros b1 w1 b2 w2 p H1 H2 Hp.
    destruct (downloadPDF_frame env u1 outputDir w) as (? & ? & E1 & F1 & _).
    destruct (downloadPDF_frame env u2 outputDir w1) as (? & ? & E2 & F2 & _).
    rewrite H1 in E1. injection E1 as <- <-. rewrite H2 in E2. injection E2 as <- <-.
    rewrite F2 by by rewrite Ht. by apply F1.
Qed.

Lemma same_segment_one_file_witness :
  let u1 := "https://www.nclonline.com/a/doc.pdf" in
  let u2 := "https://www.nclonline.com/b/doc.pdf" in
  urlToFilename Unicode.example_table u1 = urlToFilename Unicode.example_table u2
  /\ (downloadPDF online_env u1 "PDFs/" ;;; downloadPDF online_env u2 "PDFs/") ready_world
     = Done false
         (World {[ "PDFs" := Dir; "PDFs/doc.pdf" := File "%PDF-1.4" ]}
            [LogSuccess 8 u1 "PDFs/doc.pdf"; LogSkipExisting "PDFs/doc.pdf"]
            [u1]).
Proof.
  intros u1 u2.
  assert ("doc.pdf" <> "") as Hne by discriminate.
  pose proof (same_segment_one_file online_env "https://www.nclonline.com/a"
                "https://www.nclonline.com/b" "doc.pdf" "PDFs/" ready_world
                example_table_keeps_segments Hne eq_refl) as (Hname & Hrun & _).
  split; [exact Hname|].
  assert (downloadPDF online_env u1 "PDFs/" ready_world =
          Done true (World {[ "PDFs" := Dir; "PDFs/doc.pdf" := File "%PDF-1.4" ]}
                       [LogSuccess 8 u1 "PDFs/doc.pdf"] [u1])) as H1 by by vm_compute.
  specialize (Hrun _ eq_refl H1).
  destruct Hrun as (_ & _ & Hskip).
  unfold bind. rewrite H1. exact Hskip.
Defined.

(** ** The download loop of [main] *)

Lemma downloadPDF_requests (env : Env) (finalURL outputDir : string) (w : world) :
  exists b w',
    downloadPDF env finalURL outputDir w = Done b w'
    /\ (requests w' = requests w \/ requests w' = requests w ++ [finalURL]).
Proof.
  destruct (downloadPDF_frame env finalURL outputDir w) as (b & w' & H & _ & _ & Hr).
  eauto.
Qed.

(** C8. For a candidate without a host (or that does not parse) the
    loop of [main] goes on with the fixed origin
    https://www.nclonline.com prepended by concatenation; a candidate
    with a host is kept as it is. [downloadPDF] is called on that URL,
    when it passes the validity test, and on nothing else: the step
    makes no request, or one request, for that URL. /products/view/X
    becomes https://www.nclonline.com/products/view/X. *)
Theorem download_step_normalizes (env : Env) (outputDir urls : string) (w : world) :
  (hasDomain env urls = false -> normalized env urls = baseOrigin +:+ urls)
  /\ (hasDomain env urls = true -> normalized env urls = urls)
  /\ download_step env outputDir urls w =
     (if isUrlValid env (normalized env urls)
      then downloadPDF env (normalized env urls) outputDir ;;; ret tt
      else ret tt) w
  /\ (exists w',
        download_step env outputDir urls w = Done tt w'
        /\ (requests w' = requests w
            \/ requests w' = requests w ++ [normalized env urls]))
  /\ baseOrigin +:+ "/products/view/X" = "https://www.nclonline.com/products/view/X".
Proof.
  assert (download_step env outputDir urls w =
          (if isUrlValid env (normalized env urls)
           then downloadPDF env (normalized env urls) outputDir ;;; ret tt
           else ret tt) w) as Hstep.
  { unfold download_step, normalized. by destruct (hasDomain env urls). }
  split; [by unfold normalized; intros ->|]. split; [by unfold normalized; intros ->|].
  split; [done|]. split; [|done].
  rewrite Hstep. destruct (isUrlValid env (normalized env urls)).
  - destruct (downloadPDF_requests env (normalized env urls) outputDir w)
      as (b & w' & E & Hr).
    exists w'. unfold bind. by rewrite E.
  - exists w. split; [done|by left].
Qed.

Example download_step_relative_link :
  download_step online_env "PDFs/" "/a/doc.pdf" ready_world =
  Done tt
    (World {[ "PDFs" := Dir; "PDFs/doc.pdf" := File "%PDF-1.4" ]}
       [LogSuccess 8 "https://www.nclonline.com/a/doc.pdf" "PDFs/doc.pdf"]
       ["https://www.nclonline.com/a/doc.pdf"]).
Proof. by vm_compute. Qed.

(** Without the output directory the file cannot be created. *)
Example download_step_without_directory :
  download_step online_env "PDFs/" "/a/doc.pdf" empty_world =
  Done tt
    (World ∅
       [LogCreateFailed "https://www.nclonline.com/a/doc.pdf" "no such file or directory"]
       ["https://www.nclonline.com/a/doc.pdf"]).
Proof. by vm_compute. Qed.

(** ** The page fetches *)

Lemma getDataFromURL_nil_response (env : Env) (uri err : string) (w : world) :
  net env (requests w) uri = GetErr None err ->
  getDataFromURL env uri w =
  Panic (World (fs w) (log w ++ [LogScraping uri; LogError err]) (requests w ++ [uri])).
Proof.
  intros H. unfold getDataFromURL, bind, log_Println, http_Get. simpl. rewrite H. simpl.
  unfold panic. by rewrite <- app_assoc.
Qed.

Lemma for_range_panics {A} (x : A) (l : list A) (body : A -> M unit) (w w' : world) :
  body x w = Panic w' -> for_range (x :: l) body w = Panic w'.
Proof. intros H. simpl. unfold bind. by rewrite H. Qed.

(** C2 fails on the code: when the fetch of a seed page fails, the
    error is logged and the nil response is then dereferenced, so that
    [main] panics instead of going on with the next seed page. With no
    server in reach the run ends at the first seed page; when the
    second fetch times out the third page is never requested. *)
Theorem main_panics_when_fetch_fails :
  main offline_env empty_world =
  Panic (World {[ "PDFs" := Dir ]}
           [LogScraping "https://www.nclonline.com/products/sds_alpha";
            LogError "connection refused"]
           ["https://www.nclonline.com/products/sds_alpha"])
  /\ run flaky_env
       ["https://www.nclonline.com/products/sds_alpha";
        "https://www.nclonline.com/products/view/15_COCONUT_OIL";
        "https://www.nclonline.com/products/view/24_7_"] empty_world =
     Panic (World {[ "PDFs" := Dir;
                     "nclonline.html" := File ("<html></html>" +:+ newline) ]}
              [LogScraping "https://www.nclonline.com/products/sds_alpha";
               LogScraping "https://www.nclonline.com/products/view/15_COCONUT_OIL";
               LogError "timeout"]
              ["https://www.nclonline.com/products/sds_alpha";
               "https://www.nclonline.com/products/view/15_COCONUT_OIL"]).
Proof. split; by vm_compute. Qed.

(** ** The file system helpers *)

Ltac run_fs :=
  unfold fileExists, directoryExists, removeFile, createDirectory, log_if_err,
    os_Stat, os_Remove, os_Mkdir, bind, ret, log_Println, set_fs.

Lemma os_key_clean path : path <> "" -> os_key path = Some (Filepath.Clean path).
Proof. intros H. unfold os_key. by rewrite bool_decide_eq_false_2. Qed.

Lemma os_key_empty : os_key "" = None.
Proof. reflexivity. Qed.

Lemma os_key_cases path :
  (path = "" /\ os_key path = None)
  \/ (path <> "" /\ os_key path = Some (Filepath.Clean path)).
Proof.
  destruct (decide (path = "")) as [->|H]; [by left|]. right. by rewrite os_key_clean.
Qed.

(** The first three conjuncts of the statements on [removeFile] and
    [createDirectory]; the two that are left say what a success and a
    failure have done. *)
Ltac outcome_fs :=
  eexists; split; [reflexivity|]; cbn [fs log requests]; split; [done|];
  split; [by intros; rewrite ?lookup_insert_ne, ?lookup_delete_ne by done|];
  split.

(** X8. [removeFile] returns without a request and changes no path
    but its own; when the removal does not fail and the path names a
    node (other than the working directory and the root), the node is
    gone afterwards, nothing is logged and [fileExists] answers false;
    otherwise the file system is unchanged and one error is logged. *)
Theorem removeFile_removes_or_logs (env : Env) (path : string) (w : world) :
  exists w',
    removeFile env path w = Done tt w'
    /\ requests w' = requests w
    /\ (forall p, p <> Filepath.Clean path -> fs w' !! p = fs w !! p)
    /\ (fault env OpRemove path = None -> removable (fs w) path ->
        fs w' !! Filepath.Clean path = None /\ log w' = log w
        /\ fileExists env path w' = Done false w')
    /\ (fault env OpRemove path <> None \/ ~ removable (fs w) path ->
        fs w' = fs w /\ exists err, log w' = log w ++ [LogError err]).
Proof.
  unfold removable. run_fs.
  destruct (os_key_cases path) as [[-> ->]|[Hne ->]];
    destruct (fault env OpRemove _) as [e|] eqn:Hf; cbn beta iota.
  - outcome_fs; [done|eauto].
  - outcome_fs; [by intros _ (? & _)|eauto].
  - outcome_fs; [done|eauto].
  - destruct (always_there (Filepath.Clean path)) eqn:Ha; cbn beta iota.
    { outcome_fs; [by intros _ (_ & ? & _)|eauto]. }
    destruct (fs w !! Filepath.Clean path) as [n|] eqn:Hp; cbn beta iota.
    + outcome_fs.
      * intros _ _. rewrite lookup_delete_eq. split; [done|]. split; [done|].
        destruct (fault env OpStat path); [done|].
        unfold node_at. rewrite Ha. cbn [fs]. by rewrite lookup_delete_eq.
      * intros [?|Hn]; [done|]. exfalso. apply Hn. eauto.
    + outcome_fs; [|eauto]. intros _ (_ & _ & [? ?]). done.
Qed.

(** X9. [createDirectory] returns without a request and changes no
    path but its own; when the creation does not fail, the path is free
    and its directory is there, the directory exists afterwards and
    nothing is logged; otherwise (an existing file or directory is
    never replaced) the file system is unchanged and one error is
    logged. *)
Theorem createDirectory_creates_or_logs (env : Env) (path : string) (w : world) :
  exists w',
    createDirectory env path w = Done tt w'
    /\ requests w' = requests w
    /\ (forall p, p <> Filepath.Clean path -> fs w' !! p = fs w !! p)
    /\ (fault env OpMkdir path = None -> creatable (fs w) path ->
        fs w' !! Filepath.Clean path = Some Dir /\ log w' = log w
        /\ (stat_works env path -> directoryExists env path w' = Done true w'))
    /\ (fault env OpMkdir path <> None \/ ~ creatable (fs w) path ->
        fs w' = fs w /\ exists err, log w' = log w ++ [LogError err]).
Proof.
  unfold creatable, stat_works. run_fs.
  destruct (os_key_cases path) as [[-> ->]|[Hne ->]];
    destruct (fault env OpMkdir _) as [e|] eqn:Hf; cbn beta iota.
  - outcome_fs; [done|eauto].
  - outcome_fs; [by intros _ (? & _)|eauto].
  - outcome_fs; [done|eauto].
  - destruct (node_at (fs w) (Filepath.Clean path)) as [n|] eqn:Hn; cbn beta iota.
    { outcome_fs; [by intros _ (_ & ? & _)|eauto]. }
    destruct (dir_at (fs w) (Filepath.Dir (Filepath.Clean path))) eqn:Hd; cbn beta iota.
    + outcome_fs.
      * intros _ _. rewrite lookup_insert_eq. split; [done|]. split; [done|].
        intros ->. unfold node_at in *.
        destruct (always_there (Filepath.Clean path)); [done|].
        cbn [fs]. by rewrite lookup_insert_eq.
      * intros [?|Hc]; [done|]. exfalso. by apply Hc.
    + outcome_fs; [|eauto]. intros _ (_ & _ & ?). done.
Qed.

(** ** The working file *)

Ltac run_file :=
  unfold appendAndWriteToFile, readAFileAsString, os_OpenFile, open_for_writing,
    File_Write, File_Close, os_ReadFile, log_if_err, bind, ret, log_Println, set_fs.

Lemma appendAndWriteToFile_outcome (env : Env) (path content : string) (w : world) :
  fault env OpOpen path = None -> appendable (fs w) path ->
  short_write env (Filepath.Clean path) (content +:+ newline) = None ->
  exists w',
    appendAndWriteToFile env path content w = Done tt w'
    /\ fs w' = <[Filepath.Clean path := File (old_content w path +:+ content +:+ newline)]>
                 (fs w)
    /\ requests w' = requests w
    /\ (fault env OpClose (Filepath.Clean path) = None -> log w' = log w).
Proof.
  intros Ho (Hne & Hn) Hw. unfold old_content. run_file.
  rewrite Ho, (os_key_clean _ Hne). unfold node_at in *.
  destruct (always_there (Filepath.Clean path)); [done|].
  destruct (fs w !! Filepath.Clean path) as [[c| |]|] eqn:E; try done; cbn beta iota.
  - rewrite Hw. cbn [fs log requests]. rewrite E. cbn beta iota.
    destruct (fault env OpClose _); eexists; (split; [reflexivity|]); cbn; done.
  - rewrite Hn. cbn beta iota. rewrite Hw. cbn [fs log requests].
    rewrite lookup_insert_eq. cbn beta iota.
    destruct (fault env OpClose _); eexists; (split; [reflexivity|]); cbn;
      by rewrite insert_insert_eq.
Qed.

Lemma readAFileAsString_file (env : Env) (path content : string) (w : world) :
  path <> "" -> fault env OpReadFile path = None ->
  always_there (Filepath.Clean path) = false ->
  fs w !! Filepath.Clean path = Some (File content) ->
  short_read env (Filepath.Clean path) = None ->
  readAFileAsString env path w = Done content w.
Proof.
  intros Hne Hf Ha Hn Hr. run_file. rewrite Hf, (os_key_clean _ Hne).
  unfold node_at. by rewrite Ha, Hn, Hr.
Qed.

Lemma appendable_not_always_there files path :
  appendable files path -> always_there (Filepath.Clean path) = false.
Proof.
  intros (_ & H). unfold node_at in H. by destruct (always_there _).
Qed.

(** X10. When the open, the write and the read do not fail, and the
    path names a regular file or nothing yet in a directory that is
    there, [readAFileAsString] after [appendAndWriteToFile] returns
    what the file held before, followed by the content and a line feed;
    a missing file is created. *)
Theorem append_then_read_round_trip (env : Env) (path content : string) (w : world) :
  fault env OpOpen path = None -> appendable (fs w) path ->
  short_write env (Filepath.Clean path) (content +:+ newline) = None ->
  fault env OpReadFile path = None -> short_read env (Filepath.Clean path) = None ->
  exists w',
    (appendAndWriteToFile env path content ;;; readAFileAsString env path) w =
    Done (old_content w path +:+ content +:+ newline) w'
    /\ fs w' = <[Filepath.Clean path := File (old_content w path +:+ content +:+ newline)]>
                 (fs w).
Proof.
  intros Ho Ha Hw Hr Hs.
  destruct (appendAndWriteToFile_outcome env path content w Ho Ha Hw)
    as (w' & E & Hfs & _).
  exists w'. unfold bind at 1. rewrite E. split; [|done].
  apply readAFileAsString_file; try done.
  - by destruct Ha.
  - by eapply appendable_not_always_there.
  - rewrite Hfs. apply lookup_insert_eq.
Qed.

Lemma append_then_read_round_trip_witness :
  exists w',
    (appendAndWriteToFile online_env "nclonline.html" "<i>" ;;;
     readAFileAsString online_env "nclonline.html")
      (World {[ "nclonline.html" := File ("<b>" +:+ newline) ]} [] []) =
    Done ("<b>" +:+ newline +:+ "<i>" +:+ newline) w'
    /\ fs w' = {[ "nclonline.html" := File ("<b>" +:+ newline +:+ "<i>" +:+ newline) ]}.
Proof.
  destruct (append_then_read_round_trip online_env "nclonline.html" "<i>"
              (World {[ "nclonline.html" := File ("<b>" +:+ newline) ]} [] [])
              eq_refl ltac:(by vm_compute) eq_refl eq_refl eq_refl) as (w' & H & Hfs).
  exists w'. split; [exact H|]. rewrite Hfs. by vm_compute.
Defined.

(** A write that stops short leaves what was written, and the error is
    logged. *)
Example appendAndWriteToFile_on_a_full_disk :
  appendAndWriteToFile full_disk_env "nclonline.html" "<html></html>" empty_world =
  Done tt
    (World {[ "nclonline.html" := File "<htm" ]} [LogError "no space left on device"] []).
Proof. by vm_compute. Qed.

(** X11. When the open fails (a refusal of the system, an empty path,
    a directory, a missing directory), [appendAndWriteToFile] does not
    panic on its nil file: it logs the error of the open and the two
    errors of the write and of the close, and changes nothing. *)
Theorem appendAndWriteToFile_failed_open (env : Env) (path content : string) (w : world) :
  fault env OpOpen path <> None \/ path = ""
  \/ node_at (fs w) (Filepath.Clean path) = Some Dir
  \/ (node_at (fs w) (Filepath.Clean path) = None
      /\ dir_at (fs w) (Filepath.Dir (Filepath.Clean path)) = false) ->
  exists err,
    appendAndWriteToFile env path content w =
    Done tt
      (World (fs w)
         (log w ++ [LogError err; LogError "invalid argument"; LogError "invalid argument"])
         (requests w)).
Proof.
  intros H. run_file.
  destruct (fault env OpOpen path) as [e|] eqn:Ho; cbn beta iota.
  { exists e. cbn. by rewrite <- !app_assoc. }
  destruct (os_key_cases path) as [[-> ->]|[Hne ->]]; cbn beta iota.
  { eexists. cbn. by rewrite <- !app_assoc. }
  destruct H as [?|[?|[E|[E1 E2]]]]; [done|done| |].
  - rewrite E. eexists. cbn. by rewrite <- !app_assoc.
  - rewrite E1, E2. eexists. cbn. by rewrite <- !app_assoc.
Qed.

Lemma appendAndWriteToFile_failed_open_witness :
  exists err,
    appendAndWriteToFile online_env "PDFs/" "<html>" ready_world =
    Done tt
      (World (fs ready_world)
         [LogError err; LogError "invalid argument"; LogError "invalid argument"] []).
Proof.
  exact (appendAndWriteToFile_failed_open online_env "PDFs/" "<html>" ready_world
           (or_intror (or_intror (or_introl eq_refl)))).
Defined.

(** ** The page fetches, again *)

Ltac run_get :=
  unfold getDataFromURL, bind, ret, log_Println, http_Get, log_if_err, panic; simpl.

(** X12. [getDataFromURL] never changes the file system and makes
    exactly one request, for its URL; whenever a response comes with
    the result it returns the body of that response, whatever the
    status; and it panics exactly when the response is nil. *)
Theorem getDataFromURL_returns_any_body (env : Env) (uri : string) (w : world) :
  fs (final_world (getDataFromURL env uri w)) = fs w
  /\ requests (final_world (getDataFromURL env uri w)) = requests w ++ [uri]
  /\ (forall resp,
        net env (requests w) uri = GetOk resp
        \/ (exists err, net env (requests w) uri = GetErr (Some resp) err) ->
        exists w', getDataFromURL env uri w = Done (body_data (resp_Body resp)) w')
  /\ ((exists w', getDataFromURL env uri w = Panic w')
      <-> exists err, net env (requests w) uri = GetErr None err).
Proof.
  run_get.
  destruct (net env (requests w) uri) as [resp|[resp|] e] eqn:E; simpl.
  - destruct (body_read_err (resp_Body resp)), (body_close_err (resp_Body resp)); simpl;
      (split; [done|]); (split; [done|]); (split; [|split; [by intros [? ?]|by intros [? ?]]]);
      intros r [[= <-]|[? [=]]]; eauto.
  - destruct (body_read_err (resp_Body resp)), (body_close_err (resp_Body resp)); simpl;
      (split; [done|]); (split; [done|]); (split; [|split; [by intros [? ?]|by intros [? [=]]]]);
      intros r [[=]|[? [= <- _]]]; eauto.
  - split; [done|]. split; [done|]. split.
    + by intros r [[=]|[? [=]]].
    + split; eauto.
Qed.

(** ** The download engine, again *)

Lemma downloadPDF_success_conditions (env : Env) (finalURL outputDir : string)
    (w w' : world) :
  let filePath := target env outputDir finalURL in
  stat_works env filePath ->
  downloadPDF env finalURL outputDir w = Done true w'
  <-> exists resp,
        fs w !! filePath = None
        /\ dir_at (fs w) (Filepath.Dir filePath) = true
        /\ net env (requests w) finalURL = GetOk resp
        /\ StatusCode resp = 200
        /\ refused_content_type (ContentType resp) = false
        /\ body_read_err (resp_Body resp) = None
        /\ body_data (resp_Body resp) <> ""
        /\ fault env OpCreate filePath = None
        /\ short_write env filePath (body_data (resp_Body resp)) = None
        /\ w' = World (<[filePath := File (body_data (resp_Body resp))]> (fs w))
                  (log w ++ [LogSuccess (String.length (body_data (resp_Body resp)))
                               finalURL filePath])
                  (requests w ++ [finalURL]).
Proof.
  intros filePath. subst filePath. unfold stat_works, refused_content_type.
  download_at env outputDir finalURL t. intros Hs. rewrite Hs. split.
  - run_cases; intros [= <-]; simplify_eq/=.
    all: eexists; repeat (split; [done|]).
    all: repeat match goal with
                | H : negb (bool_decide _) = false |- _ =>
                    apply negb_false_iff, bool_decide_eq_true in H
                | H : bool_decide _ = false |- _ => apply bool_decide_eq_false in H
                end.
    all: unfold dir_at, node_at.
    all: repeat match goal with H : _ = _ |- _ => rewrite H end.
    all: repeat (split; [done|]).
    all: rewrite ?insert_insert_eq.
    all: split; [|done].
    all: intros E; by rewrite E in *.
  - intros (resp & Hn & Hd & Hnet & Hst & Hct & Hrd & Hne & Hcr & Hsw & ->).
    unfold dir_at, node_at in Hd.
    rewrite Hn, Hnet. cbn beta iota. rewrite (bool_decide_eq_true_2 _ Hst). cbn [negb].
    cbn beta iota. rewrite Hct, Hrd.
    rewrite bool_decide_eq_false_2 by (by destruct (body_data (resp_Body resp))).
    rewrite Hcr. cbn [fs log requests]. rewrite Hn.
    destruct (always_there (Filepath.Dir t)).
    + rewrite Hsw. cbn [fs log requests]. rewrite lookup_insert_eq.
      by rewrite insert_insert_eq.
    + destruct (fs w !! Filepath.Dir t) as [[]|]; try done.
      rewrite Hsw. cbn [fs log requests]. rewrite lookup_insert_eq.
      by rewrite insert_insert_eq.
Qed.

(** X13. When [os.Stat] does not fail on the target path,
    [downloadPDF] returns true exactly when nothing is at that path,
    its directory is there, the server answers 200 with an accepted
    content type and a non-empty body read without error, and neither
    the creation nor the write fails; the world is then the old one
    with the body at the target path, one success line logged and one
    request made. *)
Theorem downloadPDF_succeeds_iff (env : Env) (finalURL outputDir : string) (w w' : world) :
  let filePath := target env outputDir finalURL in
  stat_works env filePath ->
  downloadPDF env finalURL outputDir w = Done true w'
  <-> exists resp,
        fs w !! filePath = None
        /\ dir_at (fs w) (Filepath.Dir filePath) = true
        /\ net env (requests w) finalURL = GetOk resp
        /\ StatusCode resp = 200
        /\ refused_content_type (ContentType resp) = false
        /\ body_read_err (resp_Body resp) = None
        /\ body_data (resp_Body resp) <> ""
        /\ fault env OpCreate filePath = None
        /\ short_write env filePath (body_data (resp_Body resp)) = None
        /\ w' = World (<[filePath := File (body_data (resp_Body resp))]> (fs w))
                  (log w ++ [LogSuccess (String.length (body_data (resp_Body resp)))
                               finalURL filePath])
                  (requests w ++ [finalURL]).
Proof. apply downloadPDF_success_conditions. Qed.

Lemma downloadPDF_succeeds_iff_witness :
  let u := "https://www.nclonline.com/a/doc.pdf" in
  downloadPDF online_env u "PDFs/" ready_world =
  Done true
    (World {[ "PDFs" := Dir; "PDFs/doc.pdf" := File "%PDF-1.4" ]}
       [LogSuccess 8 u "PDFs/doc.pdf"] [u])
  /\ forall w', downloadPDF online_env u "PDFs/" empty_world <> Done true w'.
Proof.
  intros u. split.
  - apply (downloadPDF_succeeds_iff online_env u "PDFs/" ready_world); [reflexivity|].
    exists (pdf_response "%PDF-1.4").
    repeat (split; [by vm_compute|]). by vm_compute.
  - intros w' H.
    apply (downloadPDF_succeeds_iff online_env u "PDFs/" empty_world) in H; [|reflexivity].
    destruct H as (resp & _ & Hd & _). by vm_compute in Hd.
Defined.

Lemma downloadPDF_failure (env : Env) (finalURL outputDir : string) (w w' : world) :
  let filePath := target env outputDir finalURL in
  downloadPDF env finalURL outputDir w = Done false w' ->
  fs w' = fs w
  \/ exists resp n err,
       net env (requests w) finalURL = GetOk resp
       /\ short_write env filePath (body_data (resp_Body resp)) = Some (n, err)
       /\ fs w' = <[filePath := File (String.substring 0 n (body_data (resp_Body resp)))]>
                    (fs w)
       /\ (stat_works env filePath -> fs w !! filePath = None).
Proof.
  intros filePath. subst filePath. unfold stat_works.
  download_at env outputDir finalURL t.
  run_cases; intros [= <-]; simplify_eq/=; try (by left).
  all: right; eexists _, _, _; split; [reflexivity|]; split; [eassumption|].
  all: rewrite ?insert_insert_eq; split; [done|].
  all: intros ?; simplify_eq/=; done.
Qed.

(** X14. A call to [downloadPDF] that returns false has left the file
    system as it was, unless the write stopped short after the file was
    created: then the target holds the bytes that were written, and,
    when [os.Stat] does not fail, the target was absent before and the
    next call for the same URL skips it. *)
Theorem downloadPDF_failure_leaves_nothing_or_a_truncated_file
    (env : Env) (finalURL outputDir : string) (w w' : world) :
  let filePath := target env outputDir finalURL in
  downloadPDF env finalURL outputDir w = Done false w' ->
  fs w' = fs w
  \/ exists resp n err,
       net env (requests w) finalURL = GetOk resp
       /\ short_write env filePath (body_data (resp_Body resp)) = Some (n, err)
       /\ fs w' = <[filePath := File (String.substring 0 n (body_data (resp_Body resp)))]>
                    (fs w)
       /\ (stat_works env filePath ->
           fs w !! filePath = None
           /\ downloadPDF env finalURL outputDir w' =
              Done false
                (World (fs w') (log w' ++ [LogSkipExisting filePath]) (requests w'))).
Proof.
  intros filePath H.
  destruct (downloadPDF_failure env finalURL outputDir w w' H)
    as [?|(resp & n & err & Hnet & Hsw & Hfs & Hn)]; [by left|].
  right. exists resp, n, err. repeat (split; [done|]).
  intros Hs. split; [by apply Hn|].
  apply (downloadPDF_existing env finalURL outputDir w'
           (File (String.substring 0 n (body_data (resp_Body resp))))); [done| |done].
  fold filePath. rewrite Hfs. apply lookup_insert_eq.
Qed.

Lemma downloadPDF_failure_leaves_nothing_or_a_truncated_file_witness :
  let u := "https://www.nclonline.com/a/doc.pdf" in
  exists w',
    downloadPDF full_disk_env u "PDFs/" ready_world = Done false w'
    /\ fs w' = {[ "PDFs" := Dir; "PDFs/doc.pdf" := File "%PDF" ]}
    /\ downloadPDF full_disk_env u "PDFs/" w' =
       Done false (World (fs w') (log w' ++ [LogSkipExisting "PDFs/doc.pdf"]) (requests w')).
Proof.
  intros u.
  set (w' := World {[ "PDFs" := Dir; "PDFs/doc.pdf" := File "%PDF" ]}
               [LogWriteFailed u "no space left on device"] [u]).
  assert (downloadPDF full_disk_env u "PDFs/" ready_world = Done false w') as H
    by by vm_compute.
  exists w'. split; [exact H|]. split; [reflexivity|].
  destruct (downloadPDF_failure_leaves_nothing_or_a_truncated_file
              full_disk_env u "PDFs/" ready_world w' H)
    as [E|(resp & n & err & _ & _ & _ & Hskip)].
  - exfalso. apply (f_equal (fun m => m !! "PDFs/doc.pdf")) in E. by vm_compute in E.
  - exact (proj2 (Hskip eq_refl)).
Defined.

(** X15. Every call to [downloadPDF] returns after logging exactly one
    line; it makes no request when [fileExists] answers true for the
    target, as it does for anything but a directory on which [os.Stat]
    does not fail, and exactly one request, for its URL, when
    [fileExists] answers false. *)
Theorem downloadPDF_one_log_line_one_request (env : Env) (finalURL outputDir : string)
    (w : world) :
  let filePath := target env outputDir finalURL in
  exists b w' entry,
    downloadPDF env finalURL outputDir w = Done b w'
    /\ log w' = log w ++ [entry]
    /\ (fileExists env filePath w = Done true w -> requests w' = requests w)
    /\ (fileExists env filePath w = Done false w ->
        requests w' = requests w ++ [finalURL])
    /\ (forall n, stat_works env filePath -> fs w !! filePath = Some n ->
                  IsDir n = false -> fileExists env filePath w = Done true w).
Proof.
  intros filePath. subst filePath. unfold stat_works.
  download_at env outputDir finalURL t.
  run_cases.
  all: eexists _, _, _; (split; [reflexivity|]); cbn [fs log requests].
  all: split; [done|].
  all: repeat split; try done; try (intros; simplify_eq/=; done).
  all: intros n0 _ [= <-] Hn; rewrite Hn in *; done.
Qed.

Lemma Contains_prefix t s : Strings.HasPrefix t s = true -> Strings.Contains t s = true.
Proof. intros H. destruct t; simpl; by rewrite H. Qed.

Lemma Contains_app a s b : Strings.Contains (a +:+ s +:+ b) s = true.
Proof.
  induction a as [|c a IH].
  - change ("" +:+ s +:+ b) with (s +:+ b). apply Contains_prefix, HasPrefix_app.
  - simpl String.append. rewrite Contains_cons, IH. apply orb_true_r.
Qed.

(** X16. The content type is tested by containment: a response whose
    content type holds application/pdf or binary/octet-stream anywhere,
    for instance followed by parameters, is accepted, and with status
    200, a non-empty body, a free target in a directory that is there
    and no failure the download succeeds. *)
Theorem downloadPDF_accepts_content_type_with_parameters
    (env : Env) (finalURL outputDir : string) (w : world) (resp : response)
    (before after : string) :
  let filePath := target env outputDir finalURL in
  let data := body_data (resp_Body resp) in
  stat_works env filePath ->
  fs w !! filePath = None -> dir_at (fs w) (Filepath.Dir filePath) = true ->
  net env (requests w) finalURL = GetOk resp ->
  StatusCode resp = 200 ->
  ContentType resp = before +:+ "application/pdf" +:+ after
  \/ ContentType resp = before +:+ "binary/octet-stream" +:+ after ->
  body_read_err (resp_Body resp) = None -> data <> "" ->
  fault env OpCreate filePath = None -> short_write env filePath data = None ->
  downloadPDF env finalURL outputDir w =
  Done true
    (World (<[filePath := File data]> (fs w))
       (log w ++ [LogSuccess (String.length data) finalURL filePath])
       (requests w ++ [finalURL])).
Proof.
  intros filePath data Hs Hfs Hdir Hnet Hst Hct Hrd Hne Hcr Hsw.
  apply downloadPDF_success_conditions; [done|]. exists resp.
  repeat (split; [done|]). split; [|done].
  unfold refused_content_type.
  destruct Hct as [-> | ->]; rewrite Contains_app; simpl; [apply andb_false_r|done].
Qed.

Lemma downloadPDF_accepts_content_type_with_parameters_witness :
  downloadPDF charset_env "https://www.nclonline.com/sds/x.pdf" "PDFs/" ready_world =
  Done true
    (World {[ "PDFs" := Dir; "PDFs/x.pdf" := File "%PDF-1.7" ]}
       [LogSuccess 8 "https://www.nclonline.com/sds/x.pdf" "PDFs/x.pdf"]
       ["https://www.nclonline.com/sds/x.pdf"]).
Proof.
  assert ("%PDF-1.7" <> "") as Hne by discriminate.
  pose proof (downloadPDF_accepts_content_type_with_parameters charset_env
           "https://www.nclonline.com/sds/x.pdf" "PDFs/" ready_world
           (Response 200 "200 OK" "application/pdf; charset=binary"
              (Body "%PDF-1.7" None None))
           "" "; charset=binary" eq_refl eq_refl eq_refl eq_refl eq_refl
           (or_introl eq_refl) eq_refl Hne eq_refl eq_refl) as H.
  rewrite H. by vm_compute.
Defined.

(** ** The download loop *)

Lemma download_step_outcome (env : Env) (outputDir urls : string) (w : world) :
  exists w',
    download_step env outputDir urls w = Done tt w'
    /\ (if valid_candidate env urls
        then (exists entry, log w' = log w ++ [entry])
             /\ (requests w' = requests w
                 \/ requests w' = requests w ++ [normalized env urls])
        else w' = w).
Proof.
  unfold valid_candidate.
  assert (download_step env outputDir urls w =
          (if isUrlValid env (normalized env urls)
           then downloadPDF env (normalized env urls) outputDir ;;; ret tt
           else ret tt) w) as ->.
  { unfold download_step, normalized. by destruct (hasDomain env urls). }
  destruct (isUrlValid env (normalized env urls)); [|by exists w].
  destruct (downloadPDF_frame env (normalized env urls) outputDir w)
    as (b & w' & H & _ & Hl & Hr).
  exists w'. unfold bind. rewrite H. split; [done|]. split; [eauto|done].
Qed.

Lemma download_loop_outcome (env : Env) (outputDir : string) (l : list string) (w : world) :
  exists w' rs,
    for_range l (download_step env outputDir) w = Done tt w'
    /\ requests w' = requests w ++ rs
    /\ sublist rs (download_targets env l)
    /\ length (log w') = length (log w) + length (download_targets env l).
Proof.
  unfold download_targets. revert w. induction l as [|u l IH]; intros w.
  - exists w, []. simpl. rewrite app_nil_r. repeat split; [done|lia].
  - destruct (download_step_outcome env outputDir u w) as (w1 & H1 & Hv).
    destruct (IH w1) as (w' & rs & H2 & Hr & Hs & Hl).
    simpl for_range. unfold bind at 1. rewrite H1.
    destruct (valid_candidate env u) eqn:Ev.
    + destruct Hv as [[e He] Hrq]. rewrite filter_cons_True by done.
      rewrite fmap_cons. simpl length.
      destruct Hrq as [Hrq|Hrq].
      * exists w', rs. split; [done|]. split; [by rewrite Hr, Hrq|].
        split; [by apply sublist_cons|]. rewrite Hl, He, length_app. simpl. lia.
      * exists w', (normalized env u :: rs). split; [done|].
        split; [by rewrite Hr, Hrq, <- app_assoc|].
        split; [by apply sublist_skip|]. rewrite Hl, He, length_app. simpl. lia.
    + subst w1. rewrite filter_cons_False by (by rewrite Ev). eauto.
Qed.

(** X17. The download loop of [main] returns; the requests it makes
    are, in order, among the normalized valid candidates, at most one
    for each; and it logs one line for each valid candidate and none
    for an invalid one. *)
Theorem download_loop_requests_only_its_targets
    (env : Env) (outputDir : string) (l : list string) (w : world) :
  exists w' rs,
    for_range l (download_step env outputDir) w = Done tt w'
    /\ requests w' = requests w ++ rs
    /\ sublist rs (download_targets env l)
    /\ length (log w') = length (log w) + length (download_targets env l).
Proof. apply download_loop_outcome. Qed.

(** ** What a run touches *)

Lemma touches_only_mono {A} (P Q : string -> Prop) (m : M A) :
  (forall p, P p -> Q p) -> touches_only P m -> touches_only Q m.
Proof. intros HPQ Hm w p Hp. apply Hm. intros ?. apply Hp. auto. Qed.

Lemma touches_only_ret {A} (P : string -> Prop) (a : A) : touches_only P (ret a).
Proof. by intros w p _. Qed.

Lemma touches_only_bind {A B} (P : string -> Prop) (m : M A) (k : A -> M B) :
  touches_only P m -> (forall a, touches_only P (k a)) -> touches_only P (bind m k).
Proof.
  intros Hm Hk w p Hp. unfold bind. specialize (Hm w p Hp).
  destruct (m w) as [a w1|w1]; simpl in *; [|done]. by rewrite (Hk a w1 p Hp).
Qed.

Lemma touches_only_for_range {A} (P : string -> Prop) (l : list A) (body : A -> M unit) :
  (forall x, touches_only P (body x)) -> touches_only P (for_range l body).
Proof.
  intros Hb. induction l as [|x l IH]; [apply touches_only_ret|].
  simpl. apply touches_only_bind; [apply Hb|done].
Qed.

Lemma touches_only_same_fs {A} (P : string -> Prop) (m : M A) :
  (forall w, fs (final_world (m w)) = fs w) -> touches_only P m.
Proof. intros H w p _. by rewrite H. Qed.

Lemma touches_only_log P e : touches_only P (log_Println e).
Proof. by apply touches_only_same_fs. Qed.

Lemma touches_only_fileExists P env path : touches_only P (fileExists env path).
Proof.
  apply touches_only_same_fs. intros w. unfold fileExists, bind, os_Stat, ret.
  repeat case_match; by simplify_eq/=.
Qed.

Lemma touches_only_directoryExists P env path : touches_only P (directoryExists env path).
Proof.
  apply touches_only_same_fs. intros w. unfold directoryExists, bind, os_Stat, ret.
  repeat case_match; by simplify_eq/=.
Qed.

Lemma touches_only_createDirectory env path :
  touches_only (eq (Filepath.Clean path)) (createDirectory env path).
Proof.
  intros w p Hp.
  destruct (createDirectory_creates_or_logs env path w) as (w' & -> & _ & H & _).
  apply H. auto.
Qed.

Lemma touches_only_removeFile env path :
  touches_only (eq (Filepath.Clean path)) (removeFile env path).
Proof.
  intros w p Hp.
  destruct (removeFile_removes_or_logs env path w) as (w' & -> & _ & H & _).
  apply H. auto.
Qed.

Lemma touches_only_getDataFromURL P env uri : touches_only P (getDataFromURL env uri).
Proof.
  apply touches_only_same_fs. intros w.
  unfold getDataFromURL, bind, ret, log_Println, http_Get, log_if_err, panic. simpl.
  destruct (net env (requests w) uri) as [resp|[resp|] e]; simpl; [| |done];
    by destruct (body_read_err (resp_Body resp)), (body_close_err (resp_Body resp)).
Qed.

Lemma touches_only_appendAndWriteToFile env path content :
  touches_only (eq (Filepath.Clean path)) (appendAndWriteToFile env path content).
Proof.
  intros w p Hp.
  unfold appendAndWriteToFile, os_OpenFile, open_for_writing, File_Write, File_Close,
    log_if_err, bind, ret, log_Println, set_fs.
  destruct (os_key_cases path) as [[-> ->]|[Hne ->]].
  - repeat case_match; by simplify_eq/=.
  - repeat (cbn [fs log requests]; case_match); simplify_eq/=;
      by rewrite ?lookup_insert_ne by auto.
Qed.

Lemma touches_only_readAFileAsString P env path : touches_only P (readAFileAsString env path).
Proof.
  apply touches_only_same_fs. intros w.
  unfold readAFileAsString, os_ReadFile, log_if_err, bind, log_Println, ret.
  repeat case_match; by simplify_eq/=.
Qed.

Lemma touches_only_downloadPDF env finalURL outputDir :
  touches_only (eq (target env outputDir finalURL)) (downloadPDF env finalURL outputDir).
Proof.
  intros w p Hp.
  destruct (downloadPDF_frame env finalURL outputDir w) as (b & w' & -> & H & _).
  simpl. apply H. auto.
Qed.

Lemma Join_PDFs tbl finalURL :
  Filepath.Join "PDFs/" (urlToFilename tbl finalURL) = "PDFs/" +:+ urlToFilename tbl finalURL.
Proof.
  destruct (Join_prefix "PDFs/") as (prefix & _ & H).
  destruct (urlToFilename_plain_name tbl finalURL) as (? & ? & ? & ?).
  rewrite H by done. f_equal.
  specialize (H "x" ltac:(done) ltac:(done) ltac:(done) eq_refl).
  change (Filepath.Join "PDFs/" "x") with ("PDFs/" +:+ "x") in H.
  symmetry. by apply (str_app_inj_r _ _ "x").
Qed.

Lemma touches_only_download_step env urls :
  touches_only (run_path env) (download_step env "PDFs/" urls).
Proof.
  unfold download_step.
  set (u := if negb (hasDomain env urls) then _ else _).
  destruct (isUrlValid env u); [|apply touches_only_ret].
  apply touches_only_bind; [|intros; apply touches_only_ret].
  eapply touches_only_mono; [|apply touches_only_downloadPDF].
  intros p <-. right; right. exists u. apply Join_PDFs.
Qed.

(** X18. Whether it returns or panics, a run changes the file system
    only at PDFs, at nclonline.html and at paths PDFs/ followed by a
    sanitized name. *)
Theorem run_touches_only_its_paths (env : Env) (remoteURL : list string) :
  touches_only (run_path env) (run env remoteURL).
Proof.
  unfold run.
  repeat first
    [ apply touches_only_ret
    | apply touches_only_directoryExists
    | apply touches_only_fileExists
    | apply touches_only_getDataFromURL
    | apply touches_only_readAFileAsString
    | apply touches_only_download_step
    | (eapply touches_only_mono; [|apply touches_only_createDirectory]);
      (intros ? <-; by left)
    | (eapply touches_only_mono; [|apply touches_only_removeFile]);
      (intros ? <-; by right; left)
    | (eapply touches_only_mono; [|apply touches_only_appendAndWriteToFile]);
      (intros ? <-; by right; left)
    | match goal with |- touches_only _ (if ?b then _ else _) => destruct b end
    | apply touches_only_for_range; intros ?
    | apply touches_only_bind; [|intros ?] ].
Qed.

(** ** The fetch loop and the whole run *)

Lemma getDataFromURL_response (env : Env) (uri : string) (w : world) :
  (forall err, net env (requests w) uri <> GetErr None err) ->
  exists w',
    getDataFromURL env uri w = Done (body_of (net env (requests w) uri)) w'
    /\ fs w' = fs w /\ requests w' = requests w ++ [uri].
Proof.
  intros Hnet.
  unfold getDataFromURL, bind, ret, log_Println, http_Get, log_if_err, panic. simpl.
  destruct (net env (requests w) uri) as [resp|[resp|] e]; simpl;
    [| |by destruct (Hnet e)];
    destruct (body_read_err (resp_Body resp)), (body_close_err (resp_Body resp)); simpl;
    by eexists.
Qed.

Lemma appendAndWriteToFile_returns (env : Env) (path content : string) (w : world) :
  exists w',
    appendAndWriteToFile env path content w = Done tt w' /\ requests w' = requests w.
Proof.
  unfold appendAndWriteToFile, os_OpenFile, open_for_writing, File_Write, File_Close,
    log_if_err, bind, ret, log_Println, set_fs.
  repeat (cbn [fs log requests]; case_match); simplify_eq/=; by eexists.
Qed.

Lemma fetch_pages_returns (env : Env) (localFile : string) (remoteURL : list string)
    (w : world) :
  no_nil_response env ->
  exists w', fetch_pages env localFile remoteURL w = Done tt w'
             /\ requests w' = requests w ++ remoteURL.
Proof.
  intros Hnn. unfold fetch_pages. revert w.
  induction remoteURL as [|u l IH]; intros w.
  - exists w. by rewrite app_nil_r.
  - destruct (getDataFromURL_response env u w) as (w1 & H1 & _ & Hr1); [by intros e|].
    destruct (appendAndWriteToFile_returns env localFile
                (body_of (net env (requests w) u)) w1) as (w2 & H2 & Hr2).
    destruct (IH w2) as (w' & H3 & Hr3).
    exists w'. simpl for_range. unfold bind. rewrite H1, H2. split; [done|].
    by rewrite Hr3, Hr2, Hr1, <- app_assoc.
Qed.

Lemma appendable_after_write files path data :
  appendable files path ->
  appendable (<[Filepath.Clean path := File data]> files) path.
Proof.
  intros Ha. pose proof (appendable_not_always_there _ _ Ha) as Hn.
  destruct Ha as [Hne _]. split; [done|]. unfold node_at.
  by rewrite Hn, lookup_insert_eq.
Qed.

(** X19. When no response is nil, the open of the working file does
    not fail, no write to it stops short, and it is a regular file or
    can be created, the fetch loop of [main] requests the seed pages in
    order and appends to the working file the body of each answer
    followed by a line feed, changing no other path. *)
Theorem fetch_pages_aggregates_bodies (env : Env) (localFile : string)
    (remoteURL : list string) (w : world) :
  no_nil_response env ->
  fault env OpOpen localFile = None -> writes_whole env localFile ->
  appendable (fs w) localFile ->
  exists w',
    fetch_pages env localFile remoteURL w = Done tt w'
    /\ requests w' = requests w ++ remoteURL
    /\ old_content w' localFile
       = old_content w localFile +:+ page_bodies env (requests w) remoteURL
    /\ (forall p, p <> Filepath.Clean localFile -> fs w' !! p = fs w !! p).
Proof.
  intros Hnn Ho Hw. unfold fetch_pages. revert w.
  induction remoteURL as [|u l IH]; intros w Ha.
  - exists w. simpl. by rewrite app_nil_r, str_app_nil_r.
  - destruct (getDataFromURL_response env u w) as (w1 & H1 & Hf1 & Hr1); [by intros e|].
    rewrite <- Hf1 in Ha.
    destruct (appendAndWriteToFile_outcome env localFile
                (body_of (net env (requests w) u)) w1 Ho Ha (Hw _))
      as (w2 & H2 & Hf2 & Hr2 & _).
    destruct (IH w2) as (w' & H3 & Hr3 & Hc3 & Hp3).
    { rewrite Hf2. by apply appendable_after_write. }
    exists w'. simpl for_range. unfold bind. rewrite H1, H2. split; [done|].
    split; [by rewrite Hr3, Hr2, Hr1, <- app_assoc|]. split.
    + rewrite Hc3, Hr2, Hr1. unfold old_content at 1. rewrite Hf2, lookup_insert_eq.
      unfold old_content. rewrite Hf1. simpl page_bodies.
      by rewrite !str_app_assoc.
    + intros p Hp. rewrite Hp3 by done. rewrite Hf2, Hf1. by rewrite lookup_insert_ne.
Qed.

Lemma online_env_no_nil_response : no_nil_response online_env.
Proof.
  intros earlier url err. unfold online_env, example_env. simpl.
  repeat case_match; discriminate.
Qed.

Lemma fetch_pages_aggregates_bodies_witness :
  exists w',
    fetch_pages online_env "nclonline.html"
      ["https://www.nclonline.com/x"; "https://www.nclonline.com/y"] empty_world
    = Done tt w'
    /\ old_content w' "nclonline.html"
       = "<html></html>" +:+ newline +:+ "<html></html>" +:+ newline.
Proof.
  assert (writes_whole online_env "nclonline.html") as Hw by by intros data.
  assert (appendable (fs empty_world) "nclonline.html") as Ha by by vm_compute.
  destruct (fetch_pages_aggregates_bodies online_env "nclonline.html"
              ["https://www.nclonline.com/x"; "https://www.nclonline.com/y"] empty_world
              online_env_no_nil_response eq_refl Hw Ha) as (w' & H & _ & Hc & _).
  exists w'. split; [exact H|]. rewrite Hc. reflexivity.
Defined.

Lemma quiet_ret {A} (a : A) : quiet (ret a).
Proof. intros w. by exists a, w. Qed.

Lemma quiet_bind {A B} (m : M A) (k : A -> M B) :
  quiet m -> (forall a, quiet (k a)) -> quiet (bind m k).
Proof.
  intros Hm Hk w. destruct (Hm w) as (a & w1 & H1 & Hr1).
  destruct (Hk a w1) as (b & w2 & H2 & Hr2).
  exists b, w2. unfold bind. rewrite H1, H2. split; [done|]. by rewrite Hr2.
Qed.

Lemma quiet_ensure_directory (env : Env) (outputDir : string) :
  quiet (d <- directoryExists env outputDir ;;
         if negb d then createDirectory env outputDir else ret tt).
Proof.
  apply quiet_bind.
  - intros w. unfold directoryExists, bind, os_Stat, ret.
    repeat case_match; simplify_eq/=; by eexists _, _.
  - intros []; [apply quiet_ret|]. intros w.
    destruct (createDirectory_creates_or_logs env outputDir w) as (w' & H & Hr & _).
    by exists tt, w'.
Qed.

Lemma quiet_reset_file (env : Env) (localFile : string) :
  quiet (e <- fileExists env localFile ;;
         if e then removeFile env localFile else ret tt).
Proof.
  apply quiet_bind.
  - intros w. unfold fileExists, bind, os_Stat, ret.
    repeat case_match; simplify_eq/=; by eexists _, _.
  - intros []; [|apply quiet_ret]. intros w.
    destruct (removeFile_removes_or_logs env localFile w) as (w' & H & Hr & _).
    by exists tt, w'.
Qed.

Lemma bind_Done {A B} (m : M A) (k : A -> M B) (w w1 : world) (a : A) :
  m w = Done a w1 -> bind m k w = k a w1.
Proof. intros H. unfold bind. by rewrite H. Qed.

Lemma quiet_readAFileAsString env path : quiet (readAFileAsString env path).
Proof.
  intros w. unfold readAFileAsString, os_ReadFile, log_if_err, bind, log_Println, ret.
  repeat case_match; simplify_eq/=; by eexists _, _.
Qed.

Lemma occurrences_names l s : occurrences names_pdf s l -> Forall names_pdf l.
Proof. induction 1; [constructor|by constructor|done]. Qed.

Lemma normalized_ends_in_pdf env u : names_pdf u -> ends_in_pdf (normalized env u).
Proof.
  intros (v & _ & ->). unfold normalized, ends_in_pdf.
  destruct (hasDomain env _); [by exists v|].
  exists (baseOrigin +:+ v). by rewrite str_app_assoc.
Qed.

Lemma download_targets_of_page env content :
  Forall (fun r => ends_in_pdf r /\ isUrlValid env r = true)
    (download_targets env (removeDuplicatesFromSlice (extractPDFUrls content))).
Proof.
  apply Forall_forall. intros r. unfold download_targets.
  intros (u & -> & [Hv Hu]%list_elem_of_filter)%list_elem_of_fmap.
  split; [|exact Hv]. apply normalized_ends_in_pdf.
  rewrite removeDuplicatesFromSlice_dedup_from, dedup_from_elem in Hu.
  destruct Hu as [Hu _]. rewrite extractPDFUrls_found in Hu.
  pose proof (occurrences_names _ _ (found_occurrences content)) as HF.
  rewrite Forall_forall in HF. by apply HF.
Qed.

(** X20. When no response is nil a run returns: it requests every
    seed page in order and then only URLs that end in .pdf and pass the
    validity test. *)
Theorem run_returns_without_nil_response (env : Env) (remoteURL : list string) (w : world) :
  no_nil_response env ->
  exists w' rs,
    run env remoteURL w = Done tt w'
    /\ requests w' = requests w ++ remoteURL ++ rs
    /\ Forall (fun r => ends_in_pdf r /\ isUrlValid env r = true) rs.
Proof.
  intros Hnn.
  destruct (quiet_ensure_directory env "PDFs/" w) as (? & w1 & H1 & R1).
  destruct (quiet_reset_file env "nclonline.html" w1) as (? & w2 & H2 & R2).
  destruct (fetch_pages_returns env "nclonline.html" remoteURL w2 Hnn) as (w3 & H3 & R3).
  destruct (quiet_readAFileAsString env "nclonline.html" w3) as (content & w4 & H4 & R4).
  destruct (download_loop_outcome env "PDFs/"
              (removeDuplicatesFromSlice (extractPDFUrls content)) w4)
    as (w5 & rs & H5 & R5 & Hs & _).
  exists w5, rs. split; [|split].
  - unfold run. rewrite (bind_Done _ _ _ _ _ H1), (bind_Done _ _ _ _ _ H2).
    unfold fetch_pages in H3. rewrite (bind_Done _ _ _ _ _ H3), (bind_Done _ _ _ _ _ H4).
    exact H5.
  - by rewrite R5, R4, R3, R2, R1, <- app_assoc.
  - pose proof (download_targets_of_page env content) as HF.
    rewrite Forall_forall in *. intros r Hr. apply HF. by eapply elem_of_sublist.
Qed.

Lemma site_env_no_nil_response : no_nil_response site_env.
Proof.
  intros earlier url err. unfold site_env, example_env. simpl.
  by destruct (bool_decide _).
Qed.

Lemma run_returns_without_nil_response_witness :
  let seed := "https://www.nclonline.com/products/sds_alpha" in
  exists w' rs,
    run site_env [seed] empty_world = Done tt w'
    /\ requests w' = [] ++ [seed] ++ rs
    /\ Forall (fun r => ends_in_pdf r /\ isUrlValid site_env r = true) rs
    /\ requests w' = [seed; "https://www.nclonline.com/a/doc.pdf"]
    /\ fs w' !! "PDFs/doc.pdf" = Some (File "%PDF-1.4").
Proof.
  intros seed.
  destruct (run_returns_without_nil_response site_env [seed] empty_world
              site_env_no_nil_response) as (w' & rs & H & Hr & HF).
  exists w', rs. split; [exact H|]. split; [exact Hr|]. split; [exact HF|].
  assert (run site_env [seed] empty_world =
          Done tt
            (World {[ "PDFs" := Dir;
                      "nclonline.html" :=
                        File (("<a " +:+ href_attr "/a/doc.pdf" +:+ "><a "
                               +:+ href_attr "/b/doc.pdf" +:+ ">") +:+ newline);
                      "PDFs/doc.pdf" := File "%PDF-1.4" ]}
               [LogScraping seed;
                LogSuccess 8 "https://www.nclonline.com/a/doc.pdf" "PDFs/doc.pdf";
                LogSkipExisting "PDFs/doc.pdf"]
               [seed; "https://www.nclonline.com/a/doc.pdf"])) as E by by vm_compute.
  rewrite E in H. injection H as <-. split; reflexivity.
Defined.

(** ** De-duplication of a concatenation *)

Lemma dedup_from_seen_ext (s1 s2 l : list string) :
  (forall y, y ∈ s1 <-> y ∈ s2) -> dedup_from s1 l = dedup_from s2 l.
Proof.
  revert s1 s2. induction l as [|x l IH]; intros s1 s2 H; [done|]. simpl.
  destruct (decide (x ∈ s1)) as [Hx|Hx].
  - rewrite decide_True by by apply H. by apply IH.
  - rewrite decide_False by (by rewrite <- H). f_equal. apply IH.
    intros y. rewrite !elem_of_app, H. done.
Qed.

Lemma dedup_from_app (seen l1 l2 : list string) :
  dedup_from seen (l1 ++ l2) = dedup_from seen l1 ++ dedup_from (seen ++ l1) l2.
Proof.
  revert seen. induction l1 as [|x l1 IH]; intros seen.
  - simpl. by rewrite app_nil_r.
  - simpl. destruct (decide (x ∈ seen)) as [Hx|Hx].
    + rewrite IH. f_equal. apply dedup_from_seen_ext.
      intros y. rewrite !elem_of_app, elem_of_cons.
      split; [tauto|]. intros [?|[->|?]]; tauto.
    + simpl. rewrite IH. by rewrite <- app_assoc.
Qed.

Lemma dedup_from_filter (s1 s2 l : list string) :
  dedup_from (s1 ++ s2) l = filter (fun x => x ∉ s1) (dedup_from s2 l).
Proof.
  revert s2. induction l as [|x l IH]; intros s2; [done|]. simpl.
  destruct (decide (x ∈ s2)) as [H2|H2].
  - rewrite decide_True by (apply elem_of_app; auto). apply IH.
  - destruct (decide (x ∈ s1)) as [H1|H1].
    + rewrite decide_True by (apply elem_of_app; auto).
      rewrite filter_cons_False by (intros ?; done).
      rewrite <- IH. apply dedup_from_seen_ext.
      intros y. rewrite !elem_of_app, list_elem_of_singleton.
      split; [tauto|]. intros [?|[?| ->]]; tauto.
    + rewrite decide_False by (rewrite elem_of_app; tauto).
      rewrite filter_cons_True by done. f_equal.
      rewrite <- IH. by rewrite app_assoc.
Qed.

(** X21. De-duplicating a concatenation gives the de-duplicated first
    part followed by the de-duplicated second part without the elements
    of the first. *)
Theorem removeDuplicatesFromSlice_app (l1 l2 : list string) :
  removeDuplicatesFromSlice (l1 ++ l2) =
  removeDuplicatesFromSlice l1
  ++ filter (fun x => x ∉ l1) (removeDuplicatesFromSlice l2).
Proof.
  rewrite !removeDuplicatesFromSlice_dedup_from, dedup_from_app. f_equal.
  rewrite <- (dedup_from_filter l1 [] l2). simpl. by rewrite app_nil_r.
Qed.

(** ** A second run *)

(** X23. When [os.Stat] does not fail and finds a file at the target
    of every valid candidate, the download loop makes no request and
    changes no file: it logs one skip for each of them. *)
Theorem download_loop_skips_what_is_present
    (env : Env) (outputDir : string) (l : list string) (w : world) :
  Forall (fun u => present env (fs w) (target env outputDir u))
    (download_targets env l) ->
  for_range l (download_step env outputDir) w =
  Done tt
    (World (fs w)
       (log w ++ ((fun u => LogSkipExisting (target env outputDir u))
                  <$> download_targets env l))
       (requests w)).
Proof.
  unfold download_targets. revert w. induction l as [|u l IH]; intros w HF.
  - simpl. unfold ret. destruct w. simpl. by rewrite app_nil_r.
  - simpl for_range.
    assert (download_step env outputDir u =
            (if valid_candidate env u
             then downloadPDF env (normalized env u) outputDir ;;; ret tt
             else ret tt)) as ->.
    { unfold download_step, valid_candidate, normalized. by destruct (hasDomain env u). }
    destruct (valid_candidate env u) eqn:Ev.
    + rewrite filter_cons_True in * by done. rewrite fmap_cons in *.
      apply Forall_cons in HF as [(Hs & n & Hn & Hd) HF].
      unfold bind at 1 2. rewrite (downloadPDF_existing _ _ _ _ _ Hs Hn Hd).
      unfold ret at 1. rewrite IH by done. simpl. by rewrite <- app_assoc.
    + rewrite filter_cons_False in * by (by rewrite Ev).
      unfold bind at 1, ret at 1. by apply IH.
Qed.

Lemma download_loop_skips_what_is_present_witness :
  let w := stocked_world "%PDF-1.4" in
  for_range ["/a/doc.pdf"; "/b/doc.pdf"] (download_step online_env "PDFs/") w =
  Done tt (World (fs w) [LogSkipExisting "PDFs/doc.pdf"; LogSkipExisting "PDFs/doc.pdf"] []).
Proof.
  intros w.
  apply (download_loop_skips_what_is_present online_env "PDFs/"
           ["/a/doc.pdf"; "/b/doc.pdf"] w).
  repeat constructor; by eexists.
Defined.

(** When [os.Stat] fails, what is present is requested again. *)
Example download_loop_requests_again_when_stat_fails :
  let w := stocked_world "%PDF-1.4" in
  for_range ["/a/doc.pdf"] (download_step no_access_env "PDFs/") w =
  Done tt
    (World (fs w)
       [LogCreateFailed "https://www.nclonline.com/a/doc.pdf" "permission denied"]
       ["https://www.nclonline.com/a/doc.pdf"]).
Proof. by vm_compute. Qed.

(** ** A URL that ends in .pdf *)

Lemma TrimRight_nil_head c s :
  Strings.TrimRight (String c s) "_" = "" -> is_underscore c = true.
Proof.
  rewrite TrimRight_cons, mem_byte_underscore.
  destruct (Strings.TrimRight s "_"); [|done]. by destruct (is_underscore c).
Qed.

Lemma collapse_nil s : collapse s = "" -> s = "".
Proof.
  induction s as [|c s IH]; [done|]. simpl.
  destruct (is_underscore c && head_is is_underscore s) eqn:E; [|done].
  intros H. apply IH in H as ->. by rewrite andb_false_r in E.
Qed.

Lemma collapse_app_pdf s :
  collapse (s +:+ "_pdf") = Strings.TrimRight (collapse s) "_" +:+ "_pdf".
Proof.
  induction s as [|c s IH]; [done|].
  destruct s as [|d s].
  - simpl String.append. destruct (is_underscore c) eqn:Hc.
    + apply is_underscore_eq in Hc as ->. reflexivity.
    + change (collapse (String c "_pdf")) with
        (if is_underscore c && is_underscore "_" then collapse "_pdf"
         else String c (collapse "_pdf")).
      rewrite Hc. simpl. rewrite orb_false_r. fold (is_underscore c). by rewrite Hc.
  - change (collapse (String c (String d s) +:+ "_pdf")) with
      (if is_underscore c && is_underscore d then collapse (String d s +:+ "_pdf")
       else String c (collapse (String d s +:+ "_pdf"))).
    change (collapse (String c (String d s))) with
      (if is_underscore c && is_underscore d then collapse (String d s)
       else String c (collapse (String d s))).
    rewrite IH.
    destruct (is_underscore c && is_underscore d) eqn:E; [done|].
    rewrite TrimRight_cons.
    destruct (Strings.TrimRight (collapse (String d s)) "_") as [|e t] eqn:Et; [|done].
    rewrite mem_byte_underscore.
    assert (is_underscore d = true) as Hd.
    { pose proof (collapse_head (String d s)) as Hh. simpl head_is at 2 in Hh.
      rewrite <- Hh. destruct (collapse (String d s)) as [|e t] eqn:Ec.
      - by apply collapse_nil in Ec.
      - simpl. by apply TrimRight_nil_head in Et. }
    rewrite Hd, andb_true_r in E. by rewrite E.
Qed.

Lemma drop_while_app p s t :
  all_bytes p s = false -> drop_while p (s +:+ t) = drop_while p s +:+ t.
Proof.
  induction s as [|c s IH]; [done|]. simpl.
  destruct (p c); simpl; [apply IH|done].
Qed.

Lemma Trim_commute s :
  Strings.TrimRight (drop_while is_underscore s) "_"
  = drop_while is_underscore (Strings.TrimRight s "_").
Proof.
  induction s as [|c s IH]; [done|]. simpl drop_while at 1.
  rewrite (TrimRight_cons c s), mem_byte_underscore.
  destruct (is_underscore c) eqn:Hc.
  - rewrite IH. destruct (Strings.TrimRight s "_"); simpl; by rewrite ?Hc.
  - rewrite TrimRight_cons, mem_byte_underscore, Hc.
    destruct (Strings.TrimRight s "_"); simpl; by rewrite Hc.
Qed.

Lemma any_alnum_not_all_underscore s :
  any_byte is_alnum s = true -> all_bytes is_underscore s = false.
Proof.
  induction s as [|c s IH]; [done|]. simpl.
  destruct (is_alnum c) eqn:Hc; simpl.
  - intros _. assert (is_underscore c = false) as ->; [|done].
    apply byte_eqb_neq. intros ->. by vm_compute in Hc.
  - intros H. rewrite (IH H). apply andb_false_r.
Qed.

Lemma underscore_not_alnum c : is_underscore c = true -> is_alnum c = false.
Proof. by intros ->%is_underscore_eq. Qed.

Lemma collapse_any_alnum s : any_byte is_alnum (collapse s) = any_byte is_alnum s.
Proof.
  induction s as [|c s IH]; [done|]. simpl.
  destruct (is_underscore c && head_is is_underscore s) eqn:E; simpl; [|by rewrite IH].
  apply andb_prop in E as [Hc _]. by rewrite IH, (underscore_not_alnum c).
Qed.

Lemma TrimRight_any_alnum s :
  any_byte is_alnum (Strings.TrimRight s "_") = any_byte is_alnum s.
Proof.
  induction s as [|c s IH]; [done|]. rewrite TrimRight_cons, mem_byte_underscore. simpl.
  rewrite <- IH. destruct (Strings.TrimRight s "_"); [|done].
  destruct (is_underscore c) eqn:Hc; simpl; [|done].
  by rewrite (underscore_not_alnum c).
Qed.

Lemma underscore_non_alnum_any s :
  any_byte is_alnum (underscore_non_alnum s) = any_byte is_alnum s.
Proof.
  induction s as [|c s IH]; [done|]. simpl. rewrite IH.
  by destruct (is_alnum c) eqn:Hc; [rewrite Hc|].
Qed.

Lemma any_byte_app p s t : any_byte p (s +:+ t) = any_byte p s || any_byte p t.
Proof.
  induction s as [|c s IH]; [done|]. rewrite str_app_cons. simpl.
  by rewrite IH, orb_assoc.
Qed.

Lemma any_byte_split p s :
  any_byte p s = true -> exists a c b, s = a +:+ String c b /\ p c = true.
Proof.
  induction s as [|c s IH]; [done|]. simpl. destruct (p c) eqn:Hc.
  - intros _. by exists "", c, s.
  - intros (a & d & b & -> & Hd)%IH. by exists (String c a), d, b.
Qed.

Lemma is_letter_or_digit_ascii c :
  is_letter_or_digit c = true -> (Utf8.rune_of_byte c < 128)%Z.
Proof.
  destruct c as [[] [] [] [] [] [] [] []]; intros H; try (by vm_compute in H);
    by vm_compute.
Qed.

(** A letter or digit of ASCII is still there, lowered, after
    [ToLower]. *)
Lemma ToLower_any tbl s :
  any_byte is_letter_or_digit s = true ->
  any_byte is_alnum (Strings.ToLower tbl s) = true.
Proof.
  intros (a & c & b & -> & Hc)%any_byte_split.
  rewrite ToLower_app by by apply is_letter_or_digit_ascii.
  rewrite any_byte_app. simpl. unfold is_letter_or_digit in Hc. rewrite Hc.
  apply orb_true_r.
Qed.

(** The stem of [seg.pdf] for a last segment [seg] with a letter or a
    digit. *)
Lemma stem_chain_pdf s :
  any_byte is_alnum s = true ->
  rm (Strings.TrimRight (drop_while is_underscore (collapse (s +:+ "_pdf"))) "_")
  = rm (Strings.TrimRight (drop_while is_underscore (collapse s)) "_").
Proof.
  intros Hs. rewrite collapse_app_pdf.
  rewrite drop_while_app.
  2:{ apply any_alnum_not_all_underscore. by rewrite TrimRight_any_alnum, collapse_any_alnum. }
  rewrite TrimRight_fixed by (by rewrite last_is_app).
  by rewrite rm_app_pdf, Trim_commute.
Qed.

Lemma after_last_sep_split w :
  Filepath.has_sep w = true -> exists d, w = d +:+ "/" +:+ Filepath.after_last_sep w.
Proof.
  induction w as [|c w IH]; [done|]. cbn [Filepath.has_sep Filepath.after_last_sep].
  destruct (Filepath.has_sep w) eqn:Hw.
  - intros _. destruct (IH eq_refl) as [d Hd]. exists (String c d).
    rewrite str_app_cons. by rewrite <- Hd.
  - rewrite orb_false_r. intros Hc. rewrite Hc. exists "".
    unfold Filepath.is_sep in Hc. by apply byte_eqb_eq in Hc as ->.
Qed.

Lemma getFilename_with_segment tbl w :
  Unicode.keeps_segments tbl ->
  Filepath.after_last_sep w <> "" ->
  getFilename (Strings.ToLower tbl w) = Strings.ToLower tbl (Filepath.after_last_sep w)
  /\ getFilename (Strings.ToLower tbl (w +:+ ".pdf"))
     = Strings.ToLower tbl (Filepath.after_last_sep w) +:+ ".pdf".
Proof.
  intros Hk Hne. pose proof (after_last_sep_has_no_sep w) as Hns.
  set (seg := Filepath.after_last_sep w) in *.
  assert (Filepath.has_sep (seg +:+ ".pdf") = false) as Hns'
    by by rewrite has_sep_app, Hns.
  assert (seg +:+ ".pdf" <> "") as Hne' by by destruct seg.
  assert (Strings.ToLower tbl (seg +:+ ".pdf") = Strings.ToLower tbl seg +:+ ".pdf") as Hl
    by by rewrite ToLower_app_r.
  destruct (Filepath.has_sep w) eqn:Hw.
  - destruct (after_last_sep_split w Hw) as [d Hd]. fold seg in Hd.
    split.
    + rewrite Hd at 1. by apply getFilename_last_segment.
    + rewrite Hd at 1. rewrite !str_app_assoc.
      rewrite (getFilename_last_segment tbl d (seg +:+ ".pdf")) by done.
      done.
  - assert (seg = w) as Hseg by by apply after_last_sep_no_sep.
    rewrite <- Hseg. unfold getFilename. split.
    + apply Base_no_sep; [by apply ToLower_nonempty|by apply ToLower_no_sep].
    + rewrite <- Hl.
      apply Base_no_sep; [by apply ToLower_nonempty|by apply ToLower_no_sep].
Qed.

(** X22. When the last path segment of a URL holds a letter or a
    digit of ASCII, appending .pdf to the URL does not change the name:
    the extension of a link is not doubled (the case tables, as those
    of Go do, lower no rune to a separator and drop none). *)
Theorem urlToFilename_keeps_one_extension (tbl : Z -> Z) (rawURL : string) :
  Unicode.keeps_segments tbl ->
  any_byte is_letter_or_digit (Filepath.after_last_sep rawURL) = true ->
  urlToFilename tbl (rawURL +:+ ".pdf") = urlToFilename tbl rawURL.
Proof.
  intros Hk H.
  destruct (getFilename_with_segment tbl rawURL Hk) as [E1 E2];
    [by intros E; rewrite E in H|].
  rewrite !urlToFilename_stem. f_equal. rewrite !stem_unfold, E1, E2.
  rewrite underscore_non_alnum_app. change (underscore_non_alnum ".pdf") with "_pdf".
  apply stem_chain_pdf. rewrite underscore_non_alnum_any. by apply ToLower_any.
Qed.

Lemma urlToFilename_keeps_one_extension_witness :
  urlToFilename Unicode.example_table ("/docs/Safety-Sheet" +:+ ".pdf")
  = urlToFilename Unicode.example_table "/docs/Safety-Sheet".
Proof.
  exact (urlToFilename_keeps_one_extension Unicode.example_table "/docs/Safety-Sheet"
           example_table_keeps_segments eq_refl).
Defined.

(** Without a letter or digit of ASCII in the last segment the
    extension is doubled: the name of /docs/-- is .pdf, that of
    /docs/--.pdf is pdf.pdf. *)
Example urlToFilename_doubles_a_bare_extension :
  urlToFilename Unicode.example_table "/docs/--" = ".pdf"
  /\ urlToFilename Unicode.example_table ("/docs/--" +:+ ".pdf") = "pdf.pdf".
Proof. split; reflexivity. Qed.
